(** * last30days-skill: the HTTP retry layer and the web-search results

    A shallow embedding of [scripts/lib/http.py] and of
    [scripts/lib/websearch.py].

    - Python [float] is IEEE binary64: it is modelled by Rocq's primitive
      [float], which is the same format with the same round-to-nearest-even
      arithmetic, so every delay below is the very number CPython computes.
    - Python [int] is unbounded: [Z] (attempt indices, which [range] only
      produces non-negative, are [nat]).
    - Python [str] is [string]; [dict] with string keys is [gmap string _];
      [set] is [gset].
    - Exceptions are an explicit result type; the network, the clock and the
      random source are a world that is threaded through [request]. *)

From Stdlib Require Import ZArith Lia List String Ascii Bool Floats.
From Stdlib Require Import DecimalString DecimalZ DecimalPos Sorted.
From stdpp Require Import base gmap sets list strings.
Import ListNotations.

Local Open Scope Z_scope.

(* ================================================================== *)
(** * Python built-ins used by the two modules *)
(* ================================================================== *)

Module PyStr.

(** [s.startswith(p)] *)
Fixpoint startswith (p s : string) : bool :=
  match p, s with
  | EmptyString, _ => true
  | String _ _, EmptyString => false
  | String a p', String b s' => Ascii.eqb a b && startswith p' s'
  end.

(** [s.endswith(suf)]: some tail of [s] is [suf]. *)
Fixpoint endswith (suf s : string) : bool :=
  if String.eqb s suf then true
  else match s with
       | EmptyString => false
       | String _ s' => endswith suf s'
       end.

(** [s.rstrip(c)] for a one-character argument: every trailing [c] goes. *)
Fixpoint rstrip (c : ascii) (s : string) : string :=
  match s with
  | EmptyString => EmptyString
  | String a s' =>
      match rstrip c s' with
      | EmptyString => if Ascii.eqb a c then EmptyString else String a EmptyString
      | r => String a r
      end
  end.

(** [str(n)] for an [int]. *)
Definition str_of_int (n : Z) : string := NilZero.string_of_int (Z.to_int n).

End PyStr.

Module PyFloat.

(** The conversion CPython applies to the [int] operand of [float * int]
    ([PyLong_AsDouble]): the nearest binary64, ties to even;
    [OverflowError] ([None]) when that nearest value is out of range. *)
Definition float_of_int (n : Z) : option float :=
  let f := SF2Prim (binary_normalize prec emax n 0 false) in
  if is_infinity f then None else Some f.

(** [min(a, b)] on two arguments: [b] when [b < a], else [a]
    (so a NaN first argument is returned as it is). *)
Definition py_min (a b : float) : float :=
  if (b <? a)%float then b else a.

End PyFloat.

(* ================================================================== *)
(** * scripts/lib/http.py *)
(* ================================================================== *)

Module Http.
Import PyStr PyFloat.

Definition DEFAULT_TIMEOUT : Z := 30.
Definition MAX_RETRIES : Z := 3.
Definition RETRY_BASE_DELAY : float := 2.0%float.
Definition RETRY_429_BASE_DELAY : float := 5.0%float.
Definition RETRY_MAX_DELAY : float := 60.0%float.
Definition USER_AGENT : string := "last30days-skill/1.0 (Claude Code Skill)".

(** [class HTTPError(Exception)] *)
Record HTTPError := mkHTTPError {
  message : string;
  status_code : option Z;
  body : option string;
  retry_after : option float
}.

(** What can leave a call: the module's own [HTTPError], and the built-in
    exceptions that no [except] clause of [request] is in a position to
    catch. *)
Inductive exn :=
| ExHTTPError (e : HTTPError)
| ExOverflowError            (* int too large to convert to float *)
| ExSleepArgument            (* time.sleep refused its argument *)
| ExOther (type_name : string).

Inductive Result (A : Type) :=
| Ok (a : A)
| Raise (e : exn).
Arguments Ok {A} a.
Arguments Raise {A} e.

(** The arguments of the call
    [urllib.request.Request(url, data=data, headers=headers, method=method)]
    of line 100. What the constructor makes of them (it stores the
    headers under capitalised keys, unwraps the URL, leaves out an empty
    method) is not modelled: the object is determined by these
    arguments, and where it is passed on below, to [urlopen] and into
    the trace, its arguments stand for it. *)
Record Request := mkRequest {
  req_method : string;
  req_url : string;
  req_data : option string;
  req_headers : gmap string string
}.

(** How one pass through the [try] body ends before [json.loads]:
    [urlopen] returned and the body was read and decoded, or an exception
    was raised. The constructors follow the [except] clauses in their
    order (HTTPError is a URLError, which is an OSError). *)
Inductive Attempt :=
| Responded (status : Z) (text : string)
| RaisedHTTPError (code : Z) (reason : string)
    (err_body : option string)          (* e.read().decode('utf-8'), None when that fails *)
    (retry_after_raw : option string)   (* e.headers.get("Retry-After") if e.headers else None *)
| RaisedURLError (reason : string)
| RaisedOSError (type_name : string) (msg : string)
| RaisedOther (type_name : string).

(** What the outside world sees of a call. *)
Inductive Event :=
| EvUrlopen (req : Request) (timeout : Z)
| EvSleep (delay : float).

Record World := mkWorld {
  net_calls : nat;        (* calls of urlopen so far *)
  rand_calls : nat;       (* calls of random.random so far *)
  trace : list Event      (* oldest first *)
}.

(** State and exceptions. *)
Definition M (A : Type) : Type := World -> World * Result A.

Definition ret {A} (a : A) : M A := fun w => (w, Ok a).
Definition raise {A} (e : exn) : M A := fun w => (w, Raise e).
Definition bind {A B} (c : M A) (k : A -> M B) : M B :=
  fun w => match c w with
           | (w', Ok a) => k a w'
           | (w', Raise e) => (w', Raise e)
           end.

Notation "x <- c ;; k" := (bind c (fun x => k))
  (at level 100, c at next level, right associativity).
Notation "c ;;; k" := (bind c (fun _ => k))
  (at level 100, right associativity).

(** The world after one call of [urlopen], and after one call of
    [random.random()]. *)
Definition opened (req : Request) (timeout : Z) (w : World) : World :=
  mkWorld (S (net_calls w)) (rand_calls w) (trace w ++ [EvUrlopen req timeout]).

Definition drawn (w : World) : World :=
  mkWorld (net_calls w) (S (rand_calls w)) (trace w).

(** The world after a sleep of [d] seconds. *)
Definition slept (d : float) (w : World) : World :=
  mkWorld (net_calls w) (rand_calls w) (trace w ++ [EvSleep d]).

Section Environment.
(** The parsed-JSON values and the two [json] functions. *)
Variable JSON : Type.
Variable empty_object : JSON.                      (* {} *)
Variable json_loads : string -> JSON + string.     (* inr: str(JSONDecodeError) *)
(** [json.dumps(json_data).encode('utf-8')]; [Raise] when it raises
    ([TypeError] for a value that is not serialisable). *)
Variable json_dumps : JSON -> Result string.
(** The constructor on its arguments: [None] when it returns the
    object, [Some e] when it raises ([ValueError] for a URL without a
    scheme, for one). *)
Variable Request_raises : Request -> option exn.
(** [float(s)] on a header value; [None] is ValueError. *)
Variable py_float : string -> option float.
(** The [n]-th call of [urlopen] (with reading and decoding the body). *)
Variable urlopen : Request -> Z -> nat -> Attempt.
(** The [n]-th call of [random.random()]. *)
Variable random : nat -> float.

Definition urlopen_call (req : Request) (timeout : Z) : M Attempt :=
  fun w => (opened req timeout w, Ok (urlopen req timeout (net_calls w))).

Definition random_random : M float :=
  fun w => (drawn w, Ok (random (rand_calls w))).

(** [time.sleep(d)]: a negative or NaN argument is refused. (So is one
    beyond the C time range, some 292 years; no delay that is accepted
    here exceeds 75 seconds, see [accepted_delay_at_most_75].) *)
Definition time_sleep (d : float) : M unit :=
  fun w => if (0 <=? d)%float then (slept d w, Ok tt)
           else (w, Raise ExSleepArgument).

(** Lines 60-62: the exponential term, capped.
    [base * (2 ** attempt)] multiplies a float by an int, which first
    converts the int. *)
Definition capped_backoff (attempt : nat) (is_rate_limit : bool) : Result float :=
  let base := if is_rate_limit then RETRY_429_BASE_DELAY else RETRY_BASE_DELAY in
  match float_of_int (2 ^ Z.of_nat attempt) with
  | None => Raise ExOverflowError
  | Some p =>
      let delay := (base * p)%float in
      Ok (py_min delay RETRY_MAX_DELAY)
  end.

Definition _get_retry_delay (attempt : nat) (is_rate_limit : bool)
    (retry_after : option float) : M float :=
  match retry_after with
  | Some h =>
      let delay := py_min h RETRY_MAX_DELAY in
      ret delay
  | None =>
      match capped_backoff attempt is_rate_limit with
      | Raise e => raise e
      | Ok delay =>
          r <- random_random ;;
          let jitter := (delay * 0.25 * r)%float in
          ret (delay + jitter)%float
      end
  end.

(** Lines 124-130. *)
Definition parse_retry_after (retry_after_raw : option string) : option float :=
  match retry_after_raw with
  | None => None
  | Some EmptyString => None
  | Some raw => py_float raw
  end.

Definition is_client_error (code : Z) : bool :=
  (400 <=? code) && (code <? 500) && negb (code =? 429).

(** [if attempt < retries - 1: delay = ...; time.sleep(delay)] *)
Definition backoff (attempt : nat) (retries : Z) (is_rate_limit : bool)
    (retry_after : option float) : M unit :=
  if Z.of_nat attempt <? retries - 1 then
    delay <- _get_retry_delay attempt is_rate_limit retry_after ;;
    time_sleep delay
  else ret tt.

(** Line 112, [json.loads(body) if body else {}]: an empty body is not
    decoded. *)
Definition decode_body (text : string) : JSON + string :=
  match text with
  | EmptyString => inl empty_object
  | _ => json_loads text
  end.

Definition NO_DETAILS : HTTPError :=
  mkHTTPError "Request failed with no error details" None None None.

(** The [for attempt in range(retries)] loop with what follows it;
    [attempts] is what is left of the range. *)
Fixpoint retry_loop (req : Request) (timeout retries : Z)
    (attempts : list nat) (last_error : option HTTPError) : M JSON :=
  match attempts with
  | [] =>
      match last_error with
      | Some e => raise (ExHTTPError e)
      | None => raise (ExHTTPError NO_DETAILS)
      end
  | attempt :: rest =>
      a <- urlopen_call req timeout ;;
      match a with
      | Responded _ text =>
          match decode_body text with
          | inl v => ret v
          | inr e =>
              raise (ExHTTPError
                (mkHTTPError ("Invalid JSON response: " +:+ e) None None None))
          end
      | RaisedHTTPError code reason err_body retry_after_raw =>
          let retry_after := parse_retry_after retry_after_raw in
          let last_error :=
            mkHTTPError ("HTTP " +:+ str_of_int code +:+ ": " +:+ reason)
                        (Some code) err_body retry_after in
          if is_client_error code then raise (ExHTTPError last_error)
          else
            backoff attempt retries (code =? 429) retry_after ;;;
            retry_loop req timeout retries rest (Some last_error)
      | RaisedURLError reason =>
          let last_error := mkHTTPError ("URL Error: " +:+ reason) None None None in
          backoff attempt retries false None ;;;
          retry_loop req timeout retries rest (Some last_error)
      | RaisedOSError type_name msg =>
          let last_error :=
            mkHTTPError ("Connection error: " +:+ type_name +:+ ": " +:+ msg)
                        None None None in
          backoff attempt retries false None ;;;
          retry_loop req timeout retries rest (Some last_error)
      | RaisedOther type_name => raise (ExOther type_name)
      end
  end.

(** [range(n)] *)
Definition range (n : Z) : list nat := seq 0 (Z.to_nat n).

(** [dict.setdefault(k, v)] as far as the dict is concerned. *)
Definition setdefault (k v : string) (d : gmap string string) : gmap string string :=
  match d !! k with
  | Some _ => d
  | None => <[k := v]> d
  end.

(** Lines 95-98: the body and the headers that go with it. *)
Definition encode_body (json_data : option JSON) (headers : gmap string string)
    : Result (option string * gmap string string) :=
  match json_data with
  | None => Ok (None, headers)
  | Some j =>
      match json_dumps j with
      | Ok data => Ok (Some data, setdefault "Content-Type" "application/json" headers)
      | Raise e => Raise e
      end
  end.

(** Lines 92-100, before the loop: the arguments of the constructor and
    its call. An exception of [json.dumps] or of the constructor leaves
    [request] here, no [try] being open yet. *)
Definition prepare (method url : string) (headers : option (gmap string string))
    (json_data : option JSON) : Result Request :=
  let headers := setdefault "User-Agent" USER_AGENT (default ∅ headers) in
  match encode_body json_data headers with
  | Raise e => Raise e
  | Ok (data, headers) =>
      let req := mkRequest method url data headers in
      match Request_raises req with
      | Some e => Raise e
      | None => Ok req
      end
  end.

(** The calls of [log] write to stderr and are left out; [json_data] is
    a dict, as annotated, so the [json_data.keys()] of line 104 returns. *)
Definition request (method url : string) (headers : option (gmap string string))
    (json_data : option JSON) (timeout retries : Z) : M JSON :=
  match prepare method url headers json_data with
  | Raise e => raise e
  | Ok req => retry_loop req timeout retries (range retries) None
  end.

(** [**kwargs] of [get] and [post]: the keyword arguments that the
    caller adds. [request] takes [json_data], [timeout] and [retries]
    from them; the names of all others are in [kw_others], and any of
    them ([method], which is already given by position, or a name that
    [request] does not have) makes the call of [request] a
    [TypeError]. *)
Record Kwargs := mkKwargs {
  kw_json_data : option (option JSON);
  kw_timeout : option Z;
  kw_retries : option Z;
  kw_others : list string
}.

Definition no_kwargs : Kwargs := mkKwargs None None None [].

(** [request("GET", url, headers=headers, **kwargs)] *)
Definition get (url : string) (headers : option (gmap string string))
    (kwargs : Kwargs) : M JSON :=
  match kw_others kwargs with
  | [] =>
      request "GET" url headers (default None (kw_json_data kwargs))
        (default DEFAULT_TIMEOUT (kw_timeout kwargs))
        (default MAX_RETRIES (kw_retries kwargs))
  | _ :: _ => raise (ExOther "TypeError")
  end.

(** [request("POST", url, headers=headers, json_data=json_data, **kwargs)]:
    a [json_data] among the keyword arguments is a second value for the
    parameter. *)
Definition post (url : string) (json_data : JSON)
    (headers : option (gmap string string)) (kwargs : Kwargs) : M JSON :=
  match kw_others kwargs, kw_json_data kwargs with
  | [], None =>
      request "POST" url headers (Some json_data)
        (default DEFAULT_TIMEOUT (kw_timeout kwargs))
        (default MAX_RETRIES (kw_retries kwargs))
  | _, _ => raise (ExOther "TypeError")
  end.

(** Lines 187-194 of [get_reddit_json]: the path that is requested. *)
Definition reddit_path (path : string) : string :=
  let path := if startswith "/" path then path else "/" +:+ path in
  let path := rstrip "/" path in
  if endswith ".json" path then path else path +:+ ".json".

Definition reddit_url (path : string) : string :=
  "https://www.reddit.com" +:+ reddit_path path +:+ "?raw_json=1".

Definition reddit_headers : gmap string string :=
  <["User-Agent" := USER_AGENT]> (<["Accept" := "application/json"]> ∅).

Definition get_reddit_json (path : string) : M JSON :=
  get (reddit_url path) (Some reddit_headers) no_kwargs.

(** ** Vocabulary of the statements about [request] *)

(** The [HTTPError] that the handler of a failed attempt builds. *)
Definition error_of (a : Attempt) : HTTPError :=
  match a with
  | Responded _ text =>
      match decode_body text with
      | inr e => mkHTTPError ("Invalid JSON response: " +:+ e) None None None
      | inl _ => NO_DETAILS
      end
  | RaisedHTTPError code reason err_body raw =>
      mkHTTPError ("HTTP " +:+ str_of_int code +:+ ": " +:+ reason)
                  (Some code) err_body (parse_retry_after raw)
  | RaisedURLError reason => mkHTTPError ("URL Error: " +:+ reason) None None None
  | RaisedOSError type_name msg =>
      mkHTTPError ("Connection error: " +:+ type_name +:+ ": " +:+ msg) None None None
  | RaisedOther _ => NO_DETAILS
  end.

(** An attempt that ends the call, with the error it raises: a status
    in [400, 500) other than 429, or a response whose body fails to
    decode. *)
Inductive permanent_failure : Attempt -> HTTPError -> Prop :=
| client_error (code : Z) (reason : string) (err_body raw : option string) :
    400 <= code < 500 -> code <> 429 ->
    permanent_failure (RaisedHTTPError code reason err_body raw)
      (mkHTTPError ("HTTP " +:+ str_of_int code +:+ ": " +:+ reason)
                   (Some code) err_body (parse_retry_after raw))
| malformed_body (status : Z) (text e : string) :
    decode_body text = inr e ->
    permanent_failure (Responded status text)
      (mkHTTPError ("Invalid JSON response: " +:+ e) None None None).

(** A Retry-After value, when one was parsed, is a non-negative number. *)
Definition hint_ok (retry_after : option float) : Prop :=
  match retry_after with
  | Some h => (0 <=? h)%float = true
  | None => True
  end.

(** An attempt that is retried: HTTP 429 or 5xx, a [URLError], or a
    socket-level error. *)
Definition retryable (a : Attempt) : Prop :=
  match a with
  | RaisedHTTPError code _ _ raw =>
      (code = 429 \/ 500 <= code < 600) /\ hint_ok (parse_retry_after raw)
  | RaisedURLError _ | RaisedOSError _ _ => True
  | Responded _ _ | RaisedOther _ => False
  end.

(** As many calls of [urlopen] as there are delays, each followed by its
    sleep. *)
Fixpoint calls_with_sleeps (req : Request) (timeout : Z) (delays : list float)
    : list Event :=
  match delays with
  | [] => []
  | d :: ds => EvUrlopen req timeout :: EvSleep d :: calls_with_sleeps req timeout ds
  end.

(** One more call of [urlopen] than there are delays, a sleep between
    two consecutive calls. *)
Definition alternating (req : Request) (timeout : Z) (delays : list float) : list Event :=
  calls_with_sleeps req timeout delays ++ [EvUrlopen req timeout].

(** The error that is pending after [n] failed attempts from world [w]. *)
Definition pending_error (req : Request) (timeout : Z) (w : World)
    (last_error : option HTTPError) (n : nat) : option HTTPError :=
  match n with
  | O => last_error
  | S m => Some (error_of (urlopen req timeout (net_calls w + m)))
  end.

End Environment.
End Http.

(** ** Vocabulary of the statements about every run of [request] *)

Module RequestShape.
Import PyStr PyFloat Http.

Section Shape.
Variable JSON : Type.
Variable empty_object : JSON.
Variable json_loads : string -> JSON + string.
Variable py_float : string -> option float.
Variable random : nat -> float.

(** A delay that [_get_retry_delay] computed and [time.sleep] accepted. *)
Definition computed_delay (d : float) : Prop :=
  (0 <=? d)%float = true /\
  exists a rl ra w0 w1, _get_retry_delay random a rl ra w0 = (w1, Ok d).

(** An attempt after which the loop backs off and goes on: an HTTP
    status outside [400, 500) or 429, a [URLError], a socket-level error. *)
Definition retried (a : Attempt) : Prop :=
  match a with
  | RaisedHTTPError code _ _ _ => is_client_error code = false
  | RaisedURLError _ | RaisedOSError _ _ => True
  | Responded _ _ | RaisedOther _ => False
  end.

(** How the last attempt made decides what leaves [request]. *)
Definition decided_by (last : Attempt) (r : Result JSON) : Prop :=
  match r with
  | Ok v => exists status text,
      last = Responded status text /\ decode_body JSON empty_object json_loads text = inl v
  | Raise (ExHTTPError e) =>
      e = error_of JSON empty_object json_loads py_float last /\
      forall type_name, last <> RaisedOther type_name
  | Raise (ExOther type_name) => last = RaisedOther type_name
  | Raise ExOverflowError | Raise ExSleepArgument => retried last
  end.

End Shape.
End RequestShape.

(* ================================================================== *)
(** * scripts/lib/websearch.py *)
(* ================================================================== *)

Module Websearch.
Import PyStr.

(** [schema.WebSearchItem], with the fields [normalize_websearch_items]
    fills in. *)
Record WebSearchItem := mkWebSearchItem {
  id : string;
  title : string;
  url : string;
  source_domain : string;
  snippet : string;
  date : option string;
  date_confidence : string;
  relevance : float;
  why_relevant : string
}.

Section Dedupe.
(** [str.lower]: Unicode case mapping, taken as it comes. *)
Variable lower : string -> string.

(** [item.url.lower().rstrip("/")] *)
Definition url_key (item : WebSearchItem) : string :=
  rstrip "/" (lower (url item)).

(** One turn of the loop over [(seen_urls, result)]. *)
Definition dedupe_step (st : gset string * list WebSearchItem)
    (item : WebSearchItem) : gset string * list WebSearchItem :=
  let '(seen_urls, result) := st in
  if decide (url_key item ∈ seen_urls) then st
  else (seen_urls ∪ {[url_key item]}, result ++ [item]).

Definition dedupe_websearch (items : list WebSearchItem) : list WebSearchItem :=
  snd (fold_left dedupe_step items (∅, [])).

(** What holds of [(seen_urls, result)] once the loop has gone through
    [items]. *)
Record dedupe_inv (items : list WebSearchItem)
    (st : gset string * list WebSearchItem) : Prop := {
  inv_seen : forall k, k ∈ st.1 <-> k ∈ url_key <$> items;
  inv_keys : forall k, k ∈ url_key <$> st.2 <-> k ∈ st.1;
  inv_sub : sublist st.2 items;
  inv_nodup : NoDup (url_key <$> st.2);
  inv_first : forall x, x ∈ st.2 ->
    exists before after,
      items = before ++ x :: after /\ url_key x ∉ url_key <$> before
}.

End Dedupe.
End Websearch.

(* ================================================================== *)
(** * scripts/lib/websearch.py: parsing and normalising the results

    The results come from outside as untyped data, so the values are
    those of Python: the function tests their types and their truth
    itself. A character of a [string] stands for one code point (those
    below 256). *)
(* ================================================================== *)

Module WebsearchParse.
Import PyStr PyFloat.

(** The values a result can hold: those of decoded JSON. *)
#[warnings="-register-all"] Inductive PyVal :=
| PNone
| PBool (b : bool)
| PInt (n : Z)
| PFloat (f : float)
| PStr (s : string)
| PList (l : list PyVal)
| PDict (d : gmap string PyVal).

(** Truth of a value, as [if v] and [not v] test it. *)
Definition truthy (v : PyVal) : bool :=
  match v with
  | PNone => false
  | PBool b => b
  | PInt n => negb (n =? 0)
  | PFloat f => negb (f =? 0)%float
  | PStr s => negb (String.eqb s "")
  | PList l => negb (bool_decide (l = []))
  | PDict d => negb (bool_decide (d = ∅))
  end.

(** [d.get(k, v)] *)
Definition dict_get (d : gmap string PyVal) (k : string) (v : PyVal) : PyVal :=
  default v (d !! k).

(** [str.isspace] of one character. *)
Definition isspace (c : ascii) : bool :=
  let n := nat_of_ascii c in
  ((9 <=? n) && (n <=? 13) || (28 <=? n) && (n <=? 32) || (n =? 133) || (n =? 160))%nat.

Fixpoint lstrip (s : string) : string :=
  match s with
  | EmptyString => EmptyString
  | String c s' => if isspace c then lstrip s' else s
  end.

Fixpoint rstrip_space (s : string) : string :=
  match s with
  | EmptyString => EmptyString
  | String a s' =>
      match rstrip_space s' with
      | EmptyString => if isspace a then EmptyString else String a EmptyString
      | r => String a r
      end
  end.

(** [s.strip()] *)
Definition strip (s : string) : string := rstrip_space (lstrip s).

(** [s[:n]] and [s[n:]] *)
Fixpoint slice_to (n : nat) (s : string) : string :=
  match n, s with
  | S n', String c s' => String c (slice_to n' s')
  | _, _ => EmptyString
  end.

Fixpoint slice_from (n : nat) (s : string) : string :=
  match n, s with
  | S n', String _ s' => slice_from n' s'
  | _, _ => s
  end.

(** [\d] *)
Definition is_digit (c : ascii) : bool :=
  let n := nat_of_ascii c in ((48 <=? n) && (n <=? 57))%nat.

Definition newline : string := String (ascii_of_nat 10) EmptyString.

(** [re.match(r'^\d{4}-\d{2}-\d{2}$', s)]: [$] also matches before a
    newline that ends the string. *)
Definition date_re_match (s : string) : bool :=
  match s with
  | String y1 (String y2 (String y3 (String y4 (String h1
      (String m1 (String m2 (String h2 (String d1 (String d2 rest))))))))) =>
      is_digit y1 && is_digit y2 && is_digit y3 && is_digit y4
      && Ascii.eqb h1 "-" && is_digit m1 && is_digit m2
      && Ascii.eqb h2 "-" && is_digit d1 && is_digit d2
      && (String.eqb rest "" || String.eqb rest newline)
  | _ => false
  end.

(** [max(a, b)] on two arguments: [b] when [b > a], else [a]. *)
Definition py_max (a b : float) : float :=
  if (a <? b)%float then b else a.

(** The exceptions that leave these functions. *)
Inductive error :=
| OverflowError            (* float() of an int out of range *)
| StrError                 (* str() of the value raised *)
| KeyError (key : string).

Inductive Outcome (A : Type) :=
| Returned (a : A)
| Raised (e : error).
Arguments Returned {A} a.
Arguments Raised {A} e.

Definition and_then {A B} (c : Outcome A) (k : A -> Outcome B) : Outcome B :=
  match c with
  | Returned a => k a
  | Raised e => Raised e
  end.

Notation "x <- c ;; k" := (and_then c (fun x => k))
  (at level 100, c at next level, right associativity).

(** How [float(v)] ends. *)
Inductive Converted :=
| Float (f : float)
| TypeOrValueError
| Overflow.

Definition EXCLUDED_DOMAINS : gset string :=
  {[ "reddit.com"; "www.reddit.com"; "old.reddit.com"; "twitter.com";
     "www.twitter.com"; "x.com"; "www.x.com"; "mobile.twitter.com" ]}.

(** A parsed item: the [dict] built at the end of the loop body. *)
Definition Item : Type := gmap string PyVal.

Section Environment.
(** [str.lower]. *)
Variable lower : string -> string.
(** [urlparse(url).netloc]; [None] when [urlparse] raises. *)
Variable netloc : PyVal -> option string.
(** [str(v)] of a value that is not a [str]; [None] when it raises
    (an [int] beyond the digit limit of the conversion). *)
Variable repr : PyVal -> option string.
(** [float(s)] of a [str]; [None] is ValueError. *)
Variable py_float : string -> option float.

Definition extract_domain (url : PyVal) : string :=
  match netloc url with
  | Some n =>
      let domain := lower n in
      if startswith "www." domain then slice_from 4 domain else domain
  | None => EmptyString
  end.

Definition is_excluded_domain (url : PyVal) : bool :=
  match netloc url with
  | Some n =>
      let domain := lower n in
      bool_decide (domain ∈ EXCLUDED_DOMAINS)
  | None => false
  end.

(** [str(v)] *)
Definition py_str (v : PyVal) : Outcome string :=
  match v with
  | PStr s => Returned s
  | _ => match repr v with
         | Some s => Returned s
         | None => Raised StrError
         end
  end.

(** [float(v)] *)
Definition float_of (v : PyVal) : Converted :=
  match v with
  | PFloat f => Float f
  | PBool b => Float (if b then 1 else 0)
  | PInt n => match float_of_int n with
              | Some f => Float f
              | None => Overflow
              end
  | PStr s => match py_float s with
              | Some f => Float f
              | None => TypeOrValueError
              end
  | PNone | PList _ | PDict _ => TypeOrValueError
  end.

(** Lines 116-121. *)
Definition parse_relevance (relevance : PyVal) : Outcome float :=
  match float_of relevance with
  | Float f => Returned (py_min 1.0 (py_max 0.0 f))
  | TypeOrValueError => Returned 0.5%float
  | Overflow => Raised OverflowError
  end.

(** Lines 106-114: the date and its confidence. *)
Definition parse_date (date : PyVal) : Outcome (PyVal * string) :=
  let date_confidence := "low" in
  if truthy date then
    s <- py_str date ;;
    if date_re_match s then Returned (date, "med")
    else Returned (PNone, date_confidence)
  else Returned (date, date_confidence).

(** One turn of the loop on the entry at index [i]; [Returned None] is
    [continue]. *)
Definition parse_entry (i : nat) (result : PyVal) : Outcome (option Item) :=
  match result with
  | PDict result =>
      let url := dict_get result "url" (PStr "") in
      if negb (truthy url) then Returned None
      else if is_excluded_domain url then Returned None
      else
        title <- py_str (dict_get result "title" (PStr "")) ;;
        let title := strip title in
        snippet <- py_str (dict_get result "snippet"
                             (dict_get result "description" (PStr ""))) ;;
        let snippet := strip snippet in
        if negb (truthy (PStr title)) && negb (truthy (PStr snippet)) then Returned None
        else
          dc <- parse_date (dict_get result "date" PNone) ;;
          let '(date, date_confidence) := dc in
          relevance <- parse_relevance (dict_get result "relevance" (PFloat 0.5)) ;;
          why <- py_str (dict_get result "why_relevant" (PStr "")) ;;
          let item : Item :=
            <["id" := PStr ("W" +:+ str_of_int (Z.of_nat i + 1))]>
            (<["title" := PStr (slice_to 200 title)]>
            (<["url" := url]>
            (<["source_domain" := PStr (extract_domain url)]>
            (<["snippet" := PStr (slice_to 500 snippet)]>
            (<["date" := date]>
            (<["date_confidence" := PStr date_confidence]>
            (<["relevance" := PFloat relevance]>
            (<["why_relevant" := PStr (strip why)]> ∅)))))))) in
          Returned (Some item)
  | _ => Returned None
  end.

(** The loop over [enumerate(results)], [items] being the list so far. *)
Fixpoint parse_loop (i : nat) (results : list PyVal) (items : list Item)
    : Outcome (list Item) :=
  match results with
  | [] => Returned items
  | result :: rest =>
      parsed <- parse_entry i result ;;
      match parsed with
      | Some item => parse_loop (S i) rest (items ++ [item])
      | None => parse_loop (S i) rest items
      end
  end.

Definition parse_websearch_results (results : list PyVal) (topic : string)
    : Outcome (list Item) :=
  parse_loop 0 results [].

End Environment.

Section Normalize.
(** [schema.WebSearchItem] is a class of another module: its objects
    and its constructor, called with the nine keyword arguments. *)
Variable WebSearchItemObject : Type.
Variable schema_WebSearchItem :
  forall (id title url source_domain snippet date date_confidence relevance
          why_relevant : PyVal), WebSearchItemObject.

(** [d[k]] *)
Definition dict_item (d : Item) (k : string) : Outcome PyVal :=
  match d !! k with
  | Some v => Returned v
  | None => Raised (KeyError k)
  end.

(** The body of the loop: the object made of one parsed dict. *)
Definition normalize_item (item : Item) : Outcome WebSearchItemObject :=
  id <- dict_item item "id" ;;
  title <- dict_item item "title" ;;
  url <- dict_item item "url" ;;
  source_domain <- dict_item item "source_domain" ;;
  snippet <- dict_item item "snippet" ;;
  Returned (schema_WebSearchItem id title url source_domain snippet
        (dict_get item "date" PNone)
        (dict_get item "date_confidence" (PStr "low"))
        (dict_get item "relevance" (PFloat 0.5))
        (dict_get item "why_relevant" (PStr ""))).

Fixpoint normalize_loop (items : list Item) (result : list WebSearchItemObject)
    : Outcome (list WebSearchItemObject) :=
  match items with
  | [] => Returned result
  | item :: rest =>
      web_item <- normalize_item item ;;
      normalize_loop rest (result ++ [web_item])
  end.

Definition normalize_websearch_items (items : list Item) (from_date to_date : string)
    : Outcome (list WebSearchItemObject) :=
  normalize_loop items [].

(** The keys that [normalize_websearch_items] reads with [item[...]]. *)
Definition REQUIRED_KEYS : list string :=
  ["id"; "title"; "url"; "source_domain"; "snippet"].

End Normalize.
End WebsearchParse.

(* ================================================================== *)
(** * Vocabulary for binary64 arithmetic and for the backoff table *)
(* ================================================================== *)

Module Binary64.

(** Value of the pair [(m, e)], that is [m * 2^e], in units of [2^-sc]. *)
Definition scaled (sc m e : Z) : Z := m * 2 ^ (e + sc).

(** [fexp] of binary64: the exponent of the last place. *)
Definition fexp64 (x : Z) : Z := Z.max (x - 53) (-1074).

(** What [binary_round_aux] makes of a rounded mantissa. *)
Definition finish (m e : Z) : spec_float :=
  match m with
  | Z0 => S754_zero false
  | Zpos p => if e <=? 971 then S754_finite false p e else S754_infinity false
  | Zneg _ => S754_nan
  end.

Definition pack (m e : Z) : spec_float :=
  if m =? 2 ^ 53 then finish (2 ^ 52) (e + 1) else finish m e.

(** A number of the format: at most 53 bits above the smallest exponent. *)
Definition in_format (m e : Z) : Prop := 0 <= m < 2 ^ 53 /\ -1074 <= e.

(** Side conditions on constants, decided by evaluation:
    [q * xmax <= hi] for positive finite floats with [q] normal, and
    [c + jmax <= hi]. *)
Definition mul_check (q xmax hi : float) : bool :=
  match Prim2SF q, Prim2SF xmax, Prim2SF hi with
  | S754_finite false mq eq, S754_finite false mx ex, S754_finite false mh eh =>
      (Zpos (digits2_pos mq) =? 53) &&
      (scaled 1074 (Zpos mq) eq * scaled 1074 (Zpos mx) ex <=? scaled 2148 (Zpos mh) eh)
  | _, _, _ => false
  end.

Definition add_check (c jmax hi : float) : bool :=
  match Prim2SF c, Prim2SF jmax, Prim2SF hi with
  | S754_finite false mc ec, S754_finite false mj ej, S754_finite false mh eh =>
      scaled 1074 (Zpos mc) ec + scaled 1074 (Zpos mj) ej <=? scaled 1074 (Zpos mh) eh
  | _, _, _ => false
  end.

End Binary64.

Module BackoffTable.
Import PyFloat Http Binary64.

(** The two bases as integers. *)
Definition base_int (is_rate_limit : bool) : Z := if is_rate_limit then 5 else 2.

(** [min(base * 2^a, 60)], computed in the integers. *)
Definition capped_int (a : nat) (is_rate_limit : bool) : Z :=
  Z.min (base_int is_rate_limit * 2 ^ Z.of_nat a) 60.

(** The values the capped term takes up to attempt 1023. *)
Definition CAPS : list float := [2; 4; 8; 16; 32; 60; 5; 10; 20; 40]%float.

(** What the jitter lines need of a capped value [c]. *)
Definition cap_side_ok (c : float) : bool :=
  PrimFloat.Leibniz.eqb (c + c * 0.25 * 0)%float c
  && PrimFloat.Leibniz.eqb (c + c * 0.25 * 1)%float (c * 1.25)%float
  && mul_check (c * 0.25)%float 1%float (c * 0.25)%float
  && add_check c (c * 0.25)%float (c * 1.25)%float
  && add_check c (c * 0.25)%float 75%float
  && (0 <=? c)%float.

(** One row: the capped term at attempt [a] is the float of [capped_int]
    and one of [CAPS]. *)
Definition cap_row_ok (a : nat) (rl : bool) : bool :=
  match capped_backoff a rl, float_of_int (capped_int a rl) with
  | Ok c, Some d => PrimFloat.Leibniz.eqb c d && existsb (PrimFloat.Leibniz.eqb c) CAPS
  | _, _ => false
  end.

(** Rate-limited against normal at attempt [a]. *)
Definition rate_row_ok (a : nat) : bool :=
  match capped_backoff a false, capped_backoff a true with
  | Ok dn, Ok dr =>
      (dn <=? dr)%float
      && (if (a <=? 4)%nat then (dn <? dr)%float
          else PrimFloat.Leibniz.eqb dn 60%float && PrimFloat.Leibniz.eqb dr 60%float)
  | _, _ => false
  end.

(** The floats of 0..60 are ordered as the integers are. *)
Definition small_ints_ordered : bool :=
  forallb (fun i => forallb (fun j =>
    if (i <=? j)%nat then
      match float_of_int (Z.of_nat i), float_of_int (Z.of_nat j) with
      | Some x, Some y => (x <=? y)%float
      | _, _ => false
      end
    else true) (seq 0 61)) (seq 0 61).

(** The float of a small integer [n] is [n]: no rounding. *)
Definition small_int_exact (n : nat) : bool :=
  match float_of_int (Z.of_nat n) with
  | Some d =>
      match Prim2SF d with
      | S754_finite false m e => scaled 1074 (Zpos m) e =? scaled 1074 (Z.of_nat n) 0
      | _ => false
      end
  | None => false
  end.

End BackoffTable.

(* ================================================================== *)
(** * Concrete environments for the examples *)
(* ================================================================== *)

Module Fixtures.
Import PyStr Http Websearch.

(** A world in which nothing has happened yet. *)
Definition fresh : World := mkWorld 0 0 [].

(** A JSON decoder that accepts the one body ["{}"]. *)
Definition loads (s : string) : unit + string :=
  if String.eqb s "{}" then inl tt else inr "Expecting value".
Definition dumps (_ : unit) : Result string := Ok "{}".

(** The constructor on the URLs used below: for one without a scheme it
    raises [ValueError] (unknown url type). *)
Definition accepts (req : Request) : option exn :=
  if startswith "http://" (req_url req) || startswith "https://" (req_url req)
  then None
  else Some (ExOther "ValueError").

(** [float] on the header values used below. *)
Definition to_float (s : string) : option float :=
  if String.eqb s "-5" then Some (-5)%float
  else if String.eqb s "30" then Some 30%float
  else None.

Definition half (_ : nat) : float := 0.5%float.

(** Servers: always [404]; always a timeout; a [429] that asks for a
    negative wait. *)
Definition not_found (_ : Request) (_ : Z) (_ : nat) : Attempt :=
  RaisedHTTPError 404 "Not Found" (Some "gone") None.
Definition timing_out (_ : Request) (_ : Z) (_ : nat) : Attempt :=
  RaisedOSError "TimeoutError" "timed out".
Definition negative_wait (_ : Request) (_ : Z) (_ : nat) : Attempt :=
  RaisedHTTPError 429 "Too Many Requests" None (Some "-5").

Definition run (urlopen : Request -> Z -> nat -> Attempt) (retries : Z)
    : World * Result unit :=
  request unit tt loads dumps accepts to_float urlopen half
    "GET" "https://example.org/api" None None DEFAULT_TIMEOUT retries fresh.

(** The request of [run], as the constructor gets it. *)
Definition the_request : Request :=
  mkRequest "GET" "https://example.org/api" None (<["User-Agent" := USER_AGENT]> ∅).

(** [str.lower] on ASCII letters. *)
Definition ascii_lower (c : ascii) : ascii :=
  let n := nat_of_ascii c in
  if ((65 <=? n) && (n <=? 90))%nat then ascii_of_nat (n + 32) else c.

Fixpoint lower_ascii (s : string) : string :=
  match s with
  | EmptyString => EmptyString
  | String c s' => String (ascii_lower c) (lower_ascii s')
  end.

Definition item (i u : string) : WebSearchItem :=
  mkWebSearchItem i "title" u "example.org" "snippet" None "low" 0.5%float "".

End Fixtures.

Module ServerFixtures.
Import Http.

(** Servers: two timeouts and then an empty JSON object; a [503] that
    asks for a wait of 30 seconds. *)
Definition flaky (_ : Request) (_ : Z) (n : nat) : Attempt :=
  if (n <? 2)%nat then RaisedOSError "TimeoutError" "timed out"
  else Responded 200 "{}".
Definition busy (_ : Request) (_ : Z) (_ : nat) : Attempt :=
  RaisedHTTPError 503 "Service Unavailable" None (Some "30").

(** A caller's headers with the agent under a lower-case key, and the
    arguments that a POST of an object to the example URL with these
    headers gives the constructor. *)
Definition curl_headers : gmap string string := <["user-agent" := "curl/8"]> ∅.
Definition the_post : Request :=
  mkRequest "POST" "https://example.org/api" (Some "{}")
    (<["Content-Type" := "application/json"]>
       (<["User-Agent" := USER_AGENT]> curl_headers)).

(** The keywords [timeout=10, retries=5]. *)
Definition patient : Kwargs unit := mkKwargs unit None (Some 10) (Some 5) [].

End ServerFixtures.

Module ResultFixtures.
Import WebsearchParse.

(** [urlparse(url).netloc] on the URLs used below. *)
Definition netloc_of (url : PyVal) : option string :=
  match url with
  | PStr s =>
      if String.eqb s "https://Example.org/a" then Some "Example.org"
      else if String.eqb s "https://example.org/b" then Some "example.org"
      else if String.eqb s "https://www.reddit.com/r/x" then Some "www.reddit.com"
      else Some ""
  | _ => None
  end.

(** [repr] of the values used below. *)
Definition repr_of (v : PyVal) : option string :=
  match v with
  | PNone => Some "None"
  | PInt 7 => Some "7"
  | _ => None
  end.

Definition entry (fields : list (string * PyVal)) : PyVal := PDict (list_to_map fields).

Definition dict_1 : gmap string PyVal :=
  list_to_map
    [("url", PStr "https://Example.org/a"); ("title", PStr "  A title ");
     ("snippet", PStr "first"); ("date", PStr "2024-01-05");
     ("relevance", PFloat 1.5)].

(** Four results: one complete, one that is no dict, one from Reddit,
    one with a description in place of the snippet. *)
Definition results : list PyVal :=
  [ PDict dict_1;
    PStr "junk";
    entry [("url", PStr "https://www.reddit.com/r/x"); ("title", PStr "thread")];
    entry [("url", PStr "https://example.org/b"); ("description", PStr "second ");
           ("date", PInt 7); ("relevance", PStr "high")] ].

(** The two items they give. *)
Definition item_1 : Item :=
  list_to_map
    [("id", PStr "W1"); ("title", PStr "A title"); ("url", PStr "https://Example.org/a");
     ("source_domain", PStr "example.org"); ("snippet", PStr "first");
     ("date", PStr "2024-01-05"); ("date_confidence", PStr "med");
     ("relevance", PFloat 1); ("why_relevant", PStr "")].

Definition item_4 : Item :=
  list_to_map
    [("id", PStr "W4"); ("title", PStr ""); ("url", PStr "https://example.org/b");
     ("source_domain", PStr "example.org"); ("snippet", PStr "second");
     ("date", PNone); ("date_confidence", PStr "low");
     ("relevance", PFloat 0.5); ("why_relevant", PStr "")].

(** A result whose relevance is an [int] beyond the floats. *)
Definition huge : list PyVal :=
  [ entry [("url", PStr "https://example.org/b"); ("title", PStr "t");
           ("relevance", PInt (2 ^ 1024))] ].

Definition parse (results : list PyVal) : Outcome (list Item) :=
  parse_websearch_results Fixtures.lower_ascii netloc_of repr_of Fixtures.to_float
    results "topic".

(** An object as the list of its nine fields. *)
Definition as_list (id title url source_domain snippet date date_confidence relevance
    why_relevant : PyVal) : list PyVal :=
  [id; title; url; source_domain; snippet; date; date_confidence; relevance; why_relevant].

End ResultFixtures.

(* ================================================================== *)
(** * Binary64 rounding does not cross a number of the format

    The primitive operations are specified by [SpecFloat]; what the delay
    computation needs of them is monotonicity of one rounded product and
    one rounded sum against constants. *)
(* ================================================================== *)

Module Binary64Facts.
Import Binary64.


Lemma digits2_pos_bounds (m : positive) :
  2 ^ (Zpos (digits2_pos m) - 1) <= Zpos m < 2 ^ Zpos (digits2_pos m).
Proof.
  induction m as [m IH | m IH |]; cbn [digits2_pos].
  - rewrite Pos2Z.inj_succ, Z.pow_succ_r by lia.
    replace (Z.succ (Zpos (digits2_pos m)) - 1) with (Z.succ (Zpos (digits2_pos m) - 1)) by lia.
    rewrite Z.pow_succ_r by lia. lia.
  - rewrite Pos2Z.inj_succ, Z.pow_succ_r by lia.
    replace (Z.succ (Zpos (digits2_pos m)) - 1) with (Z.succ (Zpos (digits2_pos m) - 1)) by lia.
    rewrite Z.pow_succ_r by lia. lia.
  - simpl. lia.
Qed.

Lemma iter_pos_nat {A} (f : A -> A) (p : positive) (x : A) :
  SpecFloat.iter_pos f p x = Nat.iter (Pos.to_nat p) f x.
Proof.
  revert x. induction p as [p IH | p IH |]; intros x; cbn [SpecFloat.iter_pos].
  - rewrite !IH. rewrite Pos2Nat.inj_xI.
    replace (S (2 * Pos.to_nat p))%nat with (Pos.to_nat p + (Pos.to_nat p + 1))%nat by lia.
    rewrite !Nat.iter_add. reflexivity.
  - rewrite !IH. rewrite Pos2Nat.inj_xO.
    replace (2 * Pos.to_nat p)%nat with (Pos.to_nat p + Pos.to_nat p)%nat by lia.
    rewrite Nat.iter_add. reflexivity.
  - reflexivity.
Qed.

Lemma shr_1_spec (m : Z) (r s : bool) :
  0 <= m ->
  shr_1 (Build_shr_record m r s) =
  Build_shr_record (m / 2) (Z.odd m) (r || s).
Proof.
  intros Hm. rewrite <- Z.div2_div.
  destruct m as [| p | p]; [reflexivity | | lia].
  destruct p; reflexivity.
Qed.

(** Shifting right [k] times: the quotient, and no lost bit when the
    shifted-out part is zero. *)
Lemma shr_iter_spec (m : Z) (k : nat) :
  0 <= m ->
  let mrs := Nat.iter k shr_1 (Build_shr_record m false false) in
  shr_m mrs = m / 2 ^ Z.of_nat k /\
  (m mod 2 ^ Z.of_nat k = 0 -> shr_r mrs = false /\ shr_s mrs = false).
Proof.
  intros Hm. induction k as [| k IH].
  - simpl. rewrite Z.div_1_r. auto.
  - cbn zeta in *. rewrite Nat.iter_succ.
    destruct (Nat.iter k shr_1 _) as [mk rk sk]. cbn [shr_m shr_r shr_s] in IH.
    destruct IH as [IHm IHz].
    assert (0 <= mk) by (subst mk; apply Z.div_pos; lia).
    rewrite shr_1_spec by assumption. cbn [shr_m shr_r shr_s].
    rewrite Nat2Z.inj_succ, Z.pow_succ_r by lia.
    assert (Hpk : 0 < 2 ^ Z.of_nat k) by (apply Z.pow_pos_nonneg; lia).
    split.
    + subst mk. rewrite Z.div_div by lia. f_equal. lia.
    + intros Hz.
      assert (Hdiv : m = 2 * 2 ^ Z.of_nat k * (m / (2 * 2 ^ Z.of_nat k)))
        by (apply Z.div_exact; lia).
      assert (Hzk : m mod 2 ^ Z.of_nat k = 0).
      { rewrite Hdiv. replace (2 * 2 ^ Z.of_nat k * (m / (2 * 2 ^ Z.of_nat k)))
          with ((2 * (m / (2 * 2 ^ Z.of_nat k))) * 2 ^ Z.of_nat k) by lia.
        apply Z.mod_mul. lia. }
      destruct (IHz Hzk) as [-> ->]. split; [| reflexivity].
      subst mk. rewrite Hdiv at 1.
      replace (2 * 2 ^ Z.of_nat k * (m / (2 * 2 ^ Z.of_nat k)))
          with ((2 * (m / (2 * 2 ^ Z.of_nat k))) * 2 ^ Z.of_nat k) by lia.
      rewrite Z.div_mul by lia. rewrite Z.odd_mul. reflexivity.
Qed.


Lemma fexp_64 (x : Z) : fexp prec emax x = fexp64 x.
Proof. reflexivity. Qed.

Lemma shr_nonpos (mrs : shr_record) (e n : Z) : n <= 0 -> shr mrs e n = (mrs, e).
Proof. destruct n; [reflexivity | lia | reflexivity]. Qed.

Lemma shr_pos (m e n : Z) :
  0 <= m -> 0 < n ->
  exists mrs, shr (Build_shr_record m false false) e n = (mrs, e + n) /\
    shr_m mrs = m / 2 ^ n /\
    (m mod 2 ^ n = 0 -> shr_r mrs = false /\ shr_s mrs = false).
Proof.
  intros Hm Hn. destruct n as [| p | p]; try lia.
  cbn [shr]. rewrite iter_pos_nat.
  pose proof (shr_iter_spec m (Pos.to_nat p) Hm) as H. cbn zeta in H.
  rewrite positive_nat_Z in H.
  eexists. split; [reflexivity | exact H].
Qed.

Lemma round_nearest_even_cases (mrs : shr_record) :
  let m2 := round_nearest_even (shr_m mrs) (loc_of_shr_record mrs) in
  (shr_r mrs = false /\ shr_s mrs = false -> m2 = shr_m mrs) /\
  (m2 = shr_m mrs \/ m2 = shr_m mrs + 1).
Proof.
  destruct mrs as [m [|] [|]]; cbn; (split; [intros [? ?]; try discriminate; try reflexivity |]);
    try (destruct (Z.even m)); auto.
Qed.

Lemma finish_shr_fexp (m2 e1 : Z) :
  -1074 <= e1 -> 0 <= m2 <= 2 ^ 53 ->
  (let '(mrs, e2) := shr_fexp prec emax m2 e1 loc_Exact in finish (shr_m mrs) e2)
  = pack m2 e1.
Proof.
  intros He Hm. unfold shr_fexp, pack. rewrite fexp_64. cbn [shr_record_of_loc].
  destruct (Z.eqb_spec m2 (2 ^ 53)) as [-> | Hne].
  - change (Zdigits2 (2 ^ 53)) with 54.
    replace (fexp64 (54 + e1) - e1) with 1 by (unfold fexp64; lia).
    reflexivity.
  - rewrite shr_nonpos; [reflexivity |].
    destruct m2 as [| p | p]; [unfold fexp64; cbn; lia | | lia].
    cbn [Zdigits2]. pose proof (digits2_pos_bounds p) as [Hlo _].
    assert (Zpos (digits2_pos p) <= 53).
    { destruct (Z_le_gt_dec (Zpos (digits2_pos p)) 53) as [|Hgt]; [assumption | exfalso].
      assert (2 ^ 53 <= 2 ^ (Zpos (digits2_pos p) - 1)) by (apply Z.pow_le_mono_r; lia).
      lia. }
    unfold fexp64. lia.
Qed.

(** The one rounding step of binary64, on a mantissa that is not aligned
    below the format's last place: divide, round to nearest (up only when
    bits were lost), renormalise. *)
Lemma round_aux_cases (m : positive) (e : Z) :
  let e1 := fexp64 (Zpos (digits2_pos m) + e) in
  e <= e1 ->
  exists m2 : Z,
    (m2 = Zpos m / 2 ^ (e1 - e) \/
     (m2 = Zpos m / 2 ^ (e1 - e) + 1 /\ Zpos m mod 2 ^ (e1 - e) <> 0)) /\
    binary_round_aux prec emax false (Zpos m) e loc_Exact = pack m2 e1.
Proof.
  intros e1 Hal.
  pose proof (digits2_pos_bounds m) as [Hdlo Hdhi].
  assert (He1 : -1074 <= e1) by (unfold e1, fexp64; lia).
  assert (Hquot : 0 <= Zpos m / 2 ^ (e1 - e) < 2 ^ 53).
  { assert (0 < 2 ^ (e1 - e)) by (apply Z.pow_pos_nonneg; lia).
    split; [apply Z.div_pos; lia |].
    apply Z.div_lt_upper_bound; [lia |].
    rewrite <- Z.pow_add_r by lia.
    eapply Z.lt_le_trans; [exact Hdhi |].
    apply Z.pow_le_mono_r; [lia |]. unfold e1, fexp64. lia. }
  change (binary_round_aux prec emax false (Zpos m) e loc_Exact) with
    (let '(mrs', e') := shr_fexp prec emax (Zpos m) e loc_Exact in
     let '(mrs'', e'') :=
       shr_fexp prec emax (round_nearest_even (shr_m mrs') (loc_of_shr_record mrs')) e' loc_Exact in
     finish (shr_m mrs'') e'').
  unfold shr_fexp at 1. rewrite fexp_64. cbn [Zdigits2 shr_record_of_loc]. fold e1.
  destruct (Z.eq_dec (e1 - e) 0) as [Hz | Hnz].
  - rewrite shr_nonpos by lia. cbn [shr_m loc_of_shr_record round_nearest_even].
    exists (Zpos m). split.
    + left. rewrite Hz, Z.div_1_r. reflexivity.
    + replace e with e1 by lia.
      apply finish_shr_fexp; [assumption |].
      rewrite Hz, Z.div_1_r in Hquot. lia.
  - destruct (shr_pos (Zpos m) e (e1 - e)) as (mrs & -> & Hm1 & Hex); [lia | lia |].
    replace (e + (e1 - e)) with e1 by lia.
    pose proof (round_nearest_even_cases mrs) as [Hexact Hupdown]. cbn zeta in *.
    set (m2 := round_nearest_even (shr_m mrs) (loc_of_shr_record mrs)) in *.
    exists m2. split.
    + rewrite <- Hm1.
      destruct (Z.eq_dec (Zpos m mod 2 ^ (e1 - e)) 0) as [Hr | Hr].
      * left. apply Hexact, Hex, Hr.
      * destruct Hupdown; [left | right]; auto.
    + apply finish_shr_fexp; [assumption |]. lia.
Qed.


Lemma pow2_pos (x : Z) : 0 <= x -> 0 < 2 ^ x.
Proof. intros. apply Z.pow_pos_nonneg; lia. Qed.

Lemma pow2_split (a b : Z) : 0 <= a -> 0 <= b -> 2 ^ (a + b) = 2 ^ a * 2 ^ b.
Proof. intros. apply Z.pow_add_r; assumption. Qed.

Lemma pow2_le (a b : Z) : 0 <= a <= b -> 2 ^ a <= 2 ^ b.
Proof. intros. apply Z.pow_le_mono_r; lia. Qed.

Lemma pow2_double_le (a b : Z) : 0 <= a < b -> 2 ^ a * 2 <= 2 ^ b.
Proof.
  intros. replace b with (Z.succ a + (b - Z.succ a)) by lia.
  rewrite pow2_split, Z.pow_succ_r by lia.
  pose proof (pow2_pos (b - Z.succ a) ltac:(lia)). pose proof (pow2_pos a ltac:(lia)). nia.
Qed.

(** Arithmetic of the sandwich, with the powers of two abstracted:
    [P] is the divisor ([2^n]), [A] the weight of the input's last bit,
    [P * A] that of the output's. *)
Lemma grid_upper (m m1 rem P A k H m2 : Z) :
  0 < P -> 0 < A -> 0 < H -> m = P * m1 + rem -> 0 <= rem < P ->
  m * A <= k * (H * (P * A)) ->
  (m2 = m1 \/ (m2 = m1 + 1 /\ rem <> 0)) ->
  m2 * (P * A) <= k * (H * (P * A)).
Proof.
  intros HP HA HH Hm Hrem Hle Hm2.
  assert (Hpa : 0 < P * A) by (apply Z.mul_pos_pos; assumption).
  assert (Hmk : m <= k * H * P).
  { apply Z.mul_le_mono_pos_r with (p := A); [assumption |]. lia. }
  assert (Hgoal : m2 <= k * H).
  { destruct Hm2 as [-> | [-> Hr]].
    - apply Z.mul_le_mono_pos_r with (p := P); [assumption |]. lia.
    - assert (m1 * P < k * H * P) by lia.
      assert (m1 < k * H) by (apply Z.mul_lt_mono_pos_r with (p := P); assumption).
      lia. }
  replace (k * (H * (P * A))) with (k * H * (P * A)) by lia.
  apply Z.mul_le_mono_nonneg_r; lia.
Qed.

Lemma grid_lower (m m1 rem P A k H : Z) :
  0 < P -> 0 < A -> 0 < H -> m = P * m1 + rem -> 0 <= rem < P ->
  k * (H * (P * A)) <= m * A ->
  k * (H * (P * A)) <= m1 * (P * A).
Proof.
  intros HP HA HH Hm Hrem Hle.
  assert (Hpa : 0 < P * A) by (apply Z.mul_pos_pos; assumption).
  assert (Hmk : k * H * P <= m).
  { apply Z.mul_le_mono_pos_r with (p := A); [assumption |]. lia. }
  assert (Hlt : k * H * P < (m1 + 1) * P) by lia.
  assert (k * H < m1 + 1) by (apply Z.mul_lt_mono_pos_r with (p := P); assumption).
  replace (k * (H * (P * A))) with (k * H * (P * A)) by lia.
  apply Z.mul_le_mono_nonneg_r; lia.
Qed.

(** A number of the format whose last place is finer than [2^e1] is
    below [2^52 * 2^e1]. *)
Lemma below_top (sc mh eh e1 : Z) :
  1074 <= sc -> in_format mh eh -> eh < e1 ->
  mh * 2 ^ (eh + sc) < 2 ^ 52 * 2 ^ (e1 + sc).
Proof.
  intros Hsc [Hm He] Hlt.
  pose proof (pow2_double_le (eh + sc) (e1 + sc) ltac:(lia)).
  pose proof (pow2_pos (eh + sc) ltac:(lia)) as Hp.
  change (2 ^ 52) with 4503599627370496. change (2 ^ 53) with 9007199254740992 in Hm.
  apply Z.lt_le_trans with (9007199254740992 * 2 ^ (eh + sc)).
  - apply Z.mul_lt_mono_pos_r; lia.
  - lia.
Qed.

(** Rounding does not cross a number of the format: a product or a sum
    that lies between two of them is rounded to a number between them. *)
Lemma round_aux_between (sc : Z) (m : positive) (e lo_m lo_e hi_m hi_e : Z) :
  1074 <= sc -> - sc <= e ->
  e <= fexp64 (Zpos (digits2_pos m) + e) ->
  in_format lo_m lo_e -> in_format hi_m hi_e -> hi_e <= 971 ->
  scaled sc lo_m lo_e <= scaled sc (Zpos m) e <= scaled sc hi_m hi_e ->
  let res := binary_round_aux prec emax false (Zpos m) e loc_Exact in
  (res = S754_zero false /\ lo_m = 0) \/
  exists m' e', res = S754_finite false m' e' /\
    scaled sc lo_m lo_e <= scaled sc (Zpos m') e' <= scaled sc hi_m hi_e.
Proof.
  intros Hsc He Hal Hlof Hhif Hie' [Hlo Hhi] res.
  destruct (round_aux_cases m e Hal) as (m2 & Hm2 & Hres).
  fold res in Hres. rewrite Hres. clear Hres res.
  pose proof (digits2_pos_bounds m) as [Hdlo Hdhi].
  remember (Zpos (digits2_pos m)) as d eqn:Ed. clear Ed.
  remember (fexp64 (d + e)) as e1 eqn:Ee1.
  assert (He1 : -1074 <= e1) by (subst e1; unfold fexp64; lia).
  assert (Hfe : e1 = d + e - 53 \/ e1 = -1074) by (subst e1; unfold fexp64; lia).
  clear Ee1.
  unfold scaled in *.
  remember (e1 - e) as n eqn:En.
  assert (Hn : 0 <= n) by lia.
  pose proof (pow2_pos n Hn) as HP.
  pose proof (pow2_pos (e + sc) ltac:(lia)) as HA.
  assert (Hg : 2 ^ (e1 + sc) = 2 ^ n * 2 ^ (e + sc)).
  { rewrite <- pow2_split by lia. f_equal. lia. }
  pose proof (Z.div_mod (Zpos m) (2 ^ n) ltac:(lia)) as Hdm.
  pose proof (Z.mod_pos_bound (Zpos m) (2 ^ n) HP) as Hrem.
  assert (Hm1 : 0 <= Zpos m / 2 ^ n) by (apply Z.div_pos; lia).
  (* in the normal range the quotient has its top bit set *)
  assert (Hnormal : -1074 < e1 -> n = d - 53 /\ 2 ^ 52 <= Zpos m / 2 ^ n).
  { intros Hgt. assert (E : n = d - 53) by lia.
    split; [exact E |].
    apply Z.div_le_lower_bound; [lia |].
    rewrite Z.mul_comm, <- pow2_split by lia.
    replace (52 + n) with (d - 1) by lia. exact Hdlo. }
  assert (Hn0 : n = 0 -> Zpos m mod 2 ^ n = 0 /\ 2 ^ n = 1).
  { intros ->. split; [apply Z.mod_1_r | reflexivity]. }
  remember (Zpos m / 2 ^ n) as m1 eqn:Em1. remember (Zpos m mod 2 ^ n) as rem eqn:Erem.
  remember (2 ^ n) as P eqn:EP. remember (2 ^ (e + sc)) as A eqn:EA.
  pose proof Hlof as [Hlom Hloe]. pose proof Hhif as [Him Hie].
  assert (Hpa : 0 < P * A) by (apply Z.mul_pos_pos; assumption).
  assert (Hv : m1 * (P * A) <= Zpos m * A).
  { assert (0 <= rem * A) by (apply Z.mul_nonneg_nonneg; lia).
    rewrite Hdm at 1. lia. }
  assert (Hm2lo : m1 <= m2) by (destruct Hm2 as [-> | [-> _]]; lia).
  (* the rounded mantissa is sandwiched *)
  assert (Hup : m2 * (P * A) <= hi_m * 2 ^ (hi_e + sc)).
  { destruct (Z_le_gt_dec e1 hi_e) as [Hc | Hc].
    - assert (Hh : 2 ^ (hi_e + sc) = 2 ^ (hi_e - e1) * (P * A)).
      { rewrite <- Hg, <- pow2_split by lia. f_equal. lia. }
      pose proof (pow2_pos (hi_e - e1) ltac:(lia)) as HH.
      rewrite Hh in *.
      eapply grid_upper; eauto.
    - destruct (Z.eq_dec n 0) as [Hz | Hnz].
      + destruct (Hn0 Hz) as [Hr0 HP1].
        destruct Hm2 as [-> | [_ Hr]]; [lia | contradiction].
      + exfalso. destruct Hnormal as [E Htop]; [lia |].
        pose proof (below_top sc hi_m hi_e e1 Hsc Hhif ltac:(lia)) as Hb.
        rewrite Hg in Hb.
        assert (2 ^ 52 * (P * A) <= m1 * (P * A))
          by (apply Z.mul_le_mono_nonneg_r; lia).
        lia. }
  assert (Hdown : lo_m * 2 ^ (lo_e + sc) <= m2 * (P * A)).
  { apply Z.le_trans with (m1 * (P * A)); [| apply Z.mul_le_mono_nonneg_r; lia].
    destruct (Z_le_gt_dec e1 lo_e) as [Hc | Hc].
    - assert (Hh : 2 ^ (lo_e + sc) = 2 ^ (lo_e - e1) * (P * A)).
      { rewrite <- Hg, <- pow2_split by lia. f_equal. lia. }
      pose proof (pow2_pos (lo_e - e1) ltac:(lia)) as HH.
      rewrite Hh in *.
      eapply grid_lower; eauto.
    - destruct (Z.eq_dec n 0) as [Hz | Hnz].
      + destruct (Hn0 Hz) as [Hr0 HP1].
        replace (m1 * (P * A)) with (Zpos m * A); [exact Hlo |].
        rewrite Hdm, HP1, Hr0. ring.
      + destruct Hnormal as [E Htop]; [lia |].
        pose proof (below_top sc lo_m lo_e e1 Hsc Hlof ltac:(lia)) as Hb.
        rewrite Hg in Hb.
        assert (2 ^ 52 * (P * A) <= m1 * (P * A))
          by (apply Z.mul_le_mono_nonneg_r; lia).
        lia. }
  assert (Hhi_lt : hi_m * 2 ^ (hi_e + sc) < 2 ^ 52 * 2 ^ (972 + sc))
    by (apply below_top; [assumption | assumption | lia]).
  (* the shape of the result *)
  unfold pack. destruct (Z.eqb_spec m2 (2 ^ 53)) as [E53 | N53].
  - right. change (finish (2 ^ 52) (e1 + 1)) with
      (if e1 + 1 <=? 971 then S754_finite false (2 ^ 52)%positive (e1 + 1)
       else S754_infinity false).
    assert (Heq : Zpos (2 ^ 52) * 2 ^ (e1 + 1 + sc) = m2 * (P * A)).
    { rewrite E53, <- Hg. replace (e1 + 1 + sc) with (1 + (e1 + sc)) by lia.
      rewrite pow2_split by lia.
      change (2 ^ 53) with (Zpos (2 ^ 52) * 2 ^ 1). ring. }
    destruct (Z.leb_spec (e1 + 1) 971) as [Hle | Hgt].
    + eexists _, _. split; [reflexivity |]. rewrite Heq. lia.
    + exfalso.
      assert (2 ^ (972 + sc) <= 2 ^ (e1 + 1 + sc)) by (apply pow2_le; lia).
      change (Zpos (2 ^ 52)) with (2 ^ 52) in Heq.
      assert (2 ^ 52 * 2 ^ (972 + sc) <= 2 ^ 52 * 2 ^ (e1 + 1 + sc))
        by (apply Z.mul_le_mono_nonneg_l; lia).
      lia.
  - destruct m2 as [| p | p]; [| | lia].
    + left. split; [reflexivity |].
      destruct (Z.eq_dec lo_m 0) as [| Hnz]; [assumption | exfalso].
      assert (0 < lo_m * 2 ^ (lo_e + sc))
        by (apply Z.mul_pos_pos; [lia | apply pow2_pos; lia]).
      lia.
    + right. cbn [finish].
      destruct (Z.leb_spec e1 971) as [Hle | Hgt].
      * eexists _, _. split; [reflexivity |]. rewrite Hg. lia.
      * exfalso. destruct Hnormal as [_ Htop]; [lia |].
        assert (2 ^ (972 + sc) <= P * A) by (rewrite <- Hg; apply pow2_le; lia).
        assert (2 ^ 52 * 2 ^ (972 + sc) <= 2 ^ 52 * (P * A))
          by (apply Z.mul_le_mono_nonneg_l; lia).
        assert (2 ^ 52 * (P * A) <= Zpos p * (P * A))
          by (apply Z.mul_le_mono_nonneg_r; lia).
        lia.
Qed.


(** ** Numbers of the format and their order *)

Lemma bounded_canonical (m : positive) (e : Z) :
  bounded prec emax m e = true ->
  fexp64 (Zpos (digits2_pos m) + e) = e /\ e <= 971.
Proof.
  unfold bounded, canonical_mantissa. rewrite fexp_64.
  intros H. apply andb_prop in H as [H1 H2].
  apply Z.eqb_eq in H1. apply Z.leb_le in H2. change (emax - prec) with 971 in H2.
  auto.
Qed.

Lemma bounded_in_format (m : positive) (e : Z) :
  bounded prec emax m e = true ->
  in_format (Zpos m) e /\ e <= 971 /\ (-1074 < e -> 2 ^ 52 <= Zpos m).
Proof.
  intros H. apply bounded_canonical in H as [Hc He].
  pose proof (digits2_pos_bounds m) as [Hlo Hhi].
  remember (Zpos (digits2_pos m)) as d eqn:Ed.
  assert (0 < d) by lia. clear Ed.
  unfold fexp64 in Hc.
  assert (Hd : d <= 53) by lia.
  assert (2 ^ d <= 2 ^ 53) by (apply pow2_le; lia).
  repeat split; try lia.
  intros Hgt. assert (d = 53) by lia. subst d. exact Hlo.
Qed.

Lemma scaled_lt_of_exp_lt (sc : Z) (m1 m2 : positive) (e1 e2 : Z) :
  1074 <= sc ->
  bounded prec emax m1 e1 = true -> bounded prec emax m2 e2 = true ->
  e1 < e2 -> scaled sc (Zpos m1) e1 < scaled sc (Zpos m2) e2.
Proof.
  intros Hsc H1 H2 Hlt.
  apply bounded_in_format in H1 as (F1 & _ & _).
  apply bounded_in_format in H2 as (F2 & _ & T2).
  pose proof (below_top sc (Zpos m1) e1 e2 Hsc F1 Hlt) as Hb.
  destruct F1 as [_ ?]. unfold scaled.
  pose proof (pow2_pos (e2 + sc) ltac:(lia)).
  assert (2 ^ 52 * 2 ^ (e2 + sc) <= Zpos m2 * 2 ^ (e2 + sc))
    by (apply Z.mul_le_mono_nonneg_r; lia).
  lia.
Qed.

Lemma SFcompare_finite (sc : Z) (m1 m2 : positive) (e1 e2 : Z) :
  1074 <= sc ->
  bounded prec emax m1 e1 = true -> bounded prec emax m2 e2 = true ->
  SFcompare (S754_finite false m1 e1) (S754_finite false m2 e2) =
  Some (scaled sc (Zpos m1) e1 ?= scaled sc (Zpos m2) e2).
Proof.
  intros Hsc H1 H2. cbn [SFcompare]. f_equal.
  destruct (Z.compare_spec e1 e2) as [-> | Hlt | Hgt].
  - rewrite Pos.compare_cont_spec. cbn [Pos.switch_Eq].
    apply bounded_in_format in H2 as ([_ ?] & _ & _).
    unfold scaled. pose proof (pow2_pos (e2 + sc) ltac:(lia)).
    rewrite Pos2Z.inj_compare.
    symmetry. destruct (Z.compare_spec (Zpos m1) (Zpos m2)) as [E | L | G].
    + rewrite E. apply Z.compare_refl.
    + apply Z.compare_lt_iff. apply Z.mul_lt_mono_pos_r; assumption.
    + apply Z.compare_gt_iff. apply Z.mul_lt_mono_pos_r; assumption.
  - symmetry. apply Z.compare_lt_iff. apply scaled_lt_of_exp_lt; assumption.
  - symmetry. apply Z.compare_gt_iff. apply scaled_lt_of_exp_lt; assumption.
Qed.

Lemma SFleb_finite (sc : Z) (m1 m2 : positive) (e1 e2 : Z) :
  1074 <= sc ->
  bounded prec emax m1 e1 = true -> bounded prec emax m2 e2 = true ->
  SFleb (S754_finite false m1 e1) (S754_finite false m2 e2) =
  (scaled sc (Zpos m1) e1 <=? scaled sc (Zpos m2) e2).
Proof.
  intros Hsc H1 H2. unfold SFleb. rewrite (SFcompare_finite sc) by assumption.
  unfold Z.leb. destruct (_ ?= _); reflexivity.
Qed.


(** ** Alignment before an addition *)

Lemma iter_xO (m d : positive) : Zpos (Pos.iter xO m d) = Zpos m * 2 ^ Zpos d.
Proof.
  induction d as [| d IH] using Pos.peano_ind.
  - cbn. lia.
  - rewrite Pos.iter_succ, Pos2Z.inj_xO, IH, Pos2Z.inj_succ, Z.pow_succ_r by lia. lia.
Qed.

Lemma digits_iter_xO (m d : positive) :
  Zpos (digits2_pos (Pos.iter xO m d)) = Zpos (digits2_pos m) + Zpos d.
Proof.
  induction d as [| d IH] using Pos.peano_ind.
  - cbn. lia.
  - rewrite Pos.iter_succ. cbn [digits2_pos]. rewrite Pos2Z.inj_succ, IH. lia.
Qed.

Lemma shl_align_spec (mx : positive) (ex ex' : Z) :
  let '(m', e') := shl_align mx ex ex' in
  e' = Z.min ex ex' /\
  Zpos m' = Zpos mx * 2 ^ (ex - e') /\
  Zpos (digits2_pos m') + e' = Zpos (digits2_pos mx) + ex.
Proof.
  unfold shl_align. destruct (ex' - ex) as [| d | d] eqn:E.
  - replace (ex - ex) with 0 by lia. repeat split; lia.
  - replace (ex - ex) with 0 by lia. repeat split; lia.
  - rewrite iter_xO, digits_iter_xO. replace (ex - ex') with (Zpos d) by lia.
    repeat split; lia.
Qed.

(** ** The primitive operations, through their specification *)

Local Open Scope float_scope.

Lemma Prim2SF_bounded (x : float) (s : bool) (m : positive) (e : Z) :
  Prim2SF x = S754_finite s m e -> bounded prec emax m e = true.
Proof. intros H. pose proof (Prim2SF_valid x) as V. rewrite H in V. exact V. Qed.

(** [0 <= x <= xmax] for a positive finite [xmax]. *)
Lemma between_view (x xmax : float) (mh : positive) (eh : Z) :
  Prim2SF xmax = S754_finite false mh eh ->
  (0 <=? x) = true -> (x <=? xmax) = true ->
  (exists s, Prim2SF x = S754_zero s) \/
  (exists m e, Prim2SF x = S754_finite false m e /\ bounded prec emax m e = true /\
     (scaled 1074 (Zpos m) e <= scaled 1074 (Zpos mh) eh)%Z).
Proof.
  intros Hmax H0 Hle. rewrite leb_spec in H0, Hle. rewrite Hmax in Hle.
  change (Prim2SF 0) with (S754_zero false) in H0.
  destruct (Prim2SF x) as [s | s | | s m e] eqn:Hx.
  - left. eauto.
  - destruct s; discriminate.
  - discriminate.
  - destruct s; [discriminate |]. right.
    pose proof (Prim2SF_bounded _ _ _ _ Hx) as Bx.
    pose proof (Prim2SF_bounded _ _ _ _ Hmax) as Bh.
    rewrite (SFleb_finite 1074) in Hle by (assumption || lia).
    apply Z.leb_le in Hle. eauto 6.
Qed.


Lemma digits_mul_ge (a b : positive) :
  (Zpos (digits2_pos a) <= Zpos (digits2_pos (a * b)))%Z.
Proof.
  pose proof (digits2_pos_bounds a) as [Ha _].
  pose proof (digits2_pos_bounds (a * b)) as [_ Hab].
  rewrite Pos2Z.inj_mul in Hab.
  destruct (Z_le_gt_dec (Zpos (digits2_pos a)) (Zpos (digits2_pos (a * b))))
    as [| Hgt]; [assumption | exfalso].
  assert (2 ^ Zpos (digits2_pos (a * b)) <= 2 ^ (Zpos (digits2_pos a) - 1))%Z
    by (apply pow2_le; lia).
  assert (Zpos a * 1 <= Zpos a * Zpos b)%Z by (apply Z.mul_le_mono_nonneg_l; lia).
  lia.
Qed.

Lemma scaled_mul (m1 m2 e1 e2 : Z) :
  (-1074 <= e1 -> -1074 <= e2 ->
   scaled 2148 (m1 * m2) (e1 + e2) = scaled 1074 m1 e1 * scaled 1074 m2 e2)%Z.
Proof.
  intros H1 H2. unfold scaled.
  replace (e1 + e2 + 2148)%Z with ((e1 + 1074) + (e2 + 1074))%Z by lia.
  rewrite pow2_split by lia. ring.
Qed.

(** Product of two positive numbers of the format, rounded. *)
Lemma SFmul_between (mq mx mh : positive) (eq ex eh : Z) :
  bounded prec emax mq eq = true -> bounded prec emax mx ex = true ->
  bounded prec emax mh eh = true ->
  Zpos (digits2_pos mq) = 53%Z ->
  (scaled 1074 (Zpos mq) eq * scaled 1074 (Zpos mx) ex <= scaled 2148 (Zpos mh) eh)%Z ->
  let res := SFmul prec emax (S754_finite false mq eq) (S754_finite false mx ex) in
  res = S754_zero false \/
  exists m' e', res = S754_finite false m' e' /\
    (scaled 2148 (Zpos m') e' <= scaled 2148 (Zpos mh) eh)%Z.
Proof.
  intros Bq Bx Bh Hdq Hle res. subst res. cbn [SFmul xorb].
  apply bounded_in_format in Bq as ([_ Heq] & _ & _).
  apply bounded_in_format in Bx as ([_ Hex] & _ & _).
  apply bounded_in_format in Bh as (Fh & Heh & _).
  pose proof (digits_mul_ge mq mx) as Hd.
  destruct (round_aux_between 2148 (mq * mx) (eq + ex) 0 0 (Zpos mh) eh)
    as [[-> _] | (m' & e' & -> & _ & Hup)]; try assumption; try lia.
  - unfold fexp64. lia.
  - split; [change (2 ^ 53)%Z with 9007199254740992%Z |]; lia.
  - rewrite Pos2Z.inj_mul, scaled_mul by assumption.
    split; [| assumption]. unfold scaled. lia.
  - left. reflexivity.
  - right. eauto.
Qed.

(** Sum of two positive numbers of the format, rounded. *)
Lemma SFadd_between (mc mj ml mh : positive) (ec ej el eh : Z) :
  bounded prec emax mc ec = true -> bounded prec emax mj ej = true ->
  bounded prec emax ml el = true -> bounded prec emax mh eh = true ->
  (scaled 1074 (Zpos ml) el <= scaled 1074 (Zpos mc) ec + scaled 1074 (Zpos mj) ej
     <= scaled 1074 (Zpos mh) eh)%Z ->
  exists m' e',
    SFadd prec emax (S754_finite false mc ec) (S754_finite false mj ej)
      = S754_finite false m' e' /\
    (scaled 1074 (Zpos ml) el <= scaled 1074 (Zpos m') e' <= scaled 1074 (Zpos mh) eh)%Z.
Proof.
  intros Bc Bj Bl Bh Hbetween. cbn [SFadd cond_Zopp].
  apply bounded_in_format in Bc as ([_ Hec] & _ & _).
  apply bounded_in_format in Bj as ([_ Hej] & _ & _).
  apply bounded_in_format in Bl as (Fl & _ & _).
  apply bounded_in_format in Bh as (Fh & Heh & _).
  pose proof (shl_align_spec mc ec (Z.min ec ej)) as Ha.
  pose proof (shl_align_spec mj ej (Z.min ec ej)) as Hb.
  destruct (shl_align mc ec (Z.min ec ej)) as [a ea].
  destruct (shl_align mj ej (Z.min ec ej)) as [b eb]. cbn [fst].
  destruct Ha as (Hea & Hav & _). destruct Hb as (Heb & Hbv & _).
  assert (Hea' : ea = Z.min ec ej) by lia. assert (Heb' : eb = Z.min ec ej) by lia.
  clear Hea Heb. subst ea eb.
  remember (Z.min ec ej) as ez eqn:Ez.
  change (Zpos a + Zpos b)%Z with (Zpos (a + b)).
  cbn [binary_normalize]. unfold binary_round. rewrite fexp_64.
  pose proof (shl_align_spec (a + b) ez (fexp64 (Zpos (digits2_pos (a + b)) + ez))) as Hz.
  destruct (shl_align (a + b) ez _) as [mz ez2].
  destruct Hz as (Hez2 & Hzv & Hzd).
  assert (Hlow : (-1074 <= ez2)%Z) by (unfold fexp64 in Hez2; lia).
  assert (Hval : scaled 1074 (Zpos mz) ez2
                 = (scaled 1074 (Zpos mc) ec + scaled 1074 (Zpos mj) ej)%Z).
  { unfold scaled. rewrite Hzv, Pos2Z.inj_add, Hav, Hbv.
    assert (E1 : (2 ^ (ec + 1074) = 2 ^ (ec - ez) * (2 ^ (ez - ez2) * 2 ^ (ez2 + 1074)))%Z)
      by (rewrite <- !pow2_split by lia; f_equal; lia).
    assert (E2 : (2 ^ (ej + 1074) = 2 ^ (ej - ez) * (2 ^ (ez - ez2) * 2 ^ (ez2 + 1074)))%Z)
      by (rewrite <- !pow2_split by lia; f_equal; lia).
    rewrite E1, E2. ring. }
  destruct (round_aux_between 1074 mz ez2 (Zpos ml) el (Zpos mh) eh)
    as [[_ Habs] | (m' & e' & -> & Hres)]; try assumption; try lia.
  - rewrite Hzd. lia.
  - eauto.
Qed.


(** ** Bounds on a primitive product and a primitive sum *)

Lemma scaled_pos (sc : Z) (m : positive) (e : Z) :
  (- sc <= e -> 0 < scaled sc (Zpos m) e)%Z.
Proof. intros. unfold scaled. pose proof (pow2_pos (e + sc) ltac:(lia)). lia. Qed.

(** [0 <= x <= xmax] gives [0 <= q * x <= hi] once [q * xmax <= hi]. *)
Lemma mul_between (q x xmax hi : float) :
  mul_check q xmax hi = true ->
  (0 <=? x) = true -> (x <=? xmax) = true ->
  (0 <=? q * x) = true /\ (q * x <=? hi) = true.
Proof.
  unfold mul_check. intros Hck H0 Hle.
  destruct (Prim2SF q) as [| | | [|] mq eq] eqn:Hq; try discriminate.
  destruct (Prim2SF xmax) as [| | | [|] mx ex] eqn:Hxm; try discriminate.
  destruct (Prim2SF hi) as [| | | [|] mh eh] eqn:Hh; try discriminate.
  apply andb_prop in Hck as [Hd Hck]. apply Z.eqb_eq in Hd. apply Z.leb_le in Hck.
  pose proof (Prim2SF_bounded _ _ _ _ Hq) as Bq.
  pose proof (Prim2SF_bounded _ _ _ _ Hxm) as Bxm.
  pose proof (Prim2SF_bounded _ _ _ _ Hh) as Bh.
  rewrite !leb_spec, mul_spec, Hq, Hh. change (Prim2SF 0) with (S754_zero false).
  destruct (between_view x xmax mx ex Hxm H0 Hle) as [[s Hx] | (m & e & Hx & Bx & Hv)].
  - rewrite Hx. destruct s; split; reflexivity.
  - assert (Hprod : (scaled 1074 (Zpos mq) eq * scaled 1074 (Zpos m) e
                     <= scaled 2148 (Zpos mh) eh)%Z).
    { eapply Z.le_trans; [| exact Hck].
      apply Z.mul_le_mono_nonneg_l; [| assumption].
      apply bounded_in_format in Bq as ([_ ?] & _ & _).
      pose proof (scaled_pos 1074 mq eq ltac:(lia)). lia. }
    pose proof (Prim2SF_valid (q * x)) as V.
    rewrite mul_spec, Hq, Hx in V. rewrite Hx.
    unfold SF64mul in *.
    destruct (SFmul_between mq m mh eq e eh Bq Bx Bh Hd Hprod)
      as [Hz | (m' & e' & Hr & Hup)]; [rewrite Hz | rewrite Hr in *].
    + split; reflexivity.
    + split; [reflexivity |].
      rewrite (SFleb_finite 2148) by (assumption || lia).
      apply Z.leb_le. exact Hup.
Qed.

(** [0 <= j <= jmax] gives [c <= c + j <= hi] once [c + jmax <= hi]. *)
Lemma add_between (c j jmax hi : float) :
  add_check c jmax hi = true ->
  (0 <=? j) = true -> (j <=? jmax) = true ->
  (c <=? c + j) = true /\ (c + j <=? hi) = true.
Proof.
  unfold add_check. intros Hck H0 Hle.
  destruct (Prim2SF c) as [| | | [|] mc ec] eqn:Hc; try discriminate.
  destruct (Prim2SF jmax) as [| | | [|] mj ej] eqn:Hjm; try discriminate.
  destruct (Prim2SF hi) as [| | | [|] mh eh] eqn:Hh; try discriminate.
  apply Z.leb_le in Hck.
  pose proof (Prim2SF_bounded _ _ _ _ Hc) as Bc.
  pose proof (Prim2SF_bounded _ _ _ _ Hjm) as Bjm.
  pose proof (Prim2SF_bounded _ _ _ _ Hh) as Bh.
  assert (Hjpos : (0 < scaled 1074 (Zpos mj) ej)%Z).
  { apply scaled_pos. apply bounded_in_format in Bjm as ([_ ?] & _ & _). lia. }
  pose proof (Prim2SF_valid (c + j)) as V.
  rewrite !leb_spec, add_spec, Hc, Hh. rewrite add_spec, Hc in V.
  unfold SF64add in *.
  destruct (between_view j jmax mj ej Hjm H0 Hle) as [[s Hj] | (m & e & Hj & Bj & Hv)];
    rewrite Hj in *.
  - cbn [SFadd]. rewrite !(SFleb_finite 1074) by (assumption || lia).
    split; apply Z.leb_le; lia.
  - assert (Hmpos : (0 < scaled 1074 (Zpos m) e)%Z).
    { apply scaled_pos. apply bounded_in_format in Bj as ([_ ?] & _ & _). lia. }
    destruct (SFadd_between mc m mc mh ec e ec eh Bc Bj Bc Bh ltac:(lia))
      as (m' & e' & Hr & Hlo & Hup).
    rewrite Hr in *.
    rewrite !(SFleb_finite 1074) by (assumption || lia).
    split; apply Z.leb_le; assumption.
Qed.

(** A non-negative float that is not above [c] is at most any [hi] above
    [c]. *)
Lemma not_above (c hi h : float) (mc mh : positive) (ec eh : Z) :
  Prim2SF c = S754_finite false mc ec -> Prim2SF hi = S754_finite false mh eh ->
  (c <=? hi) = true ->
  (0 <=? h) = true -> (c <? h) = false -> (h <=? hi) = true.
Proof.
  intros Hc Hhi. rewrite !leb_spec, ltb_spec, Hc, Hhi.
  change (Prim2SF 0) with (S754_zero false).
  pose proof (Prim2SF_bounded _ _ _ _ Hc) as Bc.
  pose proof (Prim2SF_bounded _ _ _ _ Hhi) as Bh.
  rewrite (SFleb_finite 1074) by (assumption || lia). intros Hle%Z.leb_le.
  destruct (Prim2SF h) as [[|] | [|] | | [|] m e] eqn:Hh; try (cbn; congruence).
  intros _. pose proof (Prim2SF_bounded _ _ _ _ Hh) as Bx.
  unfold SFltb. rewrite (SFleb_finite 1074), (SFcompare_finite 1074) by (assumption || lia).
  intros Hlt. apply Z.leb_le.
  destruct (Z.compare_spec (scaled 1074 (Zpos mc) ec) (scaled 1074 (Zpos m) e))%Z;
    [lia | discriminate | lia].
Qed.

(** Any float against a positive finite [c]: it is at most [c], or it is
    above [c], or it is not a number, and only one of the three. *)
Lemma against_finite (c h : float) (mc : positive) (ec : Z) :
  Prim2SF c = S754_finite false mc ec ->
  ((h <=? c) = true /\ (c <? h) = false /\ (h =? h) = true) \/
  ((h <=? c) = false /\ (c <? h) = true /\ (h =? h) = true /\ (c <=? h) = true) \/
  ((h <=? c) = false /\ (c <? h) = false /\ (h =? h) = false).
Proof.
  intros Hc. rewrite !leb_spec, ltb_spec, FloatAxioms.eqb_spec, Hc.
  pose proof (Prim2SF_bounded _ _ _ _ Hc) as Bc.
  destruct (Prim2SF h) as [[|] | [|] | | [|] m e] eqn:Hh;
    try (left; repeat split; cbn; rewrite ?Z.compare_refl, ?Pos.compare_cont_refl;
         reflexivity);
    try (right; left; repeat split; cbn; rewrite ?Z.compare_refl, ?Pos.compare_cont_refl;
         reflexivity);
    try (right; right; repeat split; reflexivity).
  pose proof (Prim2SF_bounded _ _ _ _ Hh) as Bx.
  unfold SFltb, SFeqb.
  rewrite !(SFleb_finite 1074), !(SFcompare_finite 1074) by (assumption || lia).
  rewrite Z.compare_refl.
  destruct (Z.compare_spec (scaled 1074 (Zpos mc) ec) (scaled 1074 (Zpos m) e)) as [E | L | G].
  - left. repeat split. apply Z.leb_le. lia.
  - right; left. repeat split; [apply Z.leb_gt | apply Z.leb_le]; lia.
  - left. repeat split. apply Z.leb_le. lia.
Qed.

(** A float that is a number is at most itself. *)
Lemma leb_self (h : float) : (h =? h) = true -> (h <=? h) = true.
Proof.
  rewrite leb_spec, FloatAxioms.eqb_spec. unfold SFleb, SFeqb.
  destruct (SFcompare _ _) as [[| |] |]; congruence.
Qed.

Lemma digits_of_pow2 (p : positive) (a : Z) :
  (0 <= a -> Zpos p = 2 ^ a -> Zpos (digits2_pos p) = a + 1)%Z.
Proof.
  intros Ha Hp. pose proof (digits2_pos_bounds p) as [Hlo Hhi]. rewrite Hp in *.
  apply Z.pow_le_mono_r_iff in Hlo; [| lia | lia].
  apply Z.pow_lt_mono_r_iff in Hhi; lia.
Qed.

(** Rounding a power of two from [2^1024] on gives infinity. *)
Lemma binary_normalize_pow2_overflow (a : Z) :
  (1024 <= a)%Z ->
  binary_normalize prec emax (2 ^ a) 0 false = S754_infinity false.
Proof.
  intros Ha.
  assert (Hpos : (0 < 2 ^ a)%Z) by (apply pow2_pos; lia).
  destruct (2 ^ a)%Z as [| p | p] eqn:Hp; try lia. symmetry in Hp.
  pose proof (digits_of_pow2 p a ltac:(lia) Hp) as Hd.
  cbn [binary_normalize]. unfold binary_round. rewrite fexp_64, Hd.
  assert (Hf : fexp64 (a + 1 + 0) = (a - 52)%Z) by (unfold fexp64; lia).
  rewrite Hf. unfold shl_align.
  destruct (a - 52 - 0)%Z as [| q | q] eqn:Hq; try lia.
  destruct (round_aux_cases p 0) as (m2 & Hm2 & ->).
  { rewrite Hd, Hf. lia. }
  rewrite Hd, Hf in *.
  assert (Hdiv : (Zpos p / 2 ^ (a - 52 - 0) = 2 ^ 52 /\ Zpos p mod 2 ^ (a - 52 - 0) = 0)%Z).
  { rewrite Hp. replace a with (52 + (a - 52 - 0))%Z at 1 3 by lia.
    rewrite pow2_split by lia.
    pose proof (pow2_pos (a - 52 - 0) ltac:(lia)).
    split; [apply Z.div_mul; lia | apply Z.mod_mul; lia]. }
  destruct Hdiv as [Hdv Hmd]. rewrite Hdv, Hmd in Hm2.
  assert (m2 = 2 ^ 52)%Z by (destruct Hm2 as [-> | [_ ?]]; [reflexivity | contradiction]).
  subst m2. unfold pack. change (2 ^ 52 =? 2 ^ 53)%Z with false. cbn iota.
  change (2 ^ 52)%Z with (Zpos (2 ^ 52)). cbn [finish].
  destruct (Z.leb_spec (a - 52) 971); [lia |]. reflexivity.
Qed.

End Binary64Facts.

(* ================================================================== *)
(** * The capped exponential term, attempt by attempt *)
(* ================================================================== *)

Module BackoffFacts.
Import PyFloat Http Binary64 Binary64Facts BackoffTable.

(** The tables, by evaluation. *)
Lemma caps_side : forallb cap_side_ok CAPS = true.
Proof. vm_compute. reflexivity. Qed.

Lemma cap_table :
  forallb (fun a => cap_row_ok a false && cap_row_ok a true && rate_row_ok a)
          (seq 0 1024) = true.
Proof. vm_compute. reflexivity. Qed.

Lemma small_ints_table : small_ints_ordered = true.
Proof. vm_compute. reflexivity. Qed.

Lemma cap_table_at (a : nat) :
  (a <= 1023)%nat ->
  cap_row_ok a false = true /\ cap_row_ok a true = true /\ rate_row_ok a = true.
Proof.
  intros Ha. pose proof cap_table as T. rewrite forallb_forall in T.
  specialize (T a). rewrite in_seq in T. specialize (T ltac:(lia)).
  apply andb_prop in T as [T1 T3]. apply andb_prop in T1 as [T1 T2]. auto.
Qed.

(** Bitwise equality of floats is equality. *)
Lemma float_eqb_eq (x y : float) : PrimFloat.Leibniz.eqb x y = true -> x = y.
Proof. apply FloatAxioms.Leibniz.eqb_spec. Qed.

(** The facts packed in [cap_side_ok]. *)
Lemma cap_side_facts (c : float) :
  cap_side_ok c = true ->
  (c + c * 0.25 * 0 = c)%float /\
  (c + c * 0.25 * 1 = c * 1.25)%float /\
  mul_check (c * 0.25)%float 1%float (c * 0.25)%float = true /\
  add_check c (c * 0.25)%float (c * 1.25)%float = true /\
  add_check c (c * 0.25)%float 75%float = true /\
  (0 <=? c)%float = true.
Proof.
  unfold cap_side_ok. rewrite !andb_true_iff.
  intros [[[[[E0 E1] M] A1] A2] P].
  apply float_eqb_eq in E0, E1. auto 6.
Qed.

(** Up to attempt 1023 the capped term is the float of [capped_int], and
    one of [CAPS]. *)
Lemma capped_backoff_value (a : nat) (rl : bool) :
  (a <= 1023)%nat ->
  exists c, capped_backoff a rl = Ok c /\
            float_of_int (capped_int a rl) = Some c /\
            cap_side_ok c = true.
Proof.
  intros Ha. destruct (cap_table_at a Ha) as (T1 & T2 & _).
  assert (T : cap_row_ok a rl = true) by (destruct rl; assumption).
  unfold cap_row_ok in T.
  destruct (capped_backoff a rl) as [c | e]; [| discriminate].
  destruct (float_of_int (capped_int a rl)) as [d |]; [| discriminate].
  apply andb_prop in T as [E In]. apply float_eqb_eq in E. subst d.
  exists c. repeat split.
  apply existsb_exists in In as (c' & Hin & E). apply float_eqb_eq in E. subst c'.
  pose proof caps_side as S. rewrite forallb_forall in S. apply S, Hin.
Qed.

(** The integer formula: within 0..60 and non-decreasing in the attempt. *)
Lemma capped_int_range (a : nat) (rl : bool) : 0 <= capped_int a rl <= 60.
Proof.
  unfold capped_int, base_int.
  assert (0 < 2 ^ Z.of_nat a) by (apply Z.pow_pos_nonneg; lia).
  destruct rl; lia.
Qed.

Lemma capped_int_mono (a b : nat) (rl : bool) :
  (a <= b)%nat -> capped_int a rl <= capped_int b rl.
Proof.
  intros Hab. unfold capped_int, base_int.
  assert (2 ^ Z.of_nat a <= 2 ^ Z.of_nat b) by (apply Z.pow_le_mono_r; lia).
  destruct rl; lia.
Qed.

Lemma small_floats_ordered (n m : Z) (x y : float) :
  0 <= n <= m -> m <= 60 ->
  float_of_int n = Some x -> float_of_int m = Some y -> (x <=? y)%float = true.
Proof.
  intros Hn Hm Hx Hy. pose proof small_ints_table as T. unfold small_ints_ordered in T.
  rewrite forallb_forall in T. specialize (T (Z.to_nat n)).
  rewrite in_seq, forallb_forall in T. specialize (T ltac:(lia) (Z.to_nat m)).
  rewrite in_seq in T. specialize (T ltac:(lia)).
  rewrite !Z2Nat.id, Hx, Hy in T by lia.
  destruct (Nat.leb_spec (Z.to_nat n) (Z.to_nat m)); [assumption | lia].
Qed.

(** Above a non-negative float there are only non-negative floats. *)
Lemma leb_from_zero (c d : float) :
  (0 <=? c)%float = true -> (c <=? d)%float = true -> (0 <=? d)%float = true.
Proof.
  rewrite !leb_spec. change (Prim2SF 0) with (S754_zero false).
  destruct (Prim2SF c) as [| [|] | | [|] ? ?], (Prim2SF d) as [| [|] | | [|] ? ?];
    cbn; congruence.
Qed.

(** The jitter lines on a capped value [c] and a draw [r] in [0, 1]. *)
Lemma jitter_between (c r : float) :
  cap_side_ok c = true ->
  (0 <=? r)%float = true -> (r <=? 1)%float = true ->
  let d := (c + c * 0.25 * r)%float in
  (c <=? d)%float = true /\ (d <=? c * 1.25)%float = true /\
  (d <=? 75)%float = true /\ (0 <=? d)%float = true.
Proof.
  intros Sc H0 H1 d. apply cap_side_facts in Sc as (_ & _ & M & A1 & A2 & P).
  destruct (mul_between (c * 0.25) r 1 (c * 0.25) M H0 H1) as [J0 J1].
  destruct (add_between c (c * 0.25 * r) (c * 0.25) (c * 1.25) A1 J0 J1) as [D0 D1].
  destruct (add_between c (c * 0.25 * r) (c * 0.25) 75 A2 J0 J1) as [_ D2].
  repeat split; try assumption. exact (leb_from_zero c d P D0).
Qed.

Lemma small_ints_exact : forallb small_int_exact (seq 1 60) = true.
Proof. vm_compute. reflexivity. Qed.

(** The float of an integer [n] from 1 to 60 has the value [n]: the
    capped term is [min(base * 2^a, 60)] with no rounding error. *)
Lemma float_of_small_int_exact (n : Z) :
  1 <= n <= 60 ->
  exists d m e,
    float_of_int n = Some d /\ Prim2SF d = S754_finite false m e /\
    scaled 1074 (Zpos m) e = scaled 1074 n 0.
Proof.
  intros Hn. pose proof small_ints_exact as T. rewrite forallb_forall in T.
  specialize (T (Z.to_nat n)). rewrite in_seq in T. specialize (T ltac:(lia)).
  unfold small_int_exact in T. rewrite Z2Nat.id in T by lia.
  destruct (float_of_int n) as [d |] eqn:Hd; [| discriminate].
  destruct (Prim2SF d) as [| | | [|] m e] eqn:Hp; try discriminate.
  apply Z.eqb_eq in T. exists d, m, e. auto.
Qed.

(** From [2 ** 1024] on, a power of two does not convert to a float. *)
Lemma float_of_int_pow2_overflow (a : Z) : 1024 <= a -> float_of_int (2 ^ a) = None.
Proof.
  intros Ha. unfold float_of_int.
  rewrite (binary_normalize_pow2_overflow a Ha). reflexivity.
Qed.

(** So from attempt 1024 on there is no capped term, only the exception. *)
Lemma capped_backoff_overflows (a : nat) (rl : bool) :
  (1024 <= a)%nat -> capped_backoff a rl = Raise ExOverflowError.
Proof.
  intros Ha. unfold capped_backoff.
  rewrite float_of_int_pow2_overflow by lia. reflexivity.
Qed.

(** A hinted delay that [time.sleep] accepts is at most 60 seconds. *)
Lemma hinted_delay_at_most_60 (h : float) :
  (0 <=? py_min h RETRY_MAX_DELAY)%float = true ->
  (py_min h RETRY_MAX_DELAY <=? 60)%float = true.
Proof.
  unfold py_min, RETRY_MAX_DELAY. destruct (60 <? h)%float eqn:E; [reflexivity |].
  intros H0. eapply (not_above 60 60 h); try reflexivity; assumption.
Qed.

End BackoffFacts.

(* ================================================================== *)
(** * [_get_retry_delay] *)
(* ================================================================== *)

Module DelayFacts.
Import PyFloat Http Binary64 BackoffTable BackoffFacts Fixtures.

Section Delay.
Variable random : nat -> float.

Lemma retry_delay_no_hint (a : nat) (rl : bool) (c : float) (w : World) :
  capped_backoff a rl = Ok c ->
  _get_retry_delay random a rl None w
  = (drawn w, Ok (c + c * 0.25 * random (rand_calls w))%float).
Proof. intros H. unfold _get_retry_delay. rewrite H. reflexivity. Qed.

Lemma retry_delay_raises (a : nat) (rl : bool) (e : exn) (w : World) :
  capped_backoff a rl = Raise e ->
  _get_retry_delay random a rl None w = (w, Raise e).
Proof. intros H. unfold _get_retry_delay. rewrite H. reflexivity. Qed.

(** Without a hint, up to attempt 1023 and for a draw in [0, 1]: the
    call returns, and its delay is within the jitter band. *)
Lemma retry_delay_jittered (a : nat) (rl : bool) (w : World) :
  (a <= 1023)%nat ->
  (0 <=? random (rand_calls w))%float = true ->
  (random (rand_calls w) <=? 1)%float = true ->
  exists c : float,
    let d := (c + c * 0.25 * random (rand_calls w))%float in
    float_of_int (capped_int a rl) = Some c /\
    cap_side_ok c = true /\
    _get_retry_delay random a rl None w = (drawn w, Ok d) /\
    (c <=? d)%float = true /\ (d <=? c * 1.25)%float = true /\
    (d <=? 75)%float = true /\ (0 <=? d)%float = true.
Proof.
  intros Ha H0 H1.
  destruct (capped_backoff_value a rl Ha) as (c & Hc & Fc & Sc).
  exists c. cbn zeta. rewrite (retry_delay_no_hint _ _ _ _ Hc).
  destruct (jitter_between c _ Sc H0 H1) as (D0 & D1 & D2 & D3).
  repeat split; assumption.
Qed.

(** From attempt 1024 on, without a hint, the call raises before any
    draw. *)
Lemma retry_delay_overflows (a : nat) (rl : bool) (w : World) :
  (1024 <= a)%nat ->
  _get_retry_delay random a rl None w = (w, Raise ExOverflowError).
Proof. intros Ha. apply retry_delay_raises, capped_backoff_overflows, Ha. Qed.

(** Up to attempt 1023 and for a draw in [0, 1], a delay that [time.sleep]
    accepts is at most 75 seconds. *)
Lemma accepted_delay_at_most_75 (a : nat) (rl : bool) (ra : option float) (w : World) :
  (a <= 1023)%nat ->
  (0 <=? random (rand_calls w))%float = true ->
  (random (rand_calls w) <=? 1)%float = true ->
  exists d w',
    _get_retry_delay random a rl ra w = (w', Ok d) /\
    ((0 <=? d)%float = true -> (d <=? 75)%float = true).
Proof.
  intros Ha H0 H1. destruct ra as [h |].
  - exists (py_min h RETRY_MAX_DELAY), w. split; [reflexivity |].
    unfold py_min, RETRY_MAX_DELAY. destruct (60 <? h)%float eqn:E; [reflexivity |].
    intros Hh. eapply (Binary64Facts.not_above 60 75 h); try reflexivity; assumption.
  - destruct (retry_delay_jittered a rl w Ha H0 H1) as (c & _ & _ & Hd & _ & _ & D & _).
    eauto.
Qed.

(** C2. With a server hint [h] the call returns a delay [d] that is the
    smaller of [h] and the ceiling of 60 seconds: [h] itself when
    [h <= 60.0], and 60.0 when [h] is above it, so that [d] is above
    neither; a hint that is not a number, which compares with nothing,
    comes back as it is, as Python's [min] has it. The same [d] is
    returned at every attempt index, with either rate-limit flag and
    with any random source, and [random.random()] is not called: the
    world is left as it was. *)
Theorem hinted_delay_is_capped_hint
    (attempt : nat) (is_rate_limit : bool) (h : float) (w : World) :
  exists d : float,
    _get_retry_delay random attempt is_rate_limit (Some h) w = (w, Ok d) /\
    ((h <=? 60)%float = true -> d = h) /\
    ((60 <? h)%float = true -> d = 60%float) /\
    ((h =? h)%float = true -> (d <=? 60)%float = true /\ (d <=? h)%float = true) /\
    ((h =? h)%float = false -> d = h) /\
    ((h <=? 60)%float = true \/ (60 <? h)%float = true \/ (h =? h)%float = false) /\
    (forall (random' : nat -> float) (attempt' : nat) (is_rate_limit' : bool)
            (w' : World),
       Http._get_retry_delay random' attempt' is_rate_limit' (Some h) w' = (w', Ok d)).
Proof.
  exists (py_min h RETRY_MAX_DELAY). split; [reflexivity |].
  assert (L : forall random' attempt' is_rate_limit' w',
            Http._get_retry_delay random' attempt' is_rate_limit' (Some h) w'
            = (w', Ok (py_min h RETRY_MAX_DELAY))) by reflexivity.
  revert L. unfold py_min, RETRY_MAX_DELAY.
  destruct (Binary64Facts.against_finite 60 h _ _ ltac:(reflexivity))
    as [(A & B & C) | [(A & B & C & D) | (A & B & C)]]; rewrite B; intros L.
  - pose proof (Binary64Facts.leb_self h C). intuition congruence.
  - assert ((60 <=? 60)%float = true) by reflexivity. intuition congruence.
  - intuition congruence.
Qed.

(** Hints of 30, 120 and 60 seconds at attempt 7: delays of 30, 60 and
    60 seconds, and no draw. *)
Example hinted_delays :
  _get_retry_delay (fun _ => 0.5%float) 7 true (Some 30%float) fresh = (fresh, Ok 30%float) /\
  _get_retry_delay (fun _ => 0.5%float) 7 true (Some 120%float) fresh = (fresh, Ok 60%float) /\
  _get_retry_delay (fun _ => 0.5%float) 7 false (Some 60%float) fresh = (fresh, Ok 60%float).
Proof. repeat split. Qed.

(** Up to attempt 1023 the un-jittered delay is what its formula says:
    for attempt indices [a <= b <= 1023], no hint and a jitter draw of 0
    the delay is exactly the float of [min(base * 2^a, 60)], with base
    2, or 5 when rate-limited, and it does not decrease from [a] to
    [b]. *)
Theorem unjittered_delay_formula
    (is_rate_limit : bool) (a b : nat) (w : World) :
  (a <= b)%nat -> (b <= 1023)%nat ->
  random (rand_calls w) = 0%float ->
  exists da db : float,
    _get_retry_delay random a is_rate_limit None w = (drawn w, Ok da) /\
    _get_retry_delay random b is_rate_limit None w = (drawn w, Ok db) /\
    float_of_int (capped_int a is_rate_limit) = Some da /\
    float_of_int (capped_int b is_rate_limit) = Some db /\
    (da <=? db)%float = true.
Proof.
  intros Hab Hb Hr.
  destruct (capped_backoff_value a is_rate_limit ltac:(lia)) as (ca & Ha & Fa & Sa).
  destruct (capped_backoff_value b is_rate_limit Hb) as (cb & Hb' & Fb & Sb).
  exists ca, cb.
  rewrite (retry_delay_no_hint _ _ _ _ Ha), (retry_delay_no_hint _ _ _ _ Hb'), Hr.
  apply cap_side_facts in Sa as (-> & _). apply cap_side_facts in Sb as (-> & _).
  repeat split; try assumption.
  pose proof (capped_int_range a is_rate_limit).
  pose proof (capped_int_range b is_rate_limit).
  pose proof (capped_int_mono a b is_rate_limit Hab).
  eapply small_floats_ordered; [| | exact Fa | exact Fb]; lia.
Qed.

(** Up to attempt 1023 the jitter stays in its band: for an attempt
    index [a <= 1023], no hint and a jitter draw [r] in [0, 1], with [c]
    the float of [min(base * 2^a, 60)], the delay lies in
    [c, c * 1.25]; it is [c * 1.25] when [r = 1.0] and [c] when
    [r = 0]. *)
Theorem jittered_delay_bounds
    (is_rate_limit : bool) (a : nat) (w : World) :
  (a <= 1023)%nat ->
  (0 <=? random (rand_calls w))%float = true ->
  (random (rand_calls w) <=? 1)%float = true ->
  exists c d : float,
    float_of_int (capped_int a is_rate_limit) = Some c /\
    _get_retry_delay random a is_rate_limit None w = (drawn w, Ok d) /\
    (c <=? d)%float = true /\ (d <=? c * 1.25)%float = true /\
    (random (rand_calls w) = 1%float -> d = (c * 1.25)%float) /\
    (random (rand_calls w) = 0%float -> d = c).
Proof.
  intros Ha H0 H1.
  destruct (retry_delay_jittered a is_rate_limit w Ha H0 H1)
    as (c & Fc & Sc & Hd & D0 & D1 & _).
  apply cap_side_facts in Sc as (E0 & E1 & _).
  exists c, (c + c * 0.25 * random (rand_calls w))%float.
  split; [exact Fc |]. split; [exact Hd |]. split; [exact D0 |]. split; [exact D1 |].
  split; intros ->; assumption.
Qed.

(** C7, at the failing input: a Retry-After of -5 gives a delay of -5
    seconds, which is negative. *)
Theorem negative_hint_negative_delay (w : World) :
  _get_retry_delay random 0 true (Some (-5)%float) w = (w, Ok (-5)%float) /\
  (-5 <? 0)%float = true /\ (0 <=? -5)%float = false.
Proof. repeat split. Qed.

(** C8, amended. For an attempt index [a <= 1023], no hint and a jitter
    draw of 0: the rate-limited delay is at least the normal one; it is
    strictly greater for [a <= 4], and from [a = 5] on both are the
    60-second ceiling. *)
Theorem rate_limit_delay_vs_normal (a : nat) (w : World) :
  (a <= 1023)%nat ->
  random (rand_calls w) = 0%float ->
  exists dn dr : float,
    _get_retry_delay random a false None w = (drawn w, Ok dn) /\
    _get_retry_delay random a true None w = (drawn w, Ok dr) /\
    (dn <=? dr)%float = true /\
    ((a <= 4)%nat -> (dn <? dr)%float = true) /\
    ((5 <= a)%nat -> dn = 60%float /\ dr = 60%float).
Proof.
  intros Ha Hr.
  destruct (capped_backoff_value a false Ha) as (cn & Hn & _ & Sn).
  destruct (capped_backoff_value a true Ha) as (cr & Hcr & _ & Sr).
  destruct (cap_table_at a Ha) as (_ & _ & T). unfold rate_row_ok in T.
  rewrite Hn, Hcr in T. apply andb_prop in T as [Hle T].
  exists cn, cr.
  rewrite (retry_delay_no_hint _ _ _ _ Hn), (retry_delay_no_hint _ _ _ _ Hcr), Hr.
  apply cap_side_facts in Sn as (-> & _). apply cap_side_facts in Sr as (-> & _).
  split; [reflexivity |]. split; [reflexivity |]. split; [exact Hle |].
  destruct (Nat.leb_spec a 4) as [H4 | H4].
  - split; [intros _; exact T | intros H5; lia].
  - apply andb_prop in T as [En Er]. apply float_eqb_eq in En, Er.
    split; [intros H5; lia | intros _; auto].
Qed.

End Delay.

(** The un-jittered delay at attempts 1 and 3, normal errors: 4 and 16
    seconds. *)
Lemma unjittered_delay_formula_witness :
  (1 <= 3)%nat /\ (3 <= 1023)%nat /\
  exists da db : float,
    _get_retry_delay (fun _ => 0%float) 1 false None fresh = (drawn fresh, Ok da) /\
    _get_retry_delay (fun _ => 0%float) 3 false None fresh = (drawn fresh, Ok db) /\
    float_of_int (capped_int 1 false) = Some da /\
    float_of_int (capped_int 3 false) = Some db /\
    (da <=? db)%float = true.
Proof.
  split; [lia |]. split; [lia |].
  apply (unjittered_delay_formula (fun _ => 0%float) false 1 3 fresh);
    [lia | lia | reflexivity].
Defined.

(** C3, at the failing input: at attempt 1024, without a hint, the
    un-jittered delay of the claim is [min(2.0 * 2^1024, 60.0)], the
    ceiling of 60 seconds; the code returns no delay at all, since
    [2 ** 1024] does not convert to a float and [base * (2 ** attempt)]
    raises [OverflowError] before the cap is applied. At attempt 1023
    the ceiling is still returned. *)
Lemma unjittered_delay_overflows_at_1024 :
  capped_int 1024 false = 60 /\
  float_of_int (2 ^ 1024) = None /\
  _get_retry_delay (fun _ => 0%float) 1024 false None fresh
  = (fresh, Raise ExOverflowError) /\
  _get_retry_delay (fun _ => 0%float) 1023 false None fresh
  = (drawn fresh, Ok 60%float).
Proof. repeat split; vm_compute; reflexivity. Qed.

(** The jittered delay at attempt 2, rate-limited, with a draw of 0.5:
    between 20 and 25 seconds. *)
Lemma jittered_delay_bounds_witness :
  (2 <= 1023)%nat /\ (0 <=? 0.5)%float = true /\ (0.5 <=? 1)%float = true /\
  exists c d : float,
    float_of_int (capped_int 2 true) = Some c /\
    _get_retry_delay (fun _ => 0.5%float) 2 true None fresh = (drawn fresh, Ok d) /\
    (c <=? d)%float = true /\ (d <=? c * 1.25)%float = true /\
    (0.5%float = 1%float -> d = (c * 1.25)%float) /\
    (0.5%float = 0%float -> d = c).
Proof.
  split; [lia |]. split; [reflexivity |]. split; [reflexivity |].
  apply (jittered_delay_bounds (fun _ => 0.5%float) true 2 fresh);
    [lia | reflexivity | reflexivity].
Defined.

(** C5, at the failing input: at attempt 1024, rate-limited, without a
    hint and with a draw of 0.5, the capped base of the claim is
    [min(5.0 * 2^1024, 60.0)], 60 seconds, and its band is [60, 75]; the
    code raises [OverflowError] before the draw and returns no delay.
    At attempt 1023 the same draw gives 67.5 seconds. *)
Lemma jittered_delay_overflows_at_1024 :
  capped_int 1024 true = 60 /\
  _get_retry_delay (fun _ => 0.5%float) 1024 true None fresh
  = (fresh, Raise ExOverflowError) /\
  _get_retry_delay (fun _ => 0.5%float) 1023 true None fresh
  = (drawn fresh, Ok 67.5%float).
Proof. repeat split; vm_compute; reflexivity. Qed.

(** Rounding also gives the upper bound to draws just below 1.0: at
    attempt 0 the largest float below 1 yields 2.5 seconds. *)
Example upper_bound_below_one :
  (next_down 1 <? 1)%float = true /\
  _get_retry_delay (fun _ => next_down 1) 0 false None fresh
  = (drawn fresh, Ok 2.5%float).
Proof. split; vm_compute; reflexivity. Qed.

(** The two un-jittered delays at attempt 3: 16 seconds against 40. *)
Lemma rate_limit_delay_vs_normal_witness :
  (3 <= 1023)%nat /\
  exists dn dr : float,
    _get_retry_delay (fun _ => 0%float) 3 false None fresh = (drawn fresh, Ok dn) /\
    _get_retry_delay (fun _ => 0%float) 3 true None fresh = (drawn fresh, Ok dr) /\
    (dn <=? dr)%float = true /\
    ((3 <= 4)%nat -> (dn <? dr)%float = true) /\
    ((5 <= 3)%nat -> dn = 60%float /\ dr = 60%float).
Proof.
  split; [lia |].
  apply (rate_limit_delay_vs_normal (fun _ => 0%float) 3 fresh); [lia | reflexivity].
Defined.

(** C8 as stated fails at attempt 5: both delays are 60 seconds, the
    rate-limited one is not the greater. *)
Lemma rate_limit_delay_equal_at_5 :
  _get_retry_delay (fun _ => 0%float) 5 false None fresh = (drawn fresh, Ok 60%float) /\
  _get_retry_delay (fun _ => 0%float) 5 true None fresh = (drawn fresh, Ok 60%float) /\
  (60 <? 60)%float = false.
Proof. repeat split. Qed.

End DelayFacts.

(* ================================================================== *)
(** * [request] *)
(* ================================================================== *)

Module RequestFacts.
Import PyStr PyFloat Http Binary64 BackoffTable BackoffFacts DelayFacts.

Section Request.
Variable JSON : Type.
Variable empty_object : JSON.
Variable json_loads : string -> JSON + string.
Variable json_dumps : JSON -> Result string.
Variable Request_raises : Request -> option exn.
Variable py_float : string -> option float.
Variable urlopen : Request -> Z -> nat -> Attempt.
Variable random : nat -> float.

Abbreviation retry_loop :=
  (Http.retry_loop JSON empty_object json_loads py_float urlopen random).
Abbreviation request :=
  (Http.request JSON empty_object json_loads json_dumps Request_raises py_float
     urlopen random).
Abbreviation error_of := (Http.error_of JSON empty_object json_loads py_float).
Abbreviation permanent_failure :=
  (Http.permanent_failure JSON empty_object json_loads py_float).
Abbreviation retryable := (Http.retryable py_float).
Abbreviation prepare := (Http.prepare JSON json_dumps Request_raises).
Abbreviation alternating := Http.alternating.
Abbreviation calls_with_sleeps := Http.calls_with_sleeps.
Abbreviation pending_error :=
  (Http.pending_error JSON empty_object json_loads py_float urlopen).

Lemma is_client_error_spec (code : Z) :
  is_client_error code = true <-> 400 <= code < 500 /\ code <> 429.
Proof.
  unfold is_client_error.
  rewrite !andb_true_iff, negb_true_iff, Z.leb_le, Z.ltb_lt, Z.eqb_neq. tauto.
Qed.

(** One turn of the loop on an attempt that fails for good. *)
Lemma permanent_failure_step
    (req : Request) (timeout retries : Z) (attempt : nat) (rest : list nat)
    (last_error : option HTTPError) (e : HTTPError) (w : World) :
  permanent_failure (urlopen req timeout (net_calls w)) e ->
  retry_loop req timeout retries (attempt :: rest) last_error w
  = (opened req timeout w, Raise (ExHTTPError e)).
Proof.
  intros H. cbn [Http.retry_loop]. unfold bind, urlopen_call.
  destruct H as [code reason eb raw Hrange Hne | st text e He].
  - assert (E : is_client_error code = true) by (apply is_client_error_spec; auto).
    rewrite E. reflexivity.
  - rewrite He. reflexivity.
Qed.


(** What [request] does once the lines before the loop have returned
    the request object. *)
Lemma request_prepared
    (method url : string) (headers : option (gmap string string))
    (json_data : option JSON) (timeout retries : Z) (req : Request) :
  prepare method url headers json_data = Ok req ->
  request method url headers json_data timeout retries
  = retry_loop req timeout retries (range retries) None.
Proof. intros H. unfold Http.request. rewrite H. reflexivity. Qed.

(** And when they have raised. *)
Lemma request_not_prepared
    (method url : string) (headers : option (gmap string string))
    (json_data : option JSON) (timeout retries : Z) (e : exn) (w : World) :
  prepare method url headers json_data = Raise e ->
  request method url headers json_data timeout retries w = (w, Raise e).
Proof. intros H. unfold Http.request. rewrite H. reflexivity. Qed.

(** C10, amended. With [retries <= 0] no call of [request] makes an
    attempt or returns a value: the world is as it was and an exception
    leaves the call. When the lines before the loop have returned the
    request object (the body is serialised, the constructor accepts its
    arguments), the loop of lines 107-161 is not entered and the
    exception is the [HTTPError] without details, all three optional
    fields [None]; when [json.dumps] or the constructor has raised, it
    is their exception. *)
Theorem no_budget_no_attempt
    (method url : string) (headers : option (gmap string string))
    (json_data : option JSON) (timeout retries : Z) (w : World) :
  retries <= 0 ->
  let run := request method url headers json_data timeout retries w in
  fst run = w /\
  (exists e, snd run = Raise e) /\
  match prepare method url headers json_data with
  | Ok _ =>
      snd run = Raise (ExHTTPError
                  (mkHTTPError "Request failed with no error details" None None None))
  | Raise e => snd run = Raise e
  end.
Proof.
  intros H run. subst run. unfold Http.request, range.
  replace (Z.to_nat retries) with 0%nat by lia.
  destruct (prepare method url headers json_data) as [req | e].
  - cbn. split; [reflexivity |]. split; [eauto |]. reflexivity.
  - cbn. split; [reflexivity |]. split; [eauto |]. reflexivity.
Qed.

(** ** Exhausting the budget *)

Hypothesis random_range :
  forall n, (0 <=? random n)%float = true /\ (random n <=? 1)%float = true.

Lemma hinted_delay_nonneg (h : float) :
  (0 <=? h)%float = true -> (0 <=? py_min h RETRY_MAX_DELAY)%float = true.
Proof. intros H. unfold py_min. destruct (_ <? _)%float; [reflexivity | exact H]. Qed.

(** Before the last attempt the loop sleeps once and touches nothing
    else of the trace. *)
Lemma backoff_sleeps (attempt : nat) (retries : Z) (rl : bool)
    (retry_after : option float) (w : World) :
  Z.of_nat attempt < retries - 1 -> (attempt <= 1023)%nat ->
  hint_ok retry_after ->
  exists d w',
    backoff random attempt retries rl retry_after w = (w', Ok tt) /\
    net_calls w' = net_calls w /\ trace w' = trace w ++ [EvSleep d].
Proof.
  intros Hlt Ha Hh. unfold backoff.
  destruct (Z.ltb_spec (Z.of_nat attempt) (retries - 1)) as [_ | ?]; [| lia].
  destruct retry_after as [h |].
  - exists (py_min h RETRY_MAX_DELAY). unfold bind. cbn [_get_retry_delay ret].
    unfold time_sleep. rewrite (hinted_delay_nonneg h Hh). eauto.
  - destruct (retry_delay_jittered random attempt rl w Ha)
      as (c & _ & _ & Hd & _ & _ & _ & H0d); try apply random_range.
    eexists. unfold bind. rewrite Hd. unfold time_sleep. rewrite H0d.
    eexists. split; [reflexivity |]. split; reflexivity.
Qed.

Lemma backoff_last (attempt : nat) (retries : Z) (rl : bool)
    (retry_after : option float) (w : World) :
  Z.of_nat attempt = retries - 1 ->
  backoff random attempt retries rl retry_after w = (w, Ok tt).
Proof.
  intros E. unfold backoff.
  destruct (Z.ltb_spec (Z.of_nat attempt) (retries - 1)); [lia | reflexivity].
Qed.

(** The handlers of a retried attempt all do the same: back off, then go
    on with the error just built. *)
Lemma retry_loop_retryable (req : Request) (timeout retries : Z)
    (attempt : nat) (rest : list nat) (last_error : option HTTPError) (w : World) :
  retryable (urlopen req timeout (net_calls w)) ->
  exists rl ra,
    hint_ok ra /\
    retry_loop req timeout retries (attempt :: rest) last_error w
    = bind (backoff random attempt retries rl ra)
        (fun _ => retry_loop req timeout retries rest
                    (Some (error_of (urlopen req timeout (net_calls w)))))
        (opened req timeout w).
Proof.
  intros H. cbn [Http.retry_loop]. unfold bind at 1, urlopen_call.
  destruct (urlopen req timeout (net_calls w)) as [| code reason eb raw | | |];
    cbn in H; try contradiction.
  - destruct H as [Hcode Hh].
    assert (E : is_client_error code = false).
    { destruct (is_client_error code) eqn:E; [| reflexivity].
      apply is_client_error_spec in E. lia. }
    rewrite E. exists (code =? 429), (parse_retry_after py_float raw).
    split; [exact Hh | reflexivity].
  - exists false, None. split; [exact I | reflexivity].
  - exists false, None. split; [exact I | reflexivity].
Qed.

(** [n] retried attempts, none of them the last of the budget: [n] calls,
    each followed by a sleep, and the loop goes on with the error of the
    last of them. *)
Lemma retry_loop_prefix (req : Request) (timeout retries : Z) (n : nat) :
  forall (k : nat) (rest : list nat) (last_error : option HTTPError) (w : World),
    Z.of_nat (k + n) <= retries - 1 -> (k + n <= 1024)%nat ->
    (forall i, (i < n)%nat -> retryable (urlopen req timeout (net_calls w + i))) ->
    exists w' delays,
      retry_loop req timeout retries (seq k n ++ rest) last_error w
      = retry_loop req timeout retries rest
          (pending_error req timeout w last_error n) w' /\
      net_calls w' = (net_calls w + n)%nat /\
      trace w' = trace w ++ calls_with_sleeps req timeout delays /\
      length delays = n.
Proof.
  induction n as [| n IH]; intros k rest last_error w Hk Hmax Hall.
  - exists w, []. cbn [seq app pending_error calls_with_sleeps length].
    rewrite Nat.add_0_r, app_nil_r. auto.
  - change (seq k (S n) ++ rest) with (k :: (seq (S k) n ++ rest)).
    destruct (retry_loop_retryable req timeout retries k (seq (S k) n ++ rest) last_error w)
      as (rl & ra & Hh & ->).
    { specialize (Hall 0%nat ltac:(lia)). rewrite Nat.add_0_r in Hall. exact Hall. }
    destruct (backoff_sleeps k retries rl ra (opened req timeout w))
      as (d & w1 & Hb & Hn1 & Ht1); [lia | lia | exact Hh |].
    unfold bind at 1. rewrite Hb.
    destruct (IH (S k) rest (Some (error_of (urlopen req timeout (net_calls w)))) w1)
      as (w' & delays & Hrun & Hn' & Ht' & Hlen); [lia | lia | |].
    { intros i Hi. rewrite Hn1. cbn [opened net_calls].
      replace (S (net_calls w) + i)%nat with (net_calls w + S i)%nat by lia.
      apply Hall. lia. }
    exists w', (d :: delays). rewrite Hrun, Hn', Ht', Hn1, Ht1.
    cbn [opened net_calls trace calls_with_sleeps length].
    split; [| split; [lia | split; [| lia]]].
    + f_equal. destruct n as [| m]; cbn [pending_error].
      * rewrite Nat.add_0_r. reflexivity.
      * rewrite Hn1. cbn [opened net_calls]. do 3 f_equal. lia.
    + rewrite <- !app_assoc. reflexivity.
Qed.

(** The last attempt of the budget, failing in a retried way: no sleep,
    and its error is raised. *)
Lemma retry_loop_last (req : Request) (timeout retries : Z) (k : nat)
    (last_error : option HTTPError) (w : World) :
  Z.of_nat k = retries - 1 ->
  retryable (urlopen req timeout (net_calls w)) ->
  retry_loop req timeout retries [k] last_error w
  = (opened req timeout w,
     Raise (ExHTTPError (error_of (urlopen req timeout (net_calls w))))).
Proof.
  intros Hk Hr.
  destruct (retry_loop_retryable req timeout retries k [] last_error w Hr)
    as (rl & ra & _ & ->).
  unfold bind. rewrite backoff_last by lia. reflexivity.
Qed.

(** Up to a budget of 1025, what C4 says holds of the code: with
    [1 <= N <= 1025] and draws in [0, 1], when each of the [N] attempts
    fails in a retried way (HTTP 429 or 5xx whose Retry-After, if it
    parses, is not negative; a [URLError]; a socket-level error),
    [request] calls [urlopen] [N] times with one sleep between two
    consecutive calls, [N - 1] sleeps in all, and then raises the
    [HTTPError] built from the last attempt. *)
Theorem exhausted_budget_raises_last_error
    (method url : string) (headers : option (gmap string string))
    (json_data : option JSON) (timeout retries : Z) (req : Request) (w : World) :
  let N := Z.to_nat retries in
  prepare method url headers json_data = Ok req ->
  1 <= retries <= 1025 ->
  (forall i, (i < N)%nat -> retryable (urlopen req timeout (net_calls w + i))) ->
  exists (w' : World) (delays : list float),
    request method url headers json_data timeout retries w
    = (w', Raise (ExHTTPError
             (error_of (urlopen req timeout (net_calls w + (N - 1)))))) /\
    net_calls w' = (net_calls w + N)%nat /\
    trace w' = trace w ++ alternating req timeout delays /\
    length delays = (N - 1)%nat.
Proof.
  intros N Hreq Hn Hall. rewrite (request_prepared _ _ _ _ _ _ _ Hreq).
  unfold range. fold N.
  assert (E : seq 0 N = seq 0 (N - 1) ++ [(N - 1)%nat]).
  { replace N with (S (N - 1)) at 1 by lia. rewrite seq_S. reflexivity. }
  rewrite E.
  destruct (retry_loop_prefix req timeout retries (N - 1) 0 [(N - 1)%nat] None w)
    as (w1 & delays & -> & Hcalls & Htrace & Hlen); [lia | lia | |].
  { intros i Hi. apply Hall. lia. }
  rewrite retry_loop_last; [| lia |].
  - exists (opened req timeout w1), delays. rewrite Hcalls.
    cbn [opened net_calls trace]. rewrite Htrace. unfold alternating.
    split; [reflexivity |]. split; [lia |]. split; [| exact Hlen].
    rewrite <- app_assoc. reflexivity.
  - rewrite Hcalls. apply Hall. lia.
Qed.

(** C1 from end to end: when the first [k] attempts are retried and the
    next one, still within the budget, fails for good, [request] makes
    [k + 1] calls with [k] sleeps and raises the error of that attempt. *)
Lemma request_stops_at_permanent_failure
    (method url : string) (headers : option (gmap string string))
    (json_data : option JSON) (timeout retries : Z) (k : nat)
    (e : HTTPError) (req : Request) (w : World) :
  prepare method url headers json_data = Ok req ->
  Z.of_nat k < retries -> (k <= 1024)%nat ->
  (forall i, (i < k)%nat -> retryable (urlopen req timeout (net_calls w + i))) ->
  permanent_failure (urlopen req timeout (net_calls w + k)) e ->
  exists (w' : World) (delays : list float),
    request method url headers json_data timeout retries w
    = (w', Raise (ExHTTPError e)) /\
    net_calls w' = (net_calls w + k + 1)%nat /\
    trace w' = trace w ++ alternating req timeout delays /\
    length delays = k.
Proof.
  intros Hreq Hk Hmax Hall Hperm. rewrite (request_prepared _ _ _ _ _ _ _ Hreq).
  unfold range.
  assert (E : exists m, seq 0 (Z.to_nat retries) = seq 0 k ++ k :: seq (S k) m).
  { exists (Z.to_nat retries - S k)%nat.
    replace (Z.to_nat retries) with (k + S (Z.to_nat retries - S k))%nat at 1 by lia.
    rewrite seq_app. reflexivity. }
  destruct E as [m ->].
  destruct (retry_loop_prefix req timeout retries k 0 (k :: seq (S k) m) None w)
    as (w1 & delays & -> & Hcalls & Htrace & Hlen); [lia | lia | exact Hall |].
  rewrite (permanent_failure_step req timeout retries k (seq (S k) m) _ e w1).
  - exists (opened req timeout w1), delays.
    cbn [opened net_calls trace]. rewrite Hcalls, Htrace. unfold alternating.
    split; [reflexivity |]. split; [lia |]. split; [| exact Hlen].
    rewrite <- app_assoc. reflexivity.
  - rewrite Hcalls. exact Hperm.
Qed.

End Request.
End RequestFacts.

(** * [request] on concrete servers *)

Module RequestRuns.
Import PyStr PyFloat Http Fixtures RequestFacts.


(** A budget of zero, on a URL that the constructor accepts. *)
Lemma no_budget_no_attempt_witness :
  0 <= 0 /\
  fst (run timing_out 0) = fresh /\
  (exists e, snd (run timing_out 0) = Raise e) /\
  snd (run timing_out 0)
  = Raise (ExHTTPError
             (mkHTTPError "Request failed with no error details" None None None)).
Proof.
  assert (H0 : 0 <= 0) by lia.
  split; [exact H0 |].
  exact (no_budget_no_attempt unit tt loads dumps accepts to_float timing_out half
           "GET" "https://example.org/api" None None DEFAULT_TIMEOUT 0 fresh H0).
Defined.

(** C10 as stated fails on a URL without a scheme: with a budget of
    zero the constructor raises before the loop, and it is its
    [ValueError] that leaves the call, not the [HTTPError] without
    details. *)
Lemma no_budget_and_no_scheme :
  request unit tt loads dumps accepts to_float timing_out half
    "GET" "example.org/api" None None DEFAULT_TIMEOUT 0 fresh
  = (fresh, Raise (ExOther "ValueError")) /\
  ExOther "ValueError"
  <> ExHTTPError (mkHTTPError "Request failed with no error details" None None None).
Proof. split; [reflexivity | discriminate]. Qed.

(** Three timeouts with a budget of three: three calls, two sleeps, the
    error of the third. *)
Lemma exhausted_budget_raises_last_error_witness :
  (forall n, (0 <=? half n)%float = true /\ (half n <=? 1)%float = true) /\
  prepare unit dumps accepts "GET" "https://example.org/api" None None = Ok the_request /\
  1 <= 3 <= 1025 /\
  (forall i, (i < 3)%nat ->
     retryable to_float (timing_out the_request DEFAULT_TIMEOUT (net_calls fresh + i))) /\
  exists (w' : World) (delays : list float),
    run timing_out 3
    = (w', Raise (ExHTTPError
             (error_of unit tt loads to_float
                (timing_out the_request DEFAULT_TIMEOUT (net_calls fresh + (3 - 1)))))) /\
    net_calls w' = (net_calls fresh + 3)%nat /\
    trace w' = trace fresh ++ alternating the_request DEFAULT_TIMEOUT delays /\
    length delays = (3 - 1)%nat.
Proof.
  assert (Hr : forall n, (0 <=? half n)%float = true /\ (half n <=? 1)%float = true)
    by (intros n; split; reflexivity).
  assert (Ha : forall i, (i < 3)%nat ->
            retryable to_float
              (timing_out the_request DEFAULT_TIMEOUT (net_calls fresh + i)))
    by (intros i _; exact I).
  split; [exact Hr |]. split; [reflexivity |]. split; [lia |]. split; [exact Ha |].
  apply (exhausted_budget_raises_last_error unit tt loads dumps accepts to_float timing_out
           half Hr "GET" "https://example.org/api" None None DEFAULT_TIMEOUT 3
           the_request fresh);
    [reflexivity | lia | exact Ha].
Defined.

(** The run of that witness, spelled out: delays of 2.25 and 4.5 seconds. *)
Example three_timeouts :
  run timing_out 3
  = (mkWorld 3 2 [EvUrlopen the_request 30; EvSleep 2.25;
                  EvUrlopen the_request 30; EvSleep 4.5;
                  EvUrlopen the_request 30],
     Raise (ExHTTPError
              (mkHTTPError "Connection error: TimeoutError: timed out" None None None))).
Proof. vm_compute. reflexivity. Qed.

(** The same server with a budget of three: one call and nothing else. *)
Example not_found_is_not_retried :
  run not_found 3
  = (mkWorld 1 0 [EvUrlopen the_request 30],
     Raise (ExHTTPError (mkHTTPError "HTTP 404: Not Found" (Some 404) (Some "gone") None))).
Proof. vm_compute. reflexivity. Qed.

(** C4, at the failing input: a budget of 1026 and a timeout on every
    attempt, each of them a failure that is retried. The claim has 1026
    attempts and then the [HTTPError] of the last one; the code makes
    1025, and the delay after the 1025th (index 1024) needs [2 ** 1024]
    as a float: the call ends in [OverflowError] there, and no
    [HTTPError] is raised. *)
Lemma budget_of_1026_overflows :
  (forall i, retryable to_float (timing_out the_request DEFAULT_TIMEOUT i)) /\
  snd (run timing_out 1026) = Raise ExOverflowError /\
  net_calls (fst (run timing_out 1026)) = 1025%nat.
Proof. split; [intros i; exact I |]. split; vm_compute; reflexivity. Qed.

(** What C7's negative delay does to [request]: the sleep is refused, and
    the exception that leaves the call is not an [HTTPError]. *)
Example negative_retry_after_breaks_request :
  run negative_wait 3
  = (mkWorld 1 0 [EvUrlopen the_request 30], Raise ExSleepArgument).
Proof. vm_compute. reflexivity. Qed.

End RequestRuns.

(* ================================================================== *)
(** * [get_reddit_json] *)
(* ================================================================== *)

Module RedditFacts.
Import PyStr Http.

Lemma endswith_self (s : string) : endswith s s = true.
Proof. destruct s; cbn [endswith]; rewrite String.eqb_refl; reflexivity. Qed.

Lemma endswith_append (p suf : string) : endswith suf (p +:+ suf) = true.
Proof.
  induction p as [| a p IH].
  - apply endswith_self.
  - change (String a p +:+ suf) with (String a (p +:+ suf)). cbn [endswith].
    destruct (String.eqb (String a (p +:+ suf)) suf); [reflexivity | exact IH].
Qed.

(** The path always ends with [.json]. *)
Lemma reddit_path_ends_with_json (path : string) :
  endswith ".json" (reddit_path path) = true.
Proof.
  unfold reddit_path.
  destruct (endswith ".json" (rstrip "/" _)) eqn:E; [exact E | apply endswith_append].
Qed.

Lemma startswith_slash (s : string) : startswith "/" (String "/" s) = true.
Proof. reflexivity. Qed.

Lemma rstrip_cons_nonempty (c a : ascii) (s : string) :
  rstrip c s <> EmptyString -> rstrip c (String a s) = String a (rstrip c s).
Proof. intros H. cbn [rstrip]. destruct (rstrip c s); [contradiction | reflexivity]. Qed.

(** It begins with a slash as soon as the argument has a character other
    than a slash. *)
Lemma reddit_path_leading_slash (path : string) :
  rstrip "/" path <> EmptyString ->
  startswith "/" (reddit_path path) = true.
Proof.
  intros Hne. unfold reddit_path.
  assert (H : exists t, rstrip "/" (if startswith "/" path then path else "/" +:+ path)
                        = String "/" t).
  { destruct (startswith "/" path) eqn:E.
    - destruct path as [| a t]; [cbn in E; discriminate |].
      cbn [startswith] in E. apply andb_prop in E as [E _].
      apply Ascii.eqb_eq in E. subst a.
      cbn [rstrip] in *. destruct (rstrip "/" t); [| eauto].
      exfalso. apply Hne. reflexivity.
    - change ("/" +:+ path) with (String "/" path).
      rewrite rstrip_cons_nonempty by assumption. eauto. }
  destruct H as [t ->].
  destruct (endswith ".json" (String "/" t)); apply startswith_slash.
Qed.

(** The call is [request] on the normalised URL with the defaults. *)
Lemma get_reddit_json_request JSON empty_object json_loads json_dumps Request_raises
    py_float urlopen random (path : string) :
  get_reddit_json JSON empty_object json_loads json_dumps Request_raises py_float
    urlopen random path
  = request JSON empty_object json_loads json_dumps Request_raises py_float urlopen random
      "GET" ("https://www.reddit.com" +:+ reddit_path path +:+ "?raw_json=1")
      (Some reddit_headers) None DEFAULT_TIMEOUT MAX_RETRIES.
Proof. reflexivity. Qed.

(** C6, at the failing inputs: for the paths ["/"] and [""] the slash
    that was ensured is stripped again; the path requested is [".json"],
    with no leading slash, appended to the host name. *)
Theorem reddit_path_of_root :
  reddit_path "/" = ".json" /\
  reddit_path "" = ".json" /\
  startswith "/" (reddit_path "/") = false /\
  reddit_url "/" = "https://www.reddit.com.json?raw_json=1".
Proof. repeat split. Qed.

Example reddit_path_of_thread :
  reddit_path "r/rust/comments/abc/title/" = "/r/rust/comments/abc/title.json".
Proof. reflexivity. Qed.

End RedditFacts.

(* ================================================================== *)
(** * [dedupe_websearch] *)
(* ================================================================== *)

Module DedupeFacts.
Import PyStr Websearch Fixtures.

Section Dedupe.
Variable lower : string -> string.

Abbreviation key := (url_key lower).
Abbreviation step := (dedupe_step lower).
Abbreviation inv := (dedupe_inv lower).

Lemma dedupe_inv_nil : inv [] (∅, []).
Proof.
  split; cbn.
  - intros k. split; intros H; [apply elem_of_empty in H | apply elem_of_nil in H];
      contradiction.
  - intros k. split; intros H; [apply elem_of_nil in H | apply elem_of_empty in H];
      contradiction.
  - constructor.
  - constructor.
  - intros x Hx. inversion Hx.
Qed.

Lemma dedupe_inv_step (items : list WebSearchItem) st (x : WebSearchItem) :
  inv items st -> inv (items ++ [x]) (step st x).
Proof.
  destruct st as [seen result]. intros [Hseen Hkeys Hsub Hnd Hfirst]. cbn in *.
  unfold dedupe_step. destruct (decide (key x ∈ seen)) as [Hin | Hnin].
  - split; cbn.
    + intros k. rewrite fmap_app, elem_of_app, <- Hseen. cbn.
      rewrite list_elem_of_singleton. split; [auto | intros [? | ->]; auto].
    + exact Hkeys.
    + apply sublist_inserts_r. exact Hsub.
    + exact Hnd.
    + intros y Hy. destruct (Hfirst y Hy) as (b & a & -> & Hb).
      exists b, (a ++ [x]). split; [| exact Hb].
      rewrite <- app_assoc. reflexivity.
  - split; cbn.
    + intros k. rewrite elem_of_union, elem_of_singleton, fmap_app, elem_of_app, <- Hseen.
      cbn. rewrite list_elem_of_singleton. tauto.
    + intros k. rewrite elem_of_union, elem_of_singleton, fmap_app, elem_of_app, Hkeys.
      cbn. rewrite list_elem_of_singleton. tauto.
    + apply sublist_app; [exact Hsub | reflexivity].
    + rewrite fmap_app. apply NoDup_app. split; [exact Hnd |]. split.
      * intros k Hk Hk'. cbn in Hk'. apply list_elem_of_singleton in Hk'. subst k.
        apply Hnin, Hkeys, Hk.
      * cbn. apply NoDup_singleton.
    + intros y Hy. apply elem_of_app in Hy as [Hy | Hy].
      * destruct (Hfirst y Hy) as (b & a & -> & Hb).
        exists b, (a ++ [x]). split; [| exact Hb].
        rewrite <- app_assoc. reflexivity.
      * apply list_elem_of_singleton in Hy. subst y.
        exists items, []. split; [reflexivity |].
        intros Hk. apply Hnin, Hseen, Hk.
Qed.

Lemma dedupe_inv_fold (items : list WebSearchItem) :
  inv items (fold_left step items (∅, [])).
Proof.
  induction items as [| x items IH] using rev_ind.
  - exact dedupe_inv_nil.
  - rewrite fold_left_app. cbn [fold_left]. apply dedupe_inv_step, IH.
Qed.


End Dedupe.

Example dedupe_example :
  dedupe_websearch lower_ascii
    [item "W1" "https://Example.org/a/"; item "W2" "https://example.org/b";
     item "W3" "https://example.org/a"; item "W4" "https://example.org/B//"]
  = [item "W1" "https://Example.org/a/"; item "W2" "https://example.org/b"].
Proof. vm_compute. reflexivity. Qed.

End DedupeFacts.

(* ================================================================== *)
(** * Every run of [request] *)
(* ================================================================== *)

Module RequestShapeFacts.
Import PyStr PyFloat Http Binary64 BackoffTable BackoffFacts DelayFacts RequestShape.

Section Shape.
Variable JSON : Type.
Variable empty_object : JSON.
Variable json_loads : string -> JSON + string.
Variable json_dumps : JSON -> Result string.
Variable Request_raises : Request -> option exn.
Variable py_float : string -> option float.
Variable urlopen : Request -> Z -> nat -> Attempt.
Variable random : nat -> float.

Abbreviation retry_loop :=
  (Http.retry_loop JSON empty_object json_loads py_float urlopen random).
Abbreviation request :=
  (Http.request JSON empty_object json_loads json_dumps Request_raises py_float
     urlopen random).
Abbreviation error_of := (Http.error_of JSON empty_object json_loads py_float).
Abbreviation prepare := (Http.prepare JSON json_dumps Request_raises).
Abbreviation decided_by := (RequestShape.decided_by JSON empty_object json_loads py_float).
Abbreviation computed_delay := (RequestShape.computed_delay random).

(** What [_get_retry_delay] can do: return a delay, with or without a
    draw, or overflow; it touches neither the network nor the trace. *)
Lemma retry_delay_cases (a : nat) (rl : bool) (ra : option float) (w w' : World)
    (r : Result float) :
  _get_retry_delay random a rl ra w = (w', r) ->
  net_calls w' = net_calls w /\ trace w' = trace w /\
  (rand_calls w <= rand_calls w' <= S (rand_calls w))%nat /\
  (r = Raise ExOverflowError \/ exists d, r = Ok d).
Proof.
  unfold _get_retry_delay. destruct ra as [h |].
  - intros [= <- <-]. repeat split; try lia. right. eauto.
  - unfold capped_backoff. destruct (float_of_int _) as [p |].
    + intros [= <- <-]. cbn. repeat split; try lia. right. eauto.
    + intros [= <- <-]. repeat split; try lia. left. reflexivity.
Qed.

(** The three ways through [backoff]: a sleep, an exception in place of
    the sleep, or nothing when the attempt is the last of the budget. *)
Lemma backoff_cases (attempt : nat) (retries : Z) (rl : bool) (ra : option float)
    (w w' : World) (r : Result unit) :
  backoff random attempt retries rl ra w = (w', r) ->
  net_calls w' = net_calls w /\
  (rand_calls w <= rand_calls w' <= S (rand_calls w))%nat /\
  ((Z.of_nat attempt < retries - 1 /\ r = Ok tt /\
    exists d, computed_delay d /\ trace w' = trace w ++ [EvSleep d]) \/
   (Z.of_nat attempt < retries - 1 /\ trace w' = trace w /\
    (r = Raise ExOverflowError \/ r = Raise ExSleepArgument)) \/
   (retries - 1 <= Z.of_nat attempt /\ w' = w /\ r = Ok tt)).
Proof.
  unfold backoff. destruct (Z.ltb_spec (Z.of_nat attempt) (retries - 1)) as [Hlt | Hge].
  - unfold bind. destruct (_get_retry_delay random attempt rl ra w) as [w1 r1] eqn:Hd.
    destruct (retry_delay_cases _ _ _ _ _ _ Hd) as (Hn & Ht & Hr & [-> | [d ->]]).
    + intros [= <- <-]. split; [exact Hn |]. split; [exact Hr |]. right. left. auto.
    + unfold time_sleep. destruct (0 <=? d)%float eqn:Hd0.
      * intros [= <- <-]. cbn [slept net_calls rand_calls trace].
        split; [exact Hn |]. split; [exact Hr |]. left.
        split; [exact Hlt |]. split; [reflexivity |]. exists d. rewrite Ht.
        split; [| reflexivity]. split; [exact Hd0 |]. eauto 10.
      * intros [= <- <-]. split; [exact Hn |]. split; [exact Hr |]. right. left. auto.
  - intros [= <- <-]. split; [reflexivity |]. split; [lia |]. right. right. auto.
Qed.

(** One turn of the loop: it ends the call, or it goes on with the error
    of this attempt, after a sleep or, at the end of the budget, at once. *)
Lemma retry_loop_turn (req : Request) (timeout retries : Z) (k : nat) (rest : list nat)
    (last_error : option HTTPError) (w w' : World) (r : Result JSON) :
  let a := urlopen req timeout (net_calls w) in
  retry_loop req timeout retries (k :: rest) last_error w = (w', r) ->
  (net_calls w' = S (net_calls w) /\ trace w' = trace w ++ [EvUrlopen req timeout] /\
   (rand_calls w <= rand_calls w' <= S (rand_calls w))%nat /\
   decided_by a r) \/
  (retried a /\
   exists w1,
     retry_loop req timeout retries rest (Some (error_of a)) w1 = (w', r) /\
     net_calls w1 = S (net_calls w) /\
     (rand_calls w <= rand_calls w1 <= S (rand_calls w))%nat /\
     ((Z.of_nat k < retries - 1 /\
       exists d, computed_delay d /\
         trace w1 = trace w ++ [EvUrlopen req timeout; EvSleep d]) \/
      (retries - 1 <= Z.of_nat k /\ w1 = opened req timeout w))).
Proof.
  intros a. cbn [Http.retry_loop]. unfold bind at 1, urlopen_call. fold a.
  assert (Hgo : forall rl ra,
    retried a ->
    bind (backoff random k retries rl ra)
      (fun _ => retry_loop req timeout retries rest (Some (error_of a)))
      (opened req timeout w) = (w', r) ->
    (net_calls w' = S (net_calls w) /\ trace w' = trace w ++ [EvUrlopen req timeout] /\
     (rand_calls w <= rand_calls w' <= S (rand_calls w))%nat /\
     decided_by a r) \/
    (retried a /\
     exists w1,
       retry_loop req timeout retries rest (Some (error_of a)) w1 = (w', r) /\
       net_calls w1 = S (net_calls w) /\
       (rand_calls w <= rand_calls w1 <= S (rand_calls w))%nat /\
       ((Z.of_nat k < retries - 1 /\
         exists d, computed_delay d /\
           trace w1 = trace w ++ [EvUrlopen req timeout; EvSleep d]) \/
        (retries - 1 <= Z.of_nat k /\ w1 = opened req timeout w)))).
  { intros rl ra Hret. unfold bind.
    destruct (backoff random k retries rl ra (opened req timeout w)) as [w1 r1] eqn:Hb.
    destruct (backoff_cases _ _ _ _ _ _ _ Hb) as (Hn & Hr & Hcase).
    cbn [opened net_calls rand_calls trace] in Hn, Hr, Hcase. intros Hrun.
    destruct Hcase as [(Hlt & -> & d & Hd & Ht) | [(Hlt & Ht & He) | (Hge & -> & ->)]].
    - right. split; [exact Hret |]. exists w1.
      split; [exact Hrun |]. split; [exact Hn |]. split; [exact Hr |]. left.
      split; [exact Hlt |]. exists d. split; [exact Hd |].
      rewrite Ht, <- app_assoc. reflexivity.
    - left. rewrite <- Hn, <- Ht.
      destruct He as [-> | ->]; injection Hrun as <- <-;
        (split; [reflexivity |]; split; [reflexivity |]; split; [exact Hr |]; exact Hret).
    - right. split; [exact Hret |]. exists (opened req timeout w).
      split; [exact Hrun |]. cbn [opened net_calls rand_calls trace].
      split; [reflexivity |]. split; [lia |]. right. auto. }
  destruct a as [st text | code reason eb raw | reason | tn msg | tn] eqn:Ea.
  - destruct (decode_body JSON empty_object json_loads text) as [v | e] eqn:Hdec;
      intros [= <- <-]; left; cbn [opened net_calls rand_calls trace];
      (split; [reflexivity |]; split; [reflexivity |]; split; [lia |]).
    + cbn; eauto.
    + cbn. rewrite Hdec. split; [reflexivity | discriminate].
  - destruct (is_client_error code) eqn:Ec.
    + intros [= <- <-]. left. cbn [opened net_calls rand_calls trace].
      split; [reflexivity |]. split; [reflexivity |]. split; [lia |].
      cbn; split; [reflexivity | discriminate].
    + apply Hgo. exact Ec.
  - apply Hgo. exact I.
  - apply Hgo. exact I.
  - intros [= <- <-]. left. cbn [opened net_calls rand_calls trace].
    split; [reflexivity |]. split; [reflexivity |]. split; [lia |]. reflexivity.
Qed.

(** The loop from attempt [k] on, [S n] attempts being left of the
    budget: whatever the server and the draws, it makes at least one
    call and at most [S n], it sleeps between two calls only, and what
    leaves it is decided by the last call made. *)
Lemma retry_loop_run (req : Request) (timeout retries : Z) (n : nat) :
  forall (k : nat) (last_error : option HTTPError) (w w' : World) (r : Result JSON),
    (k + S n)%nat = Z.to_nat retries ->
    retry_loop req timeout retries (seq k (S n)) last_error w = (w', r) ->
    exists delays : list float,
      (length delays <= n)%nat /\
      trace w' = trace w ++ alternating req timeout delays /\
      net_calls w' = (net_calls w + length delays + 1)%nat /\
      (rand_calls w <= rand_calls w' <= rand_calls w + length delays + 1)%nat /\
      Forall computed_delay delays /\
      decided_by (urlopen req timeout (net_calls w + length delays)) r.
Proof.
  induction n as [| n IH]; intros k last_error w w' r Hk Hrun.
  all: change (seq k (S ?m)) with (k :: seq (S k) m) in Hrun.
  all: apply retry_loop_turn in Hrun
         as [(Hn & Ht & Hr & Hd) | (Hret & w1 & Hrun & Hn & Hr & Hcase)].
  all: try (exists []; cbn [length alternating calls_with_sleeps app];
            rewrite Nat.add_0_r; repeat (split; [first [lia | assumption | constructor] |]);
            exact Hd).
  - destruct Hcase as [(Hlt & _) | (_ & ->)]; [lia |].
    cbn [seq Http.retry_loop] in Hrun. injection Hrun as <- <-.
    exists []. cbn [length alternating calls_with_sleeps app opened net_calls rand_calls trace].
    rewrite Nat.add_0_r. repeat (split; [first [lia | reflexivity | constructor] |]).
    intros tn E. rewrite E in Hret. exact Hret.
  - destruct Hcase as [(Hlt & d & Hd & Ht) | (Hge & _)]; [| lia].
    apply IH in Hrun as (delays & Hlen & Ht' & Hn' & Hr' & Hall & Hdec); [| lia].
    exists (d :: delays). cbn [length].
    split; [lia |]. split.
    { rewrite Ht', Ht. unfold alternating. cbn [calls_with_sleeps].
      rewrite <- !app_assoc. reflexivity. }
    split; [lia |]. split; [lia |]. split; [constructor; assumption |].
    rewrite Hn in Hdec.
    replace (net_calls w + S (length delays))%nat with (S (net_calls w) + length delays)%nat
      by lia. exact Hdec.
Qed.

Lemma to_nat_budget (retries : Z) :
  1 <= retries -> exists n, Z.to_nat retries = S n.
Proof. intros H. exists (Z.to_nat retries - 1)%nat. lia. Qed.

(** X1. A call of [request] with a budget of at least one either fails
    before the loop, when [json.dumps] or the constructor of the request
    object raises, and then it calls nothing and that exception leaves
    it; or, whatever the server answers and whatever the draws are, it
    makes at least one call of [urlopen] and at most [retries], all with
    the one request object and timeout, and it sleeps only between two
    calls, never before the first or after the last, and only for
    delays that are not negative. *)
Theorem request_calls_and_sleeps
    (method url : string) (headers : option (gmap string string))
    (json_data : option JSON) (timeout retries : Z) (w : World) :
  1 <= retries ->
  let run := request method url headers json_data timeout retries w in
  match prepare method url headers json_data with
  | Raise e => run = (w, Raise e)
  | Ok req =>
      exists delays : list float,
        (length delays < Z.to_nat retries)%nat /\
        trace (fst run) = trace w ++ alternating req timeout delays /\
        net_calls (fst run) = (net_calls w + length delays + 1)%nat /\
        Forall (fun d => (0 <=? d)%float = true) delays
  end.
Proof.
  intros Hn run. subst run. unfold Http.request, range.
  destruct (prepare method url headers json_data) as [req | e]; [| reflexivity].
  destruct (to_nat_budget retries Hn) as [n En]. rewrite En.
  destruct (retry_loop req timeout retries (seq 0 (S n)) None w) as [w' r] eqn:Hrun.
  apply retry_loop_run in Hrun as (delays & Hlen & Ht & Hc & _ & Hall & _); [| lia].
  exists delays. cbn [fst]. split; [lia |]. split; [exact Ht |]. split; [exact Hc |].
  eapply Forall_impl; [exact Hall |]. intros d [Hd _]. exact Hd.
Qed.


Lemma sleep_in_calls_with_sleeps (req : Request) (timeout : Z) (delays : list float)
    (d : float) :
  EvSleep d ∈ calls_with_sleeps req timeout delays -> d ∈ delays.
Proof.
  induction delays as [| x delays IH]; cbn [calls_with_sleeps]; intros H.
  - inversion H.
  - apply elem_of_cons in H as [H | H]; [discriminate |].
    apply elem_of_cons in H as [[= ->] | H]; [left | right; auto].
Qed.

Lemma sleep_in_alternating (req : Request) (timeout : Z) (delays : list float)
    (d : float) :
  EvSleep d ∈ alternating req timeout delays -> d ∈ delays.
Proof.
  unfold alternating. intros H. apply elem_of_app in H as [H | H].
  - eapply sleep_in_calls_with_sleeps, H.
  - apply list_elem_of_singleton in H. discriminate.
Qed.

(** ** With draws in [0, 1] *)

Hypothesis random_range :
  forall n, (0 <=? random n)%float = true /\ (random n <=? 1)%float = true.

(** A delay that was computed and accepted is at most 75 seconds,
    whatever the attempt index and the hint. *)
Lemma computed_delay_at_most_75 (d : float) :
  computed_delay d -> (d <=? 75)%float = true.
Proof.
  intros (H0 & a & rl & [h |] & w0 & w1 & Hd).
  - injection Hd as _ <-. revert H0.
    unfold py_min, RETRY_MAX_DELAY. destruct (60 <? h)%float eqn:E; [reflexivity |].
    intros Hh. eapply (Binary64Facts.not_above 60 75 h); try reflexivity; assumption.
  - destruct (Nat.le_gt_cases a 1023) as [Ha | Ha].
    + destruct (retry_delay_jittered random a rl w0 Ha) as (c & _ & _ & Hd' & _ & _ & D & _);
        try apply random_range.
      rewrite Hd' in Hd. injection Hd as _ <-. exact D.
    + rewrite retry_delay_overflows in Hd by lia. discriminate.
Qed.

(** X3. With draws in [0, 1], no sleep of [request] is longer than 75
    seconds (and none is negative), whatever the budget, the statuses
    and the Retry-After values. *)
Theorem request_sleeps_at_most_75
    (method url : string) (headers : option (gmap string string))
    (json_data : option JSON) (timeout retries : Z) (w : World) :
  let w' := fst (request method url headers json_data timeout retries w) in
  exists events : list Event,
    trace w' = trace w ++ events /\
    forall d, EvSleep d ∈ events ->
      (0 <=? d)%float = true /\ (d <=? 75)%float = true.
Proof.
  intros w'. subst w'. unfold Http.request, range.
  destruct (prepare method url headers json_data) as [req | e].
  2: { exists []. split; [cbn; rewrite app_nil_r; reflexivity |]. intros d H. inversion H. }
  destruct (Z.to_nat retries) as [| n] eqn:En.
  - exists []. split; [cbn; rewrite app_nil_r; reflexivity |]. intros d H. inversion H.
  - destruct (retry_loop _ timeout retries (seq 0 (S n)) None w) as [w' r] eqn:Hrun.
    apply retry_loop_run in Hrun as (delays & _ & Ht & _ & _ & Hall & _); [| lia].
    eexists. split; [exact Ht |]. intros d Hd%sleep_in_alternating.
    rewrite Forall_forall in Hall. specialize (Hall d Hd).
    split; [apply Hall | apply computed_delay_at_most_75, Hall].
Qed.

(** X4. Transient failures are survived: the request object being built,
    when the first [k] attempts fail in a retried way and the next one,
    still within the budget, answers with a body that decodes to [v]
    (an empty body decodes to the empty object), [request] returns [v]
    after [k + 1] calls and [k] sleeps. *)
Theorem request_returns_after_retries
    (method url : string) (headers : option (gmap string string))
    (json_data : option JSON) (timeout retries : Z) (k : nat)
    (status : Z) (text : string) (v : JSON) (req : Request) (w : World) :
  prepare method url headers json_data = Ok req ->
  Z.of_nat k < retries -> (k <= 1024)%nat ->
  (forall i, (i < k)%nat ->
     Http.retryable py_float (urlopen req timeout (net_calls w + i))) ->
  urlopen req timeout (net_calls w + k) = Responded status text ->
  decode_body JSON empty_object json_loads text = inl v ->
  exists (w' : World) (delays : list float),
    request method url headers json_data timeout retries w = (w', Ok v) /\
    net_calls w' = (net_calls w + k + 1)%nat /\
    trace w' = trace w ++ alternating req timeout delays /\
    length delays = k.
Proof.
  intros Hreq Hk Hmax Hall Hresp Hdec. unfold Http.request, range. rewrite Hreq.
  assert (E : exists m, seq 0 (Z.to_nat retries) = seq 0 k ++ k :: seq (S k) m).
  { exists (Z.to_nat retries - S k)%nat.
    replace (Z.to_nat retries) with (k + S (Z.to_nat retries - S k))%nat at 1 by lia.
    rewrite seq_app. reflexivity. }
  destruct E as [m ->].
  destruct (RequestFacts.retry_loop_prefix JSON empty_object json_loads json_dumps py_float
              urlopen random random_range req timeout retries k 0 (k :: seq (S k) m) None w)
    as (w1 & delays & -> & Hcalls & Htrace & Hlen); [lia | lia | exact Hall |].
  cbn [Http.retry_loop]. unfold bind, urlopen_call. rewrite Hcalls, Hresp, Hdec.
  exists (opened req timeout w1), delays.
  cbn [opened net_calls trace ret]. rewrite Hcalls, Htrace. unfold alternating.
  split; [reflexivity |]. split; [lia |]. split; [| exact Hlen].
  rewrite <- app_assoc. reflexivity.
Qed.

(** X5. A Retry-After value is honoured on every retried status, 5xx as
    well as 429 (and 3xx, which [urlopen] also raises): when such an
    attempt is not the last of the budget and the header parses to a
    number [h >= 0], the loop sleeps [min(h, 60)] seconds, draws no
    random number, and goes on with the next attempt. *)
Theorem hinted_retry_sleeps_the_hint
    (req : Request) (timeout retries : Z) (attempt : nat) (rest : list nat)
    (last_error : option HTTPError) (code : Z) (reason : string)
    (err_body raw : option string) (h : float) (w : World) :
  urlopen req timeout (net_calls w) = RaisedHTTPError code reason err_body raw ->
  ~ (400 <= code < 500 /\ code <> 429) ->
  parse_retry_after py_float raw = Some h ->
  (0 <=? h)%float = true ->
  Z.of_nat attempt < retries - 1 ->
  retry_loop req timeout retries (attempt :: rest) last_error w
  = retry_loop req timeout retries rest
      (Some (mkHTTPError ("HTTP " +:+ str_of_int code +:+ ": " +:+ reason)
                         (Some code) err_body (Some h)))
      (slept (py_min h RETRY_MAX_DELAY) (opened req timeout w)).
Proof.
  intros Ha Hcode Hraw Hh Hlt. cbn [Http.retry_loop]. unfold bind at 1, urlopen_call.
  rewrite Ha, Hraw.
  assert (E : is_client_error code = false).
  { destruct (is_client_error code) eqn:E; [| reflexivity].
    unfold is_client_error in E.
    rewrite !andb_true_iff, negb_true_iff, Z.leb_le, Z.ltb_lt, Z.eqb_neq in E.
    tauto. }
  rewrite E. unfold bind, backoff.
  destruct (Z.ltb_spec (Z.of_nat attempt) (retries - 1)) as [_ | ?]; [| lia].
  cbn [_get_retry_delay]. unfold bind, time_sleep, ret.
  rewrite (RequestFacts.hinted_delay_nonneg h Hh). reflexivity.
Qed.

End Shape.

Section Prepared.
Variable JSON : Type.
Variable json_dumps : JSON -> Result string.
Variable Request_raises : Request -> option exn.

Lemma setdefault_lookup (k v : string) (d : gmap string string) (k' : string) :
  setdefault k v d !! k' = if decide (k' = k) then Some (default v (d !! k)) else d !! k'.
Proof.
  unfold setdefault. destruct (d !! k) as [x |] eqn:E; destruct (decide (k' = k)) as [-> | Hne].
  - exact E.
  - reflexivity.
  - apply lookup_insert_eq.
  - apply lookup_insert_ne. congruence.
Qed.

(** What the lines before the loop have done when they return. *)
Lemma prepare_returns
    (method url : string) (headers : option (gmap string string))
    (json_data : option JSON) (req : Request) :
  prepare JSON json_dumps Request_raises method url headers json_data = Ok req ->
  let with_agent := setdefault "User-Agent" USER_AGENT (default ∅ headers) in
  Request_raises req = None /\
  match json_data with
  | None => req = mkRequest method url None with_agent
  | Some j =>
      exists data, json_dumps j = Ok data /\
        req = mkRequest method url (Some data)
                (setdefault "Content-Type" "application/json" with_agent)
  end.
Proof.
  unfold prepare, encode_body. cbn zeta.
  destruct json_data as [j |].
  - destruct (json_dumps j) as [data | e]; [| discriminate].
    destruct (Request_raises _) eqn:E; [discriminate |]. intros [= <-]. eauto.
  - destruct (Request_raises _) eqn:E; [discriminate |]. intros [= <-]. auto.
Qed.

(** X6. The arguments that [request] hands to the constructor of the
    request object, when the lines before the loop return: the method
    and the URL as given, the body that [json.dumps] made, and a headers
    dict that keeps every entry of the caller's; the two defaults
    (User-Agent always, Content-Type when there is a body) are set only
    under keys that the caller's dict does not have, spelled exactly so,
    and no other key is added. *)
Theorem prepared_request_arguments
    (method url : string) (headers : option (gmap string string))
    (json_data : option JSON) (req : Request) :
  prepare JSON json_dumps Request_raises method url headers json_data = Ok req ->
  let given := default ∅ headers in
  req_method req = method /\ req_url req = url /\
  match json_data with
  | None => req_data req = None
  | Some j => exists data, json_dumps j = Ok data /\ req_data req = Some data
  end /\
  (forall k v, given !! k = Some v -> req_headers req !! k = Some v) /\
  req_headers req !! "User-Agent" = Some (default USER_AGENT (given !! "User-Agent")) /\
  req_headers req !! "Content-Type"
    = match json_data with
      | Some _ => Some (default "application/json" (given !! "Content-Type"))
      | None => given !! "Content-Type"
      end /\
  (forall k, k <> "User-Agent" -> k <> "Content-Type" ->
     req_headers req !! k = given !! k).
Proof.
  intros Hreq given. apply prepare_returns in Hreq as [_ Hreq]. fold given in Hreq.
  assert (H : forall k,
    req_headers req !! k
    = if decide (k = "Content-Type")
      then match json_data with
           | Some _ => Some (default "application/json" (given !! "Content-Type"))
           | None => given !! "Content-Type"
           end
      else if decide (k = "User-Agent")
           then Some (default USER_AGENT (given !! "User-Agent"))
           else given !! k).
  { intros k. destruct json_data as [j |]; [destruct Hreq as (data & _ & ->) | subst req];
      cbn [req_headers]; rewrite !setdefault_lookup;
      (destruct (decide (k = "Content-Type")) as [-> | ?]; [| reflexivity]);
      (destruct (decide ("Content-Type" = "User-Agent")); [discriminate | reflexivity]). }
  split; [destruct json_data; [destruct Hreq as (? & _ & ->) | subst req]; reflexivity |].
  split; [destruct json_data; [destruct Hreq as (? & _ & ->) | subst req]; reflexivity |].
  split.
  { destruct json_data as [j |]; [destruct Hreq as (data & Hd & ->) | subst req]; cbn; eauto. }
  split; [| split; [| split]].
  - intros k v Hk. rewrite H.
    destruct (decide (k = "Content-Type")) as [-> | ?].
    + rewrite Hk. destruct json_data; reflexivity.
    + destruct (decide (k = "User-Agent")) as [-> | ?]; [rewrite Hk; reflexivity | exact Hk].
  - rewrite H. reflexivity.
  - rewrite H. reflexivity.
  - intros k H1 H2. rewrite H.
    destruct (decide (k = "Content-Type")); [contradiction |].
    destruct (decide (k = "User-Agent")); [contradiction | reflexivity].
Qed.

End Prepared.

Section Wrappers.
Variable JSON : Type.
Variable empty_object : JSON.
Variable json_loads : string -> JSON + string.
Variable json_dumps : JSON -> Result string.
Variable Request_raises : Request -> option exn.
Variable py_float : string -> option float.
Variable urlopen : Request -> Z -> nat -> Attempt.
Variable random : nat -> float.

Lemma reddit_request (path : string) :
  prepare JSON json_dumps Request_raises "GET" (reddit_url path) (Some reddit_headers) None
  = match Request_raises (mkRequest "GET" (reddit_url path) None reddit_headers) with
    | Some e => Raise e
    | None => Ok (mkRequest "GET" (reddit_url path) None reddit_headers)
    end.
Proof. reflexivity. Qed.

(** X7. [get_reddit_json] sends GET requests and nothing else: the
    constructor is given the URL built from the path, the headers
    User-Agent and Accept as the function sets them and no body; when it
    raises, that exception leaves the call and nothing is sent;
    otherwise between one and three requests are made, every one with
    these arguments and a timeout of 30 seconds, and at most two sleeps,
    each between two requests. *)
Theorem get_reddit_json_requests (path : string) (w : World) :
  let req := mkRequest "GET" ("https://www.reddit.com" +:+ reddit_path path +:+ "?raw_json=1")
               None
               (<["User-Agent" := USER_AGENT]> (<["Accept" := "application/json"]> ∅)) in
  let run := get_reddit_json JSON empty_object json_loads json_dumps Request_raises
               py_float urlopen random path w in
  match Request_raises req with
  | Some e => run = (w, Raise e)
  | None =>
      exists delays : list float,
        (length delays <= 2)%nat /\
        trace (fst run) = trace w ++ alternating req 30 delays /\
        net_calls (fst run) = (net_calls w + length delays + 1)%nat
  end.
Proof.
  intros req run. subst run. unfold get_reddit_json, get, Http.request.
  cbn [no_kwargs kw_others kw_json_data kw_timeout kw_retries default from_option].
  rewrite reddit_request. change (mkRequest _ _ _ _) with req.
  destruct (Request_raises req) as [e |]; [reflexivity |].
  change (range MAX_RETRIES) with (seq 0 3).
  destruct (Http.retry_loop _ _ _ _ _ _ req DEFAULT_TIMEOUT MAX_RETRIES (seq 0 3) None w)
    as [w' r] eqn:Hrun.
  apply retry_loop_run in Hrun as (delays & Hlen & Ht & Hc & _); [| reflexivity].
  exists delays. cbn [fst]. auto.
Qed.

(** X8. [post] forwards its keyword arguments: with none that [request]
    has no parameter for, and the request object built, it makes between
    one and [retries] calls of [urlopen] (three when the keyword is not
    given), each with the [timeout] given (30 seconds when it is not)
    and with the arguments method POST, the URL, the body that
    [json.dumps] made of [json_data] and a headers dict that has the
    key Content-Type, with the caller's value if the caller's dict has
    that key and [application/json] otherwise. *)
Theorem post_requests (url : string) (json_data : JSON)
    (headers : option (gmap string string)) (kwargs : Kwargs JSON)
    (req : Request) (w : World) :
  let timeout := default DEFAULT_TIMEOUT (kw_timeout JSON kwargs) in
  let retries := default MAX_RETRIES (kw_retries JSON kwargs) in
  let run := post JSON empty_object json_loads json_dumps Request_raises py_float
               urlopen random url json_data headers kwargs w in
  kw_others JSON kwargs = [] -> kw_json_data JSON kwargs = None ->
  prepare JSON json_dumps Request_raises "POST" url headers (Some json_data) = Ok req ->
  1 <= retries ->
  req_method req = "POST" /\ req_url req = url /\
  (exists data, json_dumps json_data = Ok data /\ req_data req = Some data) /\
  req_headers req !! "Content-Type"
    = Some (default "application/json" (default ∅ headers !! "Content-Type")) /\
  exists delays : list float,
    (length delays < Z.to_nat retries)%nat /\
    trace (fst run) = trace w ++ alternating req timeout delays /\
    net_calls (fst run) = (net_calls w + length delays + 1)%nat.
Proof.
  intros timeout retries run Ho Hj Hreq Hn. subst run. unfold post, Http.request.
  rewrite Ho, Hj, Hreq. fold timeout retries.
  apply prepare_returns in Hreq as (_ & data & Hd & ->).
  set (req := mkRequest _ _ _ _).
  split; [reflexivity |]. split; [reflexivity |]. split; [eauto |]. split.
  { subst req. cbn [req_headers]. rewrite !setdefault_lookup.
    destruct (decide ("Content-Type" = "Content-Type")) as [_ | ?]; [| contradiction].
    destruct (decide ("Content-Type" = "User-Agent")); [discriminate | reflexivity]. }
  unfold range. destruct (to_nat_budget retries Hn) as [n En]. rewrite En.
  destruct (Http.retry_loop _ _ _ _ _ _ req timeout retries (seq 0 (S n)) None w)
    as [w' r] eqn:Hrun.
  apply retry_loop_run in Hrun as (delays & Hlen & Ht & Hc & _); [| lia].
  exists delays. cbn [fst]. split; [lia |]. auto.
Qed.

(** A keyword that [request] has no parameter for, or [json_data] once
    more: the call of [request] is a [TypeError] and nothing is sent. *)
Lemma post_unexpected_keyword (url : string) (json_data : JSON)
    (headers : option (gmap string string)) (kwargs : Kwargs JSON) (w : World) :
  kw_others JSON kwargs <> [] \/ kw_json_data JSON kwargs <> None ->
  post JSON empty_object json_loads json_dumps Request_raises py_float
    urlopen random url json_data headers kwargs w
  = (w, Raise (ExOther "TypeError")).
Proof.
  unfold post. destruct (kw_others JSON kwargs), (kw_json_data JSON kwargs);
    intros [H | H]; try contradiction; reflexivity.
Qed.

End Wrappers.
End RequestShapeFacts.

(** * More runs of [request] *)

Module RequestShapeRuns.
Import PyStr PyFloat Http Fixtures ServerFixtures RequestShape RequestShapeFacts.

(** Three timeouts with a budget of three. *)
Lemma request_calls_and_sleeps_witness :
  1 <= 3 /\
  exists delays : list float,
    (length delays < Z.to_nat 3)%nat /\
    trace (fst (run timing_out 3))
    = trace fresh ++ alternating the_request DEFAULT_TIMEOUT delays /\
    net_calls (fst (run timing_out 3)) = (net_calls fresh + length delays + 1)%nat /\
    Forall (fun d => (0 <=? d)%float = true) delays.
Proof.
  split; [lia |].
  exact (request_calls_and_sleeps unit tt loads dumps accepts to_float timing_out half
           "GET" "https://example.org/api" None None DEFAULT_TIMEOUT 3 fresh
           ltac:(lia)).
Defined.


Example flaky_run :
  run flaky 3
  = (mkWorld 3 2 [EvUrlopen the_request 30; EvSleep 2.25;
                  EvUrlopen the_request 30; EvSleep 4.5;
                  EvUrlopen the_request 30],
     Ok tt).
Proof. vm_compute. reflexivity. Qed.

Lemma request_sleeps_at_most_75_witness :
  (forall n, (0 <=? half n)%float = true /\ (half n <=? 1)%float = true) /\
  exists events : list Event,
    trace (fst (run busy 3)) = trace fresh ++ events /\
    forall d, EvSleep d ∈ events ->
      (0 <=? d)%float = true /\ (d <=? 75)%float = true.
Proof.
  assert (Hr : forall n, (0 <=? half n)%float = true /\ (half n <=? 1)%float = true)
    by (intros n; split; reflexivity).
  split; [exact Hr |].
  apply (request_sleeps_at_most_75 unit tt loads dumps accepts to_float busy half Hr
           "GET" "https://example.org/api" None None DEFAULT_TIMEOUT 3 fresh).
Defined.

Lemma request_returns_after_retries_witness :
  (forall n, (0 <=? half n)%float = true /\ (half n <=? 1)%float = true) /\
  prepare unit dumps accepts "GET" "https://example.org/api" None None = Ok the_request /\
  Z.of_nat 2 < 3 /\ (2 <= 1024)%nat /\
  (forall i, (i < 2)%nat ->
     retryable to_float (flaky the_request DEFAULT_TIMEOUT (net_calls fresh + i))) /\
  flaky the_request DEFAULT_TIMEOUT (net_calls fresh + 2) = Responded 200 "{}" /\
  decode_body unit tt loads "{}" = inl tt /\
  exists (w' : World) (delays : list float),
    run flaky 3 = (w', Ok tt) /\
    net_calls w' = (net_calls fresh + 2 + 1)%nat /\
    trace w' = trace fresh ++ alternating the_request DEFAULT_TIMEOUT delays /\
    length delays = 2%nat.
Proof.
  assert (Hr : forall n, (0 <=? half n)%float = true /\ (half n <=? 1)%float = true)
    by (intros n; split; reflexivity).
  assert (Ha : forall i, (i < 2)%nat ->
            retryable to_float (flaky the_request DEFAULT_TIMEOUT (net_calls fresh + i)))
    by (intros [| [| i]] Hi; [exact I | exact I | lia]).
  split; [exact Hr |]. split; [reflexivity |].
  split; [lia |]. split; [lia |]. split; [exact Ha |].
  split; [reflexivity |]. split; [reflexivity |].
  apply (request_returns_after_retries unit tt loads dumps accepts to_float flaky half Hr
           "GET" "https://example.org/api" None None DEFAULT_TIMEOUT 3 2 200 "{}" tt
           the_request fresh);
    [reflexivity | lia | lia | exact Ha | reflexivity | reflexivity].
Defined.

(** A 503 with [Retry-After: 30] on the first of three attempts: a sleep
    of 30 seconds, no draw. *)
Lemma hinted_retry_sleeps_the_hint_witness :
  busy the_request 30 (net_calls fresh)
  = RaisedHTTPError 503 "Service Unavailable" None (Some "30") /\
  ~ (400 <= 503 < 500 /\ 503 <> 429) /\
  parse_retry_after to_float (Some "30") = Some 30%float /\
  (0 <=? 30)%float = true /\
  Z.of_nat 0 < 3 - 1 /\
  retry_loop unit tt loads to_float busy half the_request 30 3 [0; 1; 2]%nat None fresh
  = retry_loop unit tt loads to_float busy half the_request 30 3 [1; 2]%nat
      (Some (mkHTTPError ("HTTP " +:+ str_of_int 503 +:+ ": " +:+ "Service Unavailable")
                         (Some 503) None (Some 30%float)))
      (slept (py_min 30 RETRY_MAX_DELAY) (opened the_request 30 fresh)).
Proof.
  split; [reflexivity |]. split; [lia |]. split; [reflexivity |]. split; [reflexivity |].
  split; [lia |].
  apply (hinted_retry_sleeps_the_hint unit tt loads dumps accepts to_float busy half
           the_request 30 3 0 [1; 2]%nat None 503 "Service Unavailable" None (Some "30")
           30%float fresh);
    [reflexivity | lia | reflexivity | reflexivity | lia].
Defined.

(** A POST of an object with the caller's agent under [user-agent]. *)
Lemma prepared_request_arguments_witness :
  prepare unit dumps accepts "POST" "https://example.org/api" (Some curl_headers) (Some tt)
  = Ok the_post /\
  req_method the_post = "POST" /\ req_url the_post = "https://example.org/api" /\
  (exists data, dumps tt = Ok data /\ req_data the_post = Some data) /\
  (forall k v, default ∅ (Some curl_headers) !! k = Some v ->
     req_headers the_post !! k = Some v) /\
  req_headers the_post !! "User-Agent"
    = Some (default USER_AGENT (default ∅ (Some curl_headers) !! "User-Agent")) /\
  req_headers the_post !! "Content-Type"
    = Some (default "application/json" (default ∅ (Some curl_headers) !! "Content-Type")) /\
  (forall k, k <> "User-Agent" -> k <> "Content-Type" ->
     req_headers the_post !! k = default ∅ (Some curl_headers) !! k).
Proof.
  split; [reflexivity |].
  exact (prepared_request_arguments unit dumps accepts
           "POST" "https://example.org/api" (Some curl_headers) (Some tt) the_post eq_refl).
Defined.

(** The keys are compared as they are spelled: the dict that the
    constructor gets holds the caller's [user-agent] and the default
    under [User-Agent], both. *)
Example lower_case_agent_is_another_key :
  req_headers the_post !! "user-agent" = Some "curl/8" /\
  req_headers the_post !! "User-Agent" = Some USER_AGENT.
Proof. split; reflexivity. Qed.

(** [post] with [timeout=10, retries=5] against a server that times
    out. *)
Lemma post_requests_witness :
  kw_others unit patient = [] /\ kw_json_data unit patient = None /\
  prepare unit dumps accepts "POST" "https://example.org/api" (Some curl_headers) (Some tt)
  = Ok the_post /\
  1 <= default MAX_RETRIES (kw_retries unit patient) /\
  req_method the_post = "POST" /\ req_url the_post = "https://example.org/api" /\
  (exists data, dumps tt = Ok data /\ req_data the_post = Some data) /\
  req_headers the_post !! "Content-Type"
    = Some (default "application/json" (default ∅ (Some curl_headers) !! "Content-Type")) /\
  exists delays : list float,
    (length delays < Z.to_nat (default MAX_RETRIES (kw_retries unit patient)))%nat /\
    trace (fst (post unit tt loads dumps accepts to_float timing_out half
                  "https://example.org/api" tt (Some curl_headers) patient fresh))
    = trace fresh
      ++ alternating the_post (default DEFAULT_TIMEOUT (kw_timeout unit patient)) delays /\
    net_calls (fst (post unit tt loads dumps accepts to_float timing_out half
                      "https://example.org/api" tt (Some curl_headers) patient fresh))
    = (net_calls fresh + length delays + 1)%nat.
Proof.
  split; [reflexivity |]. split; [reflexivity |]. split; [reflexivity |].
  split; [cbn; lia |].
  exact (post_requests unit tt loads dumps accepts to_float timing_out half
           "https://example.org/api" tt (Some curl_headers) patient the_post fresh
           eq_refl eq_refl eq_refl ltac:(cbn; lia)).
Defined.

Example patient_post_run :
  post unit tt loads dumps accepts to_float timing_out half
    "https://example.org/api" tt (Some curl_headers) patient fresh
  = (mkWorld 5 4 [EvUrlopen the_post 10; EvSleep 2.25;
                  EvUrlopen the_post 10; EvSleep 4.5;
                  EvUrlopen the_post 10; EvSleep 9;
                  EvUrlopen the_post 10; EvSleep 18;
                  EvUrlopen the_post 10],
     Raise (ExHTTPError
              (mkHTTPError "Connection error: TimeoutError: timed out" None None None))).
Proof. vm_compute. reflexivity. Qed.

Example busy_run :
  run busy 3
  = (mkWorld 3 0 [EvUrlopen the_request 30; EvSleep 30;
                  EvUrlopen the_request 30; EvSleep 30;
                  EvUrlopen the_request 30],
     Raise (ExHTTPError
              (mkHTTPError "HTTP 503: Service Unavailable" (Some 503) None (Some 30%float)))).
Proof. vm_compute. reflexivity. Qed.

End RequestShapeRuns.

(* ================================================================== *)
(** * The path of [get_reddit_json] as a normal form *)
(* ================================================================== *)

Module RedditPathFacts.
Import PyStr Http RedditFacts.

Lemma rstrip_app_char (c : ascii) (s : string) :
  rstrip c (s +:+ String c EmptyString) = rstrip c s.
Proof.
  induction s as [| a s IH].
  - change (rstrip c (String c EmptyString) = EmptyString).
    cbn [rstrip]. rewrite Ascii.eqb_refl. reflexivity.
  - change (String a s +:+ String c EmptyString) with (String a (s +:+ String c EmptyString)).
    cbn [rstrip]. rewrite IH. reflexivity.
Qed.

Lemma endswith_split (suf s : string) :
  endswith suf s = true -> exists p, s = p +:+ suf.
Proof.
  induction s as [| a s IH]; cbn [endswith].
  - destruct (String.eqb_spec "" suf) as [<- | ?]; [| discriminate]. exists "". reflexivity.
  - destruct (String.eqb_spec (String a s) suf) as [<- | ?].
    + exists "". reflexivity.
    + intros [p ->]%IH. exists (String a p). reflexivity.
Qed.

Lemma rstrip_app_json (p : string) :
  rstrip "/" (p +:+ ".json") = p +:+ ".json".
Proof.
  induction p as [| a p IH]; [reflexivity |].
  change (String a p +:+ ".json") with (String a (p +:+ ".json")).
  rewrite rstrip_cons_nonempty; rewrite IH; [reflexivity |].
  destruct p; discriminate.
Qed.

(** A path that begins with a slash and ends with [.json] is left as it
    is. *)
Lemma reddit_path_fixed (path : string) :
  startswith "/" path = true -> endswith ".json" path = true ->
  reddit_path path = path.
Proof.
  intros Hs He. unfold reddit_path. rewrite Hs.
  destruct (endswith_split _ _ He) as [p ->]. rewrite rstrip_app_json, He. reflexivity.
Qed.

(** X9. Normalising a Reddit path twice is normalising it once, for
    every path that has a character other than a slash: the suffix
    [.json] is not added a second time. *)
Theorem reddit_path_idempotent (path : string) :
  rstrip "/" path <> EmptyString ->
  reddit_path (reddit_path path) = reddit_path path.
Proof.
  intros H. apply reddit_path_fixed.
  - apply reddit_path_leading_slash, H.
  - apply reddit_path_ends_with_json.
Qed.

Lemma reddit_path_idempotent_witness :
  rstrip "/" "r/rust/" <> EmptyString /\
  reddit_path (reddit_path "r/rust/") = reddit_path "r/rust/".
Proof.
  split; [discriminate |]. apply (reddit_path_idempotent "r/rust/"). discriminate.
Defined.

(** X10. The path requested does not depend on a trailing slash of the
    argument, nor on whether its leading slash is there. *)
Theorem reddit_path_ignores_outer_slashes (path : string) :
  reddit_path (path +:+ "/") = reddit_path path /\
  (startswith "/" path = false -> reddit_path ("/" +:+ path) = reddit_path path).
Proof.
  split.
  - unfold reddit_path. destruct path as [| a p]; [reflexivity |].
    change (String a p +:+ "/") with (String a (p +:+ "/")).
    change (startswith "/" (String a (p +:+ "/"))) with (startswith "/" (String a p)).
    destruct (startswith "/" (String a p)).
    + change (String a (p +:+ "/")) with (String a p +:+ "/").
      rewrite rstrip_app_char. reflexivity.
    + change ("/" +:+ String a (p +:+ "/")) with (("/" +:+ String a p) +:+ "/").
      rewrite rstrip_app_char. reflexivity.
  - intros H. unfold reddit_path. rewrite H. reflexivity.
Qed.

End RedditPathFacts.

(* ================================================================== *)
(** * [dedupe_websearch] on lists that are put together *)
(* ================================================================== *)

Module DedupeLaws.
Import PyStr Websearch DedupeFacts.

Section Dedupe.
Variable lower : string -> string.

Abbreviation key := (url_key lower).
Abbreviation step := (dedupe_step lower).
Abbreviation dedupe := (dedupe_websearch lower).

(** What the loop appends does not depend on what the result held. *)
Lemma fold_dedupe_result (items : list WebSearchItem) :
  forall (seen : gset string) (result : list WebSearchItem),
    snd (fold_left step items (seen, result))
    = result ++ snd (fold_left step items (seen, [])).
Proof.
  induction items as [| x items IH]; intros seen result; cbn [fold_left].
  - cbn. rewrite app_nil_r. reflexivity.
  - unfold dedupe_step. destruct (decide (key x ∈ seen)).
    + apply IH.
    + rewrite IH, (IH _ ([] ++ [x])), <- app_assoc. reflexivity.
Qed.

(** Keys seen before the loop starts act as a filter on its input. *)
Lemma fold_dedupe_seen (items : list WebSearchItem) :
  forall (before seen : gset string) (result : list WebSearchItem),
    snd (fold_left step items (before ∪ seen, result))
    = snd (fold_left step (filter (fun x => key x ∉ before) items) (seen, result)).
Proof.
  induction items as [| x items IH]; intros before seen result; [reflexivity |].
  cbn [fold_left]. unfold dedupe_step at 2.
  destruct (decide (key x ∈ before)) as [Hb | Hb].
  - rewrite filter_cons_False by (intros H; apply H, Hb).
    destruct (decide (key x ∈ before ∪ seen)) as [_ | H]; [apply IH |].
    exfalso. apply H, elem_of_union. auto.
  - rewrite filter_cons_True by exact Hb. cbn [fold_left]. unfold dedupe_step at 3.
    destruct (decide (key x ∈ seen)) as [Hs | Hs].
    + destruct (decide (key x ∈ before ∪ seen)) as [_ | H]; [apply IH |].
      exfalso. apply H, elem_of_union. auto.
    + destruct (decide (key x ∈ before ∪ seen)) as [H | _].
      { apply elem_of_union in H as [H | H]; contradiction. }
      rewrite <- (assoc_L (∪)). apply IH.
Qed.

(** Deduplicating two batches in a row. *)
Lemma dedupe_app (items more : list WebSearchItem) :
  dedupe (items ++ more)
  = dedupe items ++ dedupe (filter (fun x => key x ∉ key <$> items) more).
Proof.
  unfold dedupe_websearch. rewrite fold_left_app.
  pose proof (dedupe_inv_fold lower items) as [Hseen _ _ _ _].
  destruct (fold_left step items (∅, [])) as [seen result]. cbn [fst snd] in *.
  rewrite fold_dedupe_result. f_equal.
  rewrite <- (right_id_L ∅ (∪) seen) at 1. rewrite fold_dedupe_seen.
  do 2 f_equal. apply list_filter_iff. intros x. rewrite Hseen. reflexivity.
Qed.

Lemma dedupe_distinct (items : list WebSearchItem) :
  NoDup (key <$> items) -> dedupe items = items.
Proof.
  induction items as [| x items IH] using rev_ind; intros Hnd; [reflexivity |].
  rewrite fmap_app in Hnd. apply NoDup_app in Hnd as (Hnd & Hx & _).
  rewrite dedupe_app, IH by exact Hnd. f_equal.
  rewrite filter_cons_True; [reflexivity |].
  intros Hin. apply (Hx (key x) Hin). left.
Qed.

(** X11. A list in which no two items share a URL key comes back as it
    is; hence deduplicating twice is deduplicating once. *)
Theorem dedupe_is_idempotent (items : list WebSearchItem) :
  (NoDup (key <$> items) -> dedupe items = items) /\
  dedupe (dedupe items) = dedupe items.
Proof.
  split; [apply dedupe_distinct |].
  apply dedupe_distinct. apply (dedupe_inv_fold lower items).
Qed.

(** X12. Deduplicating a concatenation: the first batch on its own,
    then, of the second batch, what is left once the items whose key
    occurs in the first batch are taken out. *)
Theorem dedupe_of_two_batches (items more : list WebSearchItem) :
  dedupe (items ++ more)
  = dedupe items ++ dedupe (filter (fun x => key x ∉ key <$> items) more).
Proof. apply dedupe_app. Qed.

End Dedupe.
End DedupeLaws.

(* ================================================================== *)
(** * [parse_websearch_results] and [normalize_websearch_items] *)
(* ================================================================== *)

Module WebsearchParseFacts.
Import PyStr PyFloat WebsearchParse.

Section Parse.
Variable lower : string -> string.
Variable netloc : PyVal -> option string.
Variable repr : PyVal -> option string.
Variable py_float : string -> option float.

Abbreviation extract_domain := (WebsearchParse.extract_domain lower netloc).
Abbreviation is_excluded_domain := (WebsearchParse.is_excluded_domain lower netloc).
Abbreviation py_str := (WebsearchParse.py_str repr).
Abbreviation parse_relevance := (WebsearchParse.parse_relevance py_float).
Abbreviation parse_date := (WebsearchParse.parse_date repr).
Abbreviation parse_entry := (WebsearchParse.parse_entry lower netloc repr py_float).
Abbreviation parse_loop := (WebsearchParse.parse_loop lower netloc repr py_float).
Abbreviation parse_websearch_results :=
  (WebsearchParse.parse_websearch_results lower netloc repr py_float).

Lemma and_then_returned {A B} (c : Outcome A) (k : A -> Outcome B) (b : B) :
  and_then c k = Returned b -> exists a, c = Returned a /\ k a = Returned b.
Proof. destruct c as [a | e]; cbn; [eauto | discriminate]. Qed.

(** What an entry that yields an item went through. *)
Lemma parse_entry_item (i : nat) (result : PyVal) (item : Item) :
  parse_entry i result = Returned (Some item) ->
  exists (d : gmap string PyVal) (title snippet why date_confidence : string)
         (date : PyVal) (relevance : float),
    let url := dict_get d "url" (PStr "") in
    result = PDict d /\
    truthy url = true /\ is_excluded_domain url = false /\
    py_str (dict_get d "title" (PStr "")) = Returned title /\
    py_str (dict_get d "snippet" (dict_get d "description" (PStr ""))) = Returned snippet /\
    (strip title <> EmptyString \/ strip snippet <> EmptyString) /\
    parse_date (dict_get d "date" PNone) = Returned (date, date_confidence) /\
    parse_relevance (dict_get d "relevance" (PFloat 0.5)) = Returned relevance /\
    py_str (dict_get d "why_relevant" (PStr "")) = Returned why /\
    item = <["id" := PStr ("W" +:+ str_of_int (Z.of_nat i + 1))]>
           (<["title" := PStr (slice_to 200 (strip title))]>
           (<["url" := url]>
           (<["source_domain" := PStr (extract_domain url)]>
           (<["snippet" := PStr (slice_to 500 (strip snippet))]>
           (<["date" := date]>
           (<["date_confidence" := PStr date_confidence]>
           (<["relevance" := PFloat relevance]>
           (<["why_relevant" := PStr (strip why)]> ∅)))))))).
Proof.
  destruct result as [| | | | | | d]; try discriminate. cbn [WebsearchParse.parse_entry].
  destruct (truthy (dict_get d "url" (PStr ""))) eqn:Hurl; [| discriminate]. cbn [negb].
  destruct (is_excluded_domain (dict_get d "url" (PStr ""))) eqn:Hex; [discriminate |].
  intros (title & Ht & H)%and_then_returned. apply and_then_returned in H as (snippet & Hs & H).
  destruct (negb (truthy (PStr (strip title))) && negb (truthy (PStr (strip snippet))))
    eqn:Hempty; [discriminate |].
  apply and_then_returned in H as ([date conf] & Hd & H).
  apply and_then_returned in H as (rel & Hr & H). apply and_then_returned in H as (why & Hw & H).
  injection H as <-.
  exists d, title, snippet, why, conf, date, rel. cbn zeta.
  repeat (split; [first [reflexivity | assumption] |]).
  split; [| repeat (split; [first [reflexivity | assumption] |]); reflexivity].
  cbn [truthy] in Hempty. rewrite !negb_involutive in Hempty.
  apply andb_false_iff in Hempty as [H | H]; [left | right];
    intros E; rewrite E in H; discriminate.
Qed.

(** The loop: what it adds to [items], with the index of each addition. *)
Lemma parse_loop_picks (results : list PyVal) :
  forall (i : nat) (items out : list Item),
    parse_loop i results items = Returned out ->
    exists picks : list (nat * Item),
      out = items ++ picks.*2 /\
      StronglySorted lt picks.*1 /\
      Forall (fun p => (i <= p.1 < i + length results)%nat /\
                       exists r, results !! (p.1 - i)%nat = Some r /\
                                 parse_entry p.1 r = Returned (Some p.2)) picks.
Proof.
  induction results as [| r rest IH]; intros i items out; cbn [WebsearchParse.parse_loop].
  - intros [= <-]. exists []. cbn. rewrite app_nil_r. repeat constructor.
  - intros (parsed & Hp & H)%and_then_returned.
    assert (Hshift : forall picks : list (nat * Item),
      Forall (fun p => (S i <= p.1 < S i + length rest)%nat /\
                       exists r', rest !! (p.1 - S i)%nat = Some r' /\
                                  parse_entry p.1 r' = Returned (Some p.2)) picks ->
      Forall (fun p => (i <= p.1 < i + length (r :: rest))%nat /\
                       exists r', (r :: rest) !! (p.1 - i)%nat = Some r' /\
                                  parse_entry p.1 r' = Returned (Some p.2)) picks).
    { intros picks Hall. eapply Forall_impl; [exact Hall |].
      intros [j it] [Hj (r' & Hr' & He)].
      cbn [fst snd length] in *. split; [lia |]. exists r'. split; [| exact He].
      replace (j - i)%nat with (S (j - S i)) by lia. exact Hr'. }
    destruct parsed as [item |]; apply IH in H as (picks & -> & Hs & Hall).
    + exists ((i, item) :: picks). cbn [fmap list_fmap fst snd].
      split; [rewrite <- app_assoc; reflexivity |]. split.
      * constructor; [exact Hs |]. rewrite Forall_fmap.
        eapply Forall_impl; [exact Hall |]. intros [j it] [Hj _]. cbn in *. lia.
      * constructor; [| apply Hshift, Hall].
        cbn [fst snd length]. split; [lia |]. exists r.
        rewrite Nat.sub_diag. split; [reflexivity | exact Hp].
    + exists picks. split; [reflexivity |]. split; [exact Hs | apply Hshift, Hall].
Qed.

(** Every item returned was made by one turn of the loop. *)
Lemma parsed_item_origin (results : list PyVal) (topic : string)
    (items : list Item) (item : Item) :
  parse_websearch_results results topic = Returned items -> item ∈ items ->
  exists i r, results !! i = Some r /\ parse_entry i r = Returned (Some item).
Proof.
  intros (picks & -> & _ & Hall)%parse_loop_picks Hin. cbn [app] in Hin.
  apply list_elem_of_fmap in Hin as ([i it] & -> & Hin).
  rewrite Forall_forall in Hall. destruct (Hall _ Hin) as (_ & r & Hr & He).
  cbn [fst snd] in *. rewrite Nat.sub_0_r in Hr. eauto.
Qed.

(** ** Strings *)

Lemma slice_to_length (n : nat) (s : string) : (String.length (slice_to n s) <= n)%nat.
Proof.
  revert s. induction n as [| n IH]; intros [| c s]; cbn; try lia.
  specialize (IH s). lia.
Qed.

Lemma slice_to_nonempty (n : nat) (s : string) :
  s <> EmptyString -> slice_to (S n) s <> EmptyString.
Proof. destruct s; [contradiction | discriminate]. Qed.

Lemma startswith_split (p s : string) :
  startswith p s = true -> s = p +:+ slice_from (String.length p) s.
Proof.
  revert s. induction p as [| a p IH]; intros s; [destruct s; reflexivity |].
  destruct s as [| b s]; [discriminate |]. cbn [startswith].
  intros [Hab Hp]%andb_prop. apply Ascii.eqb_eq in Hab. subst b.
  change (String a p +:+ ?t) with (String a (p +:+ t)).
  cbn [String.length slice_from]. f_equal. apply IH, Hp.
Qed.

(** ** The clamp of line 119 *)

Lemma ltb_leb (a b : float) : (a <? b)%float = true -> (a <=? b)%float = true.
Proof.
  rewrite ltb_spec, leb_spec. unfold SFltb, SFleb.
  destruct (SFcompare _ _) as [[| |] |]; congruence.
Qed.

Lemma clamp_in_unit_interval (f : float) :
  let r := py_min 1 (py_max 0 f) in
  (0 <=? r)%float = true /\ (r <=? 1)%float = true.
Proof.
  cbn zeta. unfold py_min, py_max.
  destruct (0 <? f)%float eqn:E0.
  - destruct (f <? 1)%float eqn:E1.
    + split; apply ltb_leb; assumption.
    + split; reflexivity.
  - change (0 <? 1)%float with true. cbn. split; reflexivity.
Qed.

Lemma parse_relevance_range (v : PyVal) (r : float) :
  parse_relevance v = Returned r -> (0 <=? r)%float = true /\ (r <=? 1)%float = true.
Proof.
  unfold WebsearchParse.parse_relevance.
  destruct (float_of py_float v) as [f | |]; intros [= <-].
  - apply clamp_in_unit_interval.
  - split; reflexivity.
Qed.

Lemma parse_date_cases (v date : PyVal) (conf : string) :
  parse_date v = Returned (date, conf) ->
  (conf = "med" /\ date = v /\ truthy v = true /\
   exists s, py_str v = Returned s /\ date_re_match s = true) \/
  (conf = "low" /\ truthy date = false).
Proof.
  unfold WebsearchParse.parse_date. destruct (truthy v) eqn:Hv.
  - intros (s & Hs & H)%and_then_returned. destruct (date_re_match s) eqn:Hm; injection H as <- <-.
    + left. eauto 10.
    + right. auto.
  - intros [= <- <-]. right. auto.
Qed.

(** ** The items returned *)

(** X13. Titles and snippets of the items returned are strings of at
    most 200 and 500 characters, and no item has both of them empty;
    [why_relevant] is a string too. *)
Theorem parsed_text_fields (results : list PyVal) (topic : string)
    (items : list Item) (item : Item) :
  parse_websearch_results results topic = Returned items -> item ∈ items ->
  exists title snippet why : string,
    item !! "title" = Some (PStr title) /\
    item !! "snippet" = Some (PStr snippet) /\
    item !! "why_relevant" = Some (PStr why) /\
    (String.length title <= 200)%nat /\ (String.length snippet <= 500)%nat /\
    (title <> EmptyString \/ snippet <> EmptyString).
Proof.
  intros Hp Hin. destruct (parsed_item_origin _ _ _ _ Hp Hin) as (i & r & _ & He).
  apply parse_entry_item in He
    as (d & title & snippet & why & conf & date & rel & _ & _ & _ & _ & _ & Hne & _ & _ & _ & ->).
  exists (slice_to 200 (strip title)), (slice_to 500 (strip snippet)), (strip why).
  split; [reflexivity |]. split; [reflexivity |]. split; [reflexivity |].
  split; [apply slice_to_length |]. split; [apply slice_to_length |].
  destruct Hne as [H | H]; [left | right]; apply slice_to_nonempty, H.
Qed.

(** X14. The relevance of an item returned is a float between 0 and 1,
    whatever the entry held: never NaN, never out of range. *)
Theorem parsed_relevance_in_unit_interval (results : list PyVal) (topic : string)
    (items : list Item) (item : Item) :
  parse_websearch_results results topic = Returned items -> item ∈ items ->
  exists r : float,
    item !! "relevance" = Some (PFloat r) /\
    (0 <=? r)%float = true /\ (r <=? 1)%float = true.
Proof.
  intros Hp Hin. destruct (parsed_item_origin _ _ _ _ Hp Hin) as (i & r & _ & He).
  apply parse_entry_item in He
    as (d & title & snippet & why & conf & date & rel & _ & _ & _ & _ & _ & _ & _ & Hr & _ & ->).
  exists rel. split; [reflexivity |]. eapply parse_relevance_range, Hr.
Qed.

(** X15. The date confidence of an item returned is [med] or [low]: it
    is [med] exactly when the item keeps the entry's date, whose text
    matched the pattern; otherwise it is [low] and the item's date is
    [None] or another false value. *)
Theorem parsed_date_confidence (results : list PyVal) (topic : string)
    (items : list Item) (item : Item) :
  parse_websearch_results results topic = Returned items -> item ∈ items ->
  exists (date : PyVal) (confidence : string),
    item !! "date" = Some date /\
    item !! "date_confidence" = Some (PStr confidence) /\
    ((confidence = "med" /\ truthy date = true /\
      exists s, py_str date = Returned s /\ date_re_match s = true) \/
     (confidence = "low" /\ truthy date = false)).
Proof.
  intros Hp Hin. destruct (parsed_item_origin _ _ _ _ Hp Hin) as (i & r & _ & He).
  apply parse_entry_item in He
    as (d & title & snippet & why & conf & date & rel & _ & _ & _ & _ & _ & _ & Hd & _ & _ & ->).
  exists date, conf. split; [reflexivity |]. split; [reflexivity |].
  apply parse_date_cases in Hd as [(-> & -> & Ht & Hs) | H]; [left | right]; auto.
Qed.

(** ** Domains *)

Lemma excluded_domains (domain : string) :
  domain ∈ EXCLUDED_DOMAINS <->
  domain = "reddit.com" \/ domain = "www.reddit.com" \/ domain = "old.reddit.com" \/
  domain = "twitter.com" \/ domain = "www.twitter.com" \/ domain = "x.com" \/
  domain = "www.x.com" \/ domain = "mobile.twitter.com".
Proof.
  unfold EXCLUDED_DOMAINS. rewrite !elem_of_union, !elem_of_singleton. tauto.
Qed.

(** A URL whose domain as displayed is one of the three sites is an
    excluded one. *)
Lemma site_domain_is_excluded (url : PyVal) :
  extract_domain url = "reddit.com" \/ extract_domain url = "twitter.com" \/
  extract_domain url = "x.com" ->
  is_excluded_domain url = true.
Proof.
  unfold WebsearchParse.extract_domain, WebsearchParse.is_excluded_domain.
  destruct (netloc url) as [n |]; [| intros [H | [H | H]]; discriminate].
  cbn zeta. intros H. apply bool_decide_eq_true, excluded_domains.
  destruct (startswith "www." (lower n)) eqn:Hw.
  - apply startswith_split in Hw. cbn [String.length] in Hw. rewrite Hw.
    destruct H as [-> | [-> | ->]]; cbn; tauto.
  - tauto.
Qed.

(** X16. A URL that [is_excluded_domain] rejects is one that
    [extract_domain] shows as one of five domains of Reddit and X; and a
    URL shown as [reddit.com], [twitter.com] or [x.com] is always
    rejected. *)
Theorem excluded_domains_as_displayed (url : PyVal) :
  (is_excluded_domain url = true ->
   extract_domain url = "reddit.com" \/ extract_domain url = "old.reddit.com" \/
   extract_domain url = "twitter.com" \/ extract_domain url = "x.com" \/
   extract_domain url = "mobile.twitter.com") /\
  (extract_domain url = "reddit.com" \/ extract_domain url = "twitter.com" \/
   extract_domain url = "x.com" ->
   is_excluded_domain url = true).
Proof.
  split; [| apply site_domain_is_excluded].
  unfold WebsearchParse.extract_domain, WebsearchParse.is_excluded_domain.
  destruct (netloc url) as [n |]; [| discriminate]. cbn zeta.
  intros H%bool_decide_eq_true%excluded_domains.
  destruct H as [-> | [-> | [-> | [-> | [-> | [-> | [-> | ->]]]]]]]; cbn; tauto.
Qed.

(** X17. Every item returned carries the URL of its entry, a true value
    that [is_excluded_domain] does not reject, and as [source_domain]
    what [extract_domain] makes of it, which is never [reddit.com],
    [twitter.com] or [x.com]. *)
Theorem parsed_items_are_not_excluded (results : list PyVal) (topic : string)
    (items : list Item) (item : Item) :
  parse_websearch_results results topic = Returned items -> item ∈ items ->
  exists url : PyVal,
    item !! "url" = Some url /\ truthy url = true /\
    is_excluded_domain url = false /\
    item !! "source_domain" = Some (PStr (extract_domain url)) /\
    extract_domain url <> "reddit.com" /\ extract_domain url <> "twitter.com" /\
    extract_domain url <> "x.com".
Proof.
  intros Hp Hin. destruct (parsed_item_origin _ _ _ _ Hp Hin) as (i & r & _ & He).
  apply parse_entry_item in He
    as (d & title & snippet & why & conf & date & rel & _ & Hu & Hx & _ & _ & _ & _ & _ & _ & ->).
  exists (dict_get d "url" (PStr "")).
  split; [reflexivity |]. split; [exact Hu |]. split; [exact Hx |]. split; [reflexivity |].
  repeat split; intros E; rewrite site_domain_is_excluded in Hx by auto; discriminate.
Qed.

(** ** Identifiers *)

Lemma str_of_int_inj (a b : Z) :
  0 < a -> 0 < b -> str_of_int a = str_of_int b -> a = b.
Proof.
  intros Ha Hb H. apply DecimalZ.to_int_inj. unfold str_of_int in H.
  apply (f_equal NilZero.int_of_string) in H.
  destruct a as [| p | p], b as [| q | q]; try lia.
  rewrite !NilZero.isi in H; try discriminate; try congruence.
  all: cbn; intros [= E]; exact (DecimalPos.Unsigned.to_uint_nonnil _ E).
Qed.

Lemma sorted_lt_NoDup (l : list nat) : StronglySorted lt l -> NoDup l.
Proof.
  induction 1 as [| x l Hs IH Hall]; constructor; [| exact IH].
  intros Hin. rewrite Forall_forall in Hall. specialize (Hall x Hin). lia.
Qed.

(** X18. The identifiers of the items returned number the positions of
    their entries in the input: [W1] for the first entry, [W2] for the
    second, and so on, in increasing order; an entry that is skipped
    leaves a gap, and no identifier occurs twice. *)
Theorem parsed_ids_number_the_entries (results : list PyVal) (topic : string)
    (items : list Item) :
  parse_websearch_results results topic = Returned items ->
  exists positions : list nat,
    (fun item : Item => item !! "id") <$> items
    = (fun i => Some (PStr ("W" +:+ str_of_int (Z.of_nat i + 1)))) <$> positions /\
    StronglySorted lt positions /\
    Forall (fun i => exists d, results !! i = Some (PDict d)) positions /\
    NoDup ((fun item : Item => item !! "id") <$> items).
Proof.
  intros (picks & -> & Hs & Hall)%parse_loop_picks. cbn [app].
  assert (Hids : (fun item : Item => item !! "id") <$> picks.*2
                 = (fun i => Some (PStr ("W" +:+ str_of_int (Z.of_nat i + 1)))) <$> picks.*1).
  { clear Hs. induction Hall as [| [i it] picks (_ & r & _ & He) _ IH]; [reflexivity |].
    cbn [fmap list_fmap fst snd] in *. f_equal; [| exact IH].
    apply parse_entry_item in He
      as (d & title & snippet & why & conf & date & rel & _ & _ & _ & _ & _ & _ & _ & _ & _ & ->).
    reflexivity. }
  exists picks.*1. split; [exact Hids |]. split; [exact Hs |]. split.
  - rewrite Forall_fmap. eapply Forall_impl; [exact Hall |].
    intros [i it] (_ & r & Hr & He). cbn [fst snd compose] in *.
    rewrite Nat.sub_0_r in Hr.
    apply parse_entry_item in He as (d & _ & _ & _ & _ & _ & _ & -> & _). eauto.
  - rewrite Hids. apply NoDup_fmap_2; [| apply sorted_lt_NoDup, Hs].
    intros i j [= E]. apply str_of_int_inj in E; lia.
Qed.

(** ** Entries that are kept *)

(** The loop loses nothing: what it had stays, and every entry that
    yields an item has it in the list returned. *)
Lemma parse_loop_keeps (results : list PyVal) :
  forall (i : nat) (items out : list Item),
    parse_loop i results items = Returned out ->
    (forall item, item ∈ items -> item ∈ out) /\
    forall j r, results !! j = Some r ->
      exists parsed, parse_entry (i + j) r = Returned parsed /\
                     forall item, parsed = Some item -> item ∈ out.
Proof.
  induction results as [| r rest IH]; intros i items out; cbn [WebsearchParse.parse_loop].
  - intros [= <-]. split; [auto |]. intros j r' H. inversion H.
  - intros (parsed & Hp & H)%and_then_returned.
    destruct parsed as [item |]; apply IH in H as [Hacc Hrest].
    + split; [intros x Hx; apply Hacc, elem_of_app; auto |].
      intros [| j] r' Hj; cbn in Hj.
      * injection Hj as <-. rewrite Nat.add_0_r. exists (Some item).
        split; [exact Hp |]. intros x [= <-]. apply Hacc, elem_of_app. right. left.
      * replace (i + S j)%nat with (S i + j)%nat by lia. apply Hrest, Hj.
    + split; [exact Hacc |].
      intros [| j] r' Hj; cbn in Hj.
      * injection Hj as <-. rewrite Nat.add_0_r. exists None.
        split; [exact Hp |]. discriminate.
      * replace (i + S j)%nat with (S i + j)%nat by lia. apply Hrest, Hj.
Qed.

(** An entry with a true URL that is not excluded and a title that is
    not blank yields an item, unless a conversion raises. *)
Lemma parse_entry_kept (i : nat) (d : gmap string PyVal) (url : PyVal) (title : string)
    (parsed : option Item) :
  d !! "url" = Some url -> truthy url = true -> is_excluded_domain url = false ->
  d !! "title" = Some (PStr title) -> strip title <> EmptyString ->
  parse_entry i (PDict d) = Returned parsed ->
  exists item, parsed = Some item /\
    item !! "id" = Some (PStr ("W" +:+ str_of_int (Z.of_nat i + 1))) /\
    item !! "url" = Some url /\
    item !! "title" = Some (PStr (slice_to 200 (strip title))).
Proof.
  intros Hu Ht Hx Hti Hne Hp.
  assert (Eu : dict_get d "url" (PStr "") = url) by (unfold dict_get; rewrite Hu; reflexivity).
  assert (Et : dict_get d "title" (PStr "") = PStr title)
    by (unfold dict_get; rewrite Hti; reflexivity).
  destruct parsed as [item |].
  - exists item. split; [reflexivity |].
    apply parse_entry_item in Hp
      as (d' & title' & snippet & why & conf & date & rel & [= <-] & _ & _ & Ht' & _ & _ & _ & _ & _ & ->).
    rewrite Et in Ht'. injection Ht' as <-. rewrite Eu.
    split; [reflexivity |]. split; reflexivity.
  - exfalso. revert Hp. cbn [WebsearchParse.parse_entry]. rewrite Eu, Et, Ht, Hx.
    cbn [negb WebsearchParse.py_str and_then].
    intros (snippet & _ & H)%and_then_returned.
    assert (E : negb (truthy (PStr (strip title))) = false).
    { cbn [truthy]. rewrite negb_involutive.
      destruct (String.eqb_spec (strip title) ""); [contradiction | reflexivity]. }
    rewrite E in H. cbn [andb] in H.
    apply and_then_returned in H as ([date conf] & _ & H).
    apply and_then_returned in H as (rel & _ & H). apply and_then_returned in H as (why & _ & H).
    discriminate.
Qed.

(** X22. No entry that has what is asked for is lost: when
    [parse_websearch_results] returns, every entry that is a dict with a
    true [url] that [is_excluded_domain] does not reject and a title
    that is a string with a character other than white space has its
    item in the result, with the id of its position, its URL and its
    title, stripped and cut at 200 characters. *)
Theorem parsed_entries_are_kept (results : list PyVal) (topic : string)
    (items : list Item) (i : nat) (d : gmap string PyVal) (url : PyVal)
    (title : string) :
  parse_websearch_results results topic = Returned items ->
  results !! i = Some (PDict d) ->
  d !! "url" = Some url -> truthy url = true -> is_excluded_domain url = false ->
  d !! "title" = Some (PStr title) -> strip title <> EmptyString ->
  exists item, item ∈ items /\
    item !! "id" = Some (PStr ("W" +:+ str_of_int (Z.of_nat i + 1))) /\
    item !! "url" = Some url /\
    item !! "title" = Some (PStr (slice_to 200 (strip title))).
Proof.
  intros [_ Hkeep]%parse_loop_keeps Hi Hu Ht Hx Hti Hne.
  destruct (Hkeep i _ Hi) as (parsed & Hp & Hin). cbn [Nat.add] in Hp.
  destruct (parse_entry_kept i d url title parsed Hu Ht Hx Hti Hne Hp)
    as (item & -> & H).
  exists item. split; [apply Hin; reflexivity | exact H].
Qed.

(** ** Failures *)

Lemma py_str_raises (v : PyVal) (e : error) :
  py_str v = Raised e -> e = StrError /\ repr v = None.
Proof.
  unfold WebsearchParse.py_str.
  destruct v; try discriminate; destruct (repr _) eqn:E; try discriminate;
    intros [= <-]; auto.
Qed.

Lemma and_then_raised {A B} (c : Outcome A) (k : A -> Outcome B) (e : error) :
  and_then c k = Raised e -> c = Raised e \/ exists a, c = Returned a /\ k a = Raised e.
Proof. destruct c as [a | e']; cbn; [eauto | intros [= ->]; auto]. Qed.

Lemma dict_get_cases (d : gmap string PyVal) (k : string) (v0 : PyVal) :
  (exists v, d !! k = Some v /\ dict_get d k v0 = v) \/
  (d !! k = None /\ dict_get d k v0 = v0).
Proof. unfold dict_get. destruct (d !! k); [left | right]; eauto. Qed.

Lemma py_str_get_raises (d : gmap string PyVal) (k : string) (s : string) (e : error) :
  py_str (dict_get d k (PStr s)) = Raised e ->
  e = StrError /\ exists v, d !! k = Some v /\ repr v = None.
Proof.
  unfold dict_get. destruct (d !! k) as [v |]; [| discriminate].
  intros [-> H]%py_str_raises. eauto.
Qed.

Lemma parse_entry_raises (i : nat) (result : PyVal) (e : error) :
  parse_entry i result = Raised e ->
  exists d, result = PDict d /\
    ((e = StrError /\ exists k v, d !! k = Some v /\ repr v = None) \/
     (e = OverflowError /\ exists n, d !! "relevance" = Some (PInt n) /\
                                     float_of_int n = None)).
Proof.
  destruct result as [| | | | | | d]; try discriminate. cbn [WebsearchParse.parse_entry].
  intros H. exists d. split; [reflexivity |]. revert H.
  destruct (negb _); [discriminate |]. destruct (is_excluded_domain _); [discriminate |].
  intros [H | (title & _ & H)]%and_then_raised.
  { apply py_str_get_raises in H as (-> & v & Hv & Hr). left. eauto. }
  apply and_then_raised in H as [H | (snippet & _ & H)].
  { left. unfold dict_get at 1 in H. destruct (d !! "snippet") as [v |] eqn:Hv.
    - apply py_str_raises in H as [-> H]. eauto.
    - apply py_str_get_raises in H as (-> & v & Hv' & Hr). eauto. }
  destruct (negb _ && negb _); [discriminate |].
  apply and_then_raised in H as [H | ([date conf] & _ & H)].
  { left. destruct (dict_get_cases d "date" PNone) as [(v & Hv & E) | [_ E]];
      rewrite E in H; [| discriminate].
    unfold WebsearchParse.parse_date in H. destruct (truthy v); [| discriminate].
    apply and_then_raised in H as [H | (s & _ & H)].
    - apply py_str_raises in H as [-> H]. eauto.
    - destruct (date_re_match s); discriminate. }
  apply and_then_raised in H as [H | (rel & _ & H)].
  { right. destruct (dict_get_cases d "relevance" (PFloat 0.5)) as [(v & Hv & E) | [_ E]];
      rewrite E in H; [| discriminate].
    unfold WebsearchParse.parse_relevance in H.
    destruct v as [| b | n | f | s | l | d']; cbn [float_of] in H; try discriminate.
    - destruct (float_of_int n) eqn:Hn; [discriminate |]. cbn in H.
      injection H as <-. eauto.
    - destruct (py_float s); discriminate. }
  apply and_then_raised in H as [H | (why & _ & H)]; [| discriminate].
  apply py_str_get_raises in H as (-> & v & Hv & Hr). left. eauto.
Qed.

Lemma parse_loop_raises (results : list PyVal) (e : error) :
  forall (i : nat) (items : list Item),
    parse_loop i results items = Raised e ->
    exists j r, r ∈ results /\ parse_entry j r = Raised e.
Proof.
  induction results as [| r rest IH]; intros i items; cbn [WebsearchParse.parse_loop];
    [discriminate |].
  intros [H | (parsed & _ & H)]%and_then_raised.
  - exists i, r. split; [left | exact H].
  - destruct parsed; apply IH in H as (j & r' & Hin & He); exists j, r';
      (split; [right; exact Hin | exact He]).
Qed.

(** X19. [parse_websearch_results] raises in two cases only: [str()] of
    a value of some entry raises, or the relevance of some entry is an
    [int] too large for a [float]. No missing key and no value of an
    unexpected type makes it fail. *)
Theorem parse_raises_only_on_conversions (results : list PyVal) (topic : string)
    (e : error) :
  parse_websearch_results results topic = Raised e ->
  exists d : gmap string PyVal,
    PDict d ∈ results /\
    ((e = StrError /\ exists k v, d !! k = Some v /\ repr v = None) \/
     (e = OverflowError /\
      exists n, d !! "relevance" = Some (PInt n) /\ float_of_int n = None)).
Proof.
  intros (j & r & Hin & (d & -> & H)%parse_entry_raises)%parse_loop_raises. eauto.
Qed.

End Parse.
Section Normalize.
Variable WebSearchItemObject : Type.
Variable schema_WebSearchItem :
  PyVal -> PyVal -> PyVal -> PyVal -> PyVal -> PyVal -> PyVal -> PyVal -> PyVal ->
  WebSearchItemObject.

Abbreviation normalize_item :=
  (WebsearchParse.normalize_item WebSearchItemObject schema_WebSearchItem).
Abbreviation normalize_loop :=
  (WebsearchParse.normalize_loop WebSearchItemObject schema_WebSearchItem).
Abbreviation normalize_websearch_items :=
  (WebsearchParse.normalize_websearch_items WebSearchItemObject schema_WebSearchItem).

Lemma normalize_item_ok (item : Item) :
  (forall k, k ∈ REQUIRED_KEYS -> is_Some (item !! k)) ->
  exists web_item, normalize_item item = Returned web_item.
Proof.
  intros H. unfold WebsearchParse.normalize_item, dict_item.
  destruct (H "id") as [v1 ->]; [repeat constructor |].
  destruct (H "title") as [v2 ->]; [repeat constructor |].
  destruct (H "url") as [v3 ->]; [repeat constructor |].
  destruct (H "source_domain") as [v4 ->]; [repeat constructor |].
  destruct (H "snippet") as [v5 ->]; [repeat constructor |].
  cbn. eauto.
Qed.

Lemma normalize_item_raises (item : Item) (e : error) :
  normalize_item item = Raised e ->
  exists k, e = KeyError k /\ k ∈ REQUIRED_KEYS /\ item !! k = None.
Proof.
  unfold WebsearchParse.normalize_item, dict_item.
  destruct (item !! "id") eqn:E1; cbn [and_then];
    [| intros [= <-]; exists "id"; repeat split; [repeat constructor | exact E1]].
  destruct (item !! "title") eqn:E2; cbn [and_then];
    [| intros [= <-]; exists "title"; repeat split; [repeat constructor | exact E2]].
  destruct (item !! "url") eqn:E3; cbn [and_then];
    [| intros [= <-]; exists "url"; repeat split; [repeat constructor | exact E3]].
  destruct (item !! "source_domain") eqn:E4; cbn [and_then];
    [| intros [= <-]; exists "source_domain"; repeat split; [repeat constructor | exact E4]].
  destruct (item !! "snippet") eqn:E5; cbn [and_then];
    [| intros [= <-]; exists "snippet"; repeat split; [repeat constructor | exact E5]].
  discriminate.
Qed.

Lemma normalize_loop_ok (items : list Item) :
  (forall item, item ∈ items -> forall k, k ∈ REQUIRED_KEYS -> is_Some (item !! k)) ->
  forall result, exists out,
    normalize_loop items result = Returned out /\
    length out = (length result + length items)%nat.
Proof.
  induction items as [| item rest IH]; intros H result; cbn [WebsearchParse.normalize_loop].
  - exists result. cbn. split; [reflexivity | lia].
  - destruct (normalize_item_ok item) as [web_item ->]; [apply H; left |]. cbn [and_then].
    destruct (IH (fun x Hx => H x (list_elem_of_further _ _ _ Hx)) (result ++ [web_item]))
      as (out & -> & Hlen).
    exists out. split; [reflexivity |]. rewrite Hlen, length_app. cbn. lia.
Qed.

Lemma normalize_loop_raises (items : list Item) (e : error) :
  forall result, normalize_loop items result = Raised e ->
  exists item k, item ∈ items /\ e = KeyError k /\ k ∈ REQUIRED_KEYS /\ item !! k = None.
Proof.
  induction items as [| item rest IH]; intros result; cbn [WebsearchParse.normalize_loop];
    [discriminate |].
  intros [H | (web_item & _ & H)]%and_then_raised.
  - apply normalize_item_raises in H as (k & H). exists item, k. split; [left | exact H].
  - apply IH in H as (x & k & Hin & H). exists x, k. split; [right; exact Hin | exact H].
Qed.

(** X20. [normalize_websearch_items] returns one object per dict when
    every dict has the keys [id], [title], [url], [source_domain] and
    [snippet]; it fails only with the [KeyError] of one of these keys,
    missing in one of the dicts. The other four fields have defaults. *)
Theorem normalize_needs_five_keys (items : list Item) (from_date to_date : string) :
  ((forall item, item ∈ items -> forall k, k ∈ REQUIRED_KEYS -> is_Some (item !! k)) ->
   exists out, normalize_websearch_items items from_date to_date = Returned out /\
               length out = length items) /\
  (forall e, normalize_websearch_items items from_date to_date = Raised e ->
   exists item k, item ∈ items /\ e = KeyError k /\ k ∈ REQUIRED_KEYS /\
                  item !! k = None).
Proof.
  split.
  - intros H. destruct (normalize_loop_ok items H []) as (out & Hout & Hlen). eauto.
  - intros e. apply normalize_loop_raises.
Qed.

Section AfterParse.
Variable lower : string -> string.
Variable netloc : PyVal -> option string.
Variable repr : PyVal -> option string.
Variable py_float : string -> option float.

(** X21. What [parse_websearch_results] returns, [normalize_websearch_items]
    accepts: every parsed dict has the keys that are read, so the
    normalisation does not fail and gives one object per dict. *)
Theorem normalize_accepts_parsed_items (results : list PyVal) (topic : string)
    (items : list Item) (from_date to_date : string) :
  WebsearchParse.parse_websearch_results lower netloc repr py_float results topic
  = Returned items ->
  exists out,
    normalize_websearch_items items from_date to_date = Returned out /\
    length out = length items.
Proof.
  intros Hp. destruct (normalize_loop_ok items) with (result := @nil WebSearchItemObject)
    as (out & Hout & Hlen); [| eauto].
  intros item Hin k Hk.
  destruct (parsed_item_origin _ _ _ _ _ _ _ _ Hp Hin) as (i & r & _ & He).
  apply parse_entry_item in He
    as (d & title & snippet & why & conf & date & rel & _ & _ & _ & _ & _ & _ & _ & _ & _ & ->).
  unfold REQUIRED_KEYS in Hk. rewrite !elem_of_cons in Hk.
  destruct Hk as [-> | [-> | [-> | [-> | [-> | Hk]]]]]; [eauto .. | inversion Hk].
Qed.

End AfterParse.
End Normalize.
End WebsearchParseFacts.

(** * The parser on concrete results *)

Module WebsearchParseRuns.
Import PyStr PyFloat WebsearchParse WebsearchParseFacts Fixtures ResultFixtures.

(** The first and the fourth result give items; the id of the second
    item is [W4]. *)
Example parse_of_results : parse results = Returned [item_1; item_4].
Proof. reflexivity. Qed.

(** A date followed by a newline passes the pattern. *)
Example date_with_newline : date_re_match ("2024-01-05" +:+ newline) = true.
Proof. reflexivity. Qed.

Lemma parsed_text_fields_witness :
  parse results = Returned [item_1; item_4] /\ item_4 ∈ [item_1; item_4] /\
  exists title snippet why : string,
    item_4 !! "title" = Some (PStr title) /\
    item_4 !! "snippet" = Some (PStr snippet) /\
    item_4 !! "why_relevant" = Some (PStr why) /\
    (String.length title <= 200)%nat /\ (String.length snippet <= 500)%nat /\
    (title <> EmptyString \/ snippet <> EmptyString).
Proof.
  assert (Hp : parse results = Returned [item_1; item_4]) by reflexivity.
  assert (Hin : item_4 ∈ [item_1; item_4]) by (right; left).
  split; [exact Hp |]. split; [exact Hin |].
  exact (parsed_text_fields lower_ascii netloc_of repr_of to_float results "topic"
           [item_1; item_4] item_4 Hp Hin).
Defined.

Lemma parsed_relevance_in_unit_interval_witness :
  parse results = Returned [item_1; item_4] /\ item_1 ∈ [item_1; item_4] /\
  exists r : float,
    item_1 !! "relevance" = Some (PFloat r) /\
    (0 <=? r)%float = true /\ (r <=? 1)%float = true.
Proof.
  assert (Hp : parse results = Returned [item_1; item_4]) by reflexivity.
  assert (Hin : item_1 ∈ [item_1; item_4]) by left.
  split; [exact Hp |]. split; [exact Hin |].
  exact (parsed_relevance_in_unit_interval lower_ascii netloc_of repr_of to_float
           results "topic" [item_1; item_4] item_1 Hp Hin).
Defined.

Lemma parsed_date_confidence_witness :
  parse results = Returned [item_1; item_4] /\ item_4 ∈ [item_1; item_4] /\
  exists (date : PyVal) (confidence : string),
    item_4 !! "date" = Some date /\
    item_4 !! "date_confidence" = Some (PStr confidence) /\
    ((confidence = "med" /\ truthy date = true /\
      exists s, py_str repr_of date = Returned s /\ date_re_match s = true) \/
     (confidence = "low" /\ truthy date = false)).
Proof.
  assert (Hp : parse results = Returned [item_1; item_4]) by reflexivity.
  assert (Hin : item_4 ∈ [item_1; item_4]) by (right; left).
  split; [exact Hp |]. split; [exact Hin |].
  exact (parsed_date_confidence lower_ascii netloc_of repr_of to_float
           results "topic" [item_1; item_4] item_4 Hp Hin).
Defined.

Lemma parsed_items_are_not_excluded_witness :
  parse results = Returned [item_1; item_4] /\ item_1 ∈ [item_1; item_4] /\
  exists url : PyVal,
    item_1 !! "url" = Some url /\ truthy url = true /\
    is_excluded_domain lower_ascii netloc_of url = false /\
    item_1 !! "source_domain" = Some (PStr (extract_domain lower_ascii netloc_of url)) /\
    extract_domain lower_ascii netloc_of url <> "reddit.com" /\
    extract_domain lower_ascii netloc_of url <> "twitter.com" /\
    extract_domain lower_ascii netloc_of url <> "x.com".
Proof.
  assert (Hp : parse results = Returned [item_1; item_4]) by reflexivity.
  assert (Hin : item_1 ∈ [item_1; item_4]) by left.
  split; [exact Hp |]. split; [exact Hin |].
  exact (parsed_items_are_not_excluded lower_ascii netloc_of repr_of to_float
           results "topic" [item_1; item_4] item_1 Hp Hin).
Defined.

Lemma parsed_ids_number_the_entries_witness :
  parse results = Returned [item_1; item_4] /\
  exists positions : list nat,
    (fun item : Item => item !! "id") <$> [item_1; item_4]
    = (fun i => Some (PStr ("W" +:+ str_of_int (Z.of_nat i + 1)))) <$> positions /\
    StronglySorted lt positions /\
    Forall (fun i => exists d, results !! i = Some (PDict d)) positions /\
    NoDup ((fun item : Item => item !! "id") <$> [item_1; item_4]).
Proof.
  assert (Hp : parse results = Returned [item_1; item_4]) by reflexivity.
  split; [exact Hp |].
  exact (parsed_ids_number_the_entries lower_ascii netloc_of repr_of to_float
           results "topic" [item_1; item_4] Hp).
Defined.

Lemma parsed_entries_are_kept_witness :
  parse results = Returned [item_1; item_4] /\
  results !! 0%nat = Some (PDict dict_1) /\
  dict_1 !! "url" = Some (PStr "https://Example.org/a") /\
  truthy (PStr "https://Example.org/a") = true /\
  is_excluded_domain lower_ascii netloc_of (PStr "https://Example.org/a") = false /\
  dict_1 !! "title" = Some (PStr "  A title ") /\
  strip "  A title " <> EmptyString /\
  exists item, item ∈ [item_1; item_4] /\
    item !! "id" = Some (PStr ("W" +:+ str_of_int (Z.of_nat 0 + 1))) /\
    item !! "url" = Some (PStr "https://Example.org/a") /\
    item !! "title" = Some (PStr (slice_to 200 (strip "  A title "))).
Proof.
  assert (Hp : parse results = Returned [item_1; item_4]) by reflexivity.
  assert (Hne : strip "  A title " <> EmptyString) by (vm_compute; discriminate).
  split; [exact Hp |]. split; [reflexivity |]. split; [reflexivity |].
  split; [reflexivity |]. split; [reflexivity |]. split; [reflexivity |].
  split; [exact Hne |].
  exact (parsed_entries_are_kept lower_ascii netloc_of repr_of to_float
           results "topic" [item_1; item_4] 0 dict_1 (PStr "https://Example.org/a")
           "  A title " Hp eq_refl eq_refl eq_refl eq_refl eq_refl Hne).
Defined.

Lemma parse_raises_only_on_conversions_witness :
  parse huge = Raised OverflowError /\
  exists d : gmap string PyVal,
    PDict d ∈ huge /\
    ((OverflowError = StrError /\ exists k v, d !! k = Some v /\ repr_of v = None) \/
     (OverflowError = OverflowError /\
      exists n, d !! "relevance" = Some (PInt n) /\ float_of_int n = None)).
Proof.
  assert (Hp : parse huge = Raised OverflowError) by (vm_compute; reflexivity).
  split; [exact Hp |].
  exact (parse_raises_only_on_conversions lower_ascii netloc_of repr_of to_float
           huge "topic" OverflowError Hp).
Defined.

Lemma normalize_accepts_parsed_items_witness :
  parse results = Returned [item_1; item_4] /\
  exists out,
    normalize_websearch_items (list PyVal) as_list [item_1; item_4]
      "2024-01-01" "2024-01-31" = Returned out /\
    length out = length [item_1; item_4].
Proof.
  assert (Hp : parse results = Returned [item_1; item_4]) by reflexivity.
  split; [exact Hp |].
  exact (normalize_accepts_parsed_items (list PyVal) as_list
           lower_ascii netloc_of repr_of to_float results "topic" [item_1; item_4]
           "2024-01-01" "2024-01-31" Hp).
Defined.

End WebsearchParseRuns.
